(** * Dataset profiling engine of ai-data-cleaner (services/dataService.ts)

    A shallow embedding of the statistics functions of the data service:
    [getMedian], [getMode], [getStandardDeviation], [getOutlierCount],
    [calculateColumnStats] and [generateGlobalAnalysis], together with the
    part of the JavaScript runtime they rely on (objects with ordered own
    keys, [Set], [JSON.stringify], [String], [Number], [Date.parse],
    [Date.prototype.toISOString], [Array.prototype.sort]).

    The functions are embedded twice: as pure functions on lists, which
    the statistics are proved about, and ([Module Imp]) as programs over a
    store of arrays, where [sort] and [push] overwrite their receiver; the
    two are proved to compute the same report.

    The rest of the application is embedded after them: the CSV import
    and export of the data service ([parseCSV], with the field pattern it
    matches lines against, and [exportToCSV]), its sample table
    ([generateSampleData]), the handlers of App.tsx that rewrite the
    table ([handleCellEdit], [handleDataUpdate]) with the cell input of
    the grid, what geminiService.ts makes of the answer of the model, the
    counters the notebook view derives from a report, and the chart data
    of the details panel.

    Modelling conventions.
    - A cell is a number, a string, [null] or [undefined]
      ([DataRow = Record<string, string | number | any>]; the engine is
      only fed numbers, strings and absent entries).
    - JavaScript numbers are modelled as exact rationals [Q]: every finite
      double is a rational; rounding, overflow, [NaN], the infinities and
      the negative zero are outside the model.  Numbers are compared with
      [Qeq_bool] / [Qle_bool], never with Leibniz equality.
    - Strings are sequences of code units below 256 ([string]).
    - An object is its list of own properties in creation order;
      properties inherited from [Object.prototype] (and so a key named
      [__proto__]) are outside the model of the engine.  Where a key is
      a text of the imported file or of a cell they are modelled:
      [row_assign] in [parseCSV], [is_inherited_key] in the chart data.
    - Runtime behaviour that ECMAScript leaves to the implementation, or
      that is outside the exact-rational fragment, is a field of [Host]:
      every theorem holds for every host.  The random numbers and the
      time zone [generateSampleData] depends on are the fields of
      [SampleHost].
    - What lies behind the browser and the network is reduced to what the
      code passes to it or gets from it: the file handed to the browser
      for download ([Download]), the outcome of a request to the model
      ([ai_outcome]); a handler of a React component is the function from
      the state it reads to the state it sets. *)

From Stdlib Require Import List String Ascii Bool Arith ZArith QArith Lia Lqa.
From Stdlib Require Import DecimalString Sorted Permutation.
From Stdlib Require DecimalPos.
From Stdlib Require Import Qround.
Import ListNotations.

Local Open Scope string_scope.
Local Open Scope list_scope.

(** ** Host-dependent runtime behaviour *)

Record Host : Type := {
  (** [Date.parse] on strings outside the date-only forms handled by
      [parse_iso_date]; [None] is [NaN]. *)
  host_Date_parse : string -> option Z;
  (** [Number::toString] outside the safe integers. *)
  host_Number_toString : Q -> string;
  (** [StringToNumber] outside plain decimal integers; [None] is [NaN]. *)
  host_StringToNumber : string -> option Q;
  (** [Math.sqrt]. *)
  host_sqrt : Q -> Q
}.

(** ** Cell values *)

Inductive value : Type :=
| VNumber (q : Q)
| VString (s : string)
| VNull
| VUndefined.

Definition typeof (v : value) : string :=
  match v with
  | VNumber _ => "number"
  | VString _ => "string"
  | VNull => "object"
  | VUndefined => "undefined"
  end.

(** [a === b]; on this value domain it coincides with SameValueZero. *)
Definition strict_eq (a b : value) : bool :=
  match a, b with
  | VNumber x, VNumber y => Qeq_bool x y
  | VString s, VString t => String.eqb s t
  | VNull, VNull => true
  | VUndefined, VUndefined => true
  | _, _ => false
  end.

(** [v !== null && v !== '' && v !== undefined] *)
Definition nonMissing (v : value) : bool :=
  negb (strict_eq v VNull) && negb (strict_eq v (VString ""))
  && negb (strict_eq v VUndefined).

Definition isMissing (v : value) : bool := negb (nonMissing v).

(** ** Characters and decimal numerals *)

Definition dquote : ascii := ascii_of_nat 34.
Definition backslash : ascii := ascii_of_nat 92.

Definition str1 (c : ascii) : string := String c EmptyString.

Definition is_digit (c : ascii) : bool :=
  let n := nat_of_ascii c in (48 <=? n)%nat && (n <=? 57)%nat.

Definition digit_char (n : Z) : ascii :=
  ascii_of_nat (48 + Z.to_nat (n mod 10)).

Definition digit_val (c : ascii) : Z := Z.of_nat (nat_of_ascii c) - 48.

Definition string_of_nat (n : nat) : string :=
  NilZero.string_of_uint (Nat.to_uint n).

Definition string_of_Z (z : Z) : string :=
  NilZero.string_of_int (Z.to_int z).

(** Decimal integer literal [-?[0-9]+]. *)
Definition Z_of_string (s : string) : option Z :=
  match s with
  | String "-" r =>
      match NilZero.uint_of_string r with
      | Some u => Some (- Z.of_uint u)%Z
      | None => None
      end
  | _ =>
      match NilZero.uint_of_string s with
      | Some u => Some (Z.of_uint u)
      | None => None
      end
  end.

Definition MAX_SAFE_INTEGER : Z := 9007199254740991.

Definition is_safe_integer (q : Q) : bool :=
  let r := Qred q in
  (Zpos (Qden r) =? 1)%Z && (Z.abs (Qnum r) <=? MAX_SAFE_INTEGER)%Z.

Section Runtime.

Variable host : Host.

(** [Number::toString]: a safe integer prints as its decimal numeral. *)
Definition Number_toString (q : Q) : string :=
  if is_safe_integer q then string_of_Z (Qnum (Qred q))
  else host_Number_toString host (Qred q).

(** [String(v)] *)
Definition String_ (v : value) : string :=
  match v with
  | VNumber q => Number_toString q
  | VString s => s
  | VNull => "null"
  | VUndefined => "undefined"
  end.

(** [Number(s)] on a string; [None] is [NaN]. *)
Definition Number_ (s : string) : option Q :=
  match Z_of_string s with
  | Some z =>
      if (Z.abs z <=? MAX_SAFE_INTEGER)%Z then Some (inject_Z z)
      else host_StringToNumber host s
  | None => host_StringToNumber host s
  end.

End Runtime.

(** ** Arrays: [Array.prototype.sort] *)

Section Sorting.

Context {A : Type}.

Fixpoint insert_by (leb : A -> A -> bool) (x : A) (l : list A) : list A :=
  match l with
  | [] => [x]
  | y :: r => if leb x y then x :: l else y :: insert_by leb x r
  end.

(** The stable ordering of [l] by [leb]. *)
Definition stable_sort (leb : A -> A -> bool) (l : list A) : list A :=
  fold_right (insert_by leb) [] l.

(** The order relation decided by [leb]. *)
Definition leb_rel (leb : A -> A -> bool) (a b : A) : Prop := leb a b = true.

(** [arr.sort(cmp)]: stable since ES2019, [a] goes before [b] unless
    [cmp(a, b) > 0]. *)
Definition Array_sort (cmp : A -> A -> Q) (l : list A) : list A :=
  stable_sort (fun a b => Qle_bool (cmp a b) 0) l.

End Sorting.

(** [arr.sort()] on strings: code-unit order. *)
Definition Array_sort_default (l : list string) : list string :=
  stable_sort String.leb l.

(** [arr.join(sep)] *)
Fixpoint Array_join (sep : string) (l : list string) : string :=
  match l with
  | [] => ""
  | [x] => x
  | x :: r => (x ++ sep ++ Array_join sep r)%string
  end.

(** [s.includes(c)] for a one-character needle. *)
Fixpoint includes (c : ascii) (s : string) : bool :=
  match s with
  | EmptyString => false
  | String d r => Ascii.eqb c d || includes c r
  end.

(** ** Objects: own properties in creation order *)

Definition JsObject (A : Type) : Type := list (string * A).

Section Objects.

Context {A : Type}.

Fixpoint obj_get (k : string) (o : JsObject A) : option A :=
  match o with
  | [] => None
  | (k', v) :: r => if String.eqb k k' then Some v else obj_get k r
  end.

(** [o[k] = v] *)
Fixpoint obj_set (k : string) (v : A) (o : JsObject A) : JsObject A :=
  match o with
  | [] => [(k, v)]
  | (k', v') :: r =>
      if String.eqb k k' then (k', v) :: r else (k', v') :: obj_set k v r
  end.

End Objects.

(** An array index is the canonical numeral of an integer below 2^32 - 1. *)
Definition array_index (k : string) : option Z :=
  match NilZero.uint_of_string k with
  | Some u =>
      let n := Z.of_uint u in
      if String.eqb (string_of_Z n) k && (n <=? 4294967294)%Z
      then Some n else None
  | None => None
  end.

Definition is_array_index (k : string) : bool :=
  match array_index k with Some _ => true | None => false end.

Definition index_value (k : string) : Z :=
  match array_index k with Some n => n | None => 0%Z end.

(** OrdinaryOwnPropertyKeys: array indices in ascending numeric order,
    then the other keys in creation order. *)
Definition own_keys (ks : list string) : list string :=
  stable_sort (fun a b => (index_value a <=? index_value b)%Z)
              (filter is_array_index ks)
  ++ filter (fun k => negb (is_array_index k)) ks.

Definition Object_keys {A : Type} (o : JsObject A) : list string :=
  own_keys (map fst o).

(** ** [JSON.stringify] *)

Definition hex_digit (n : nat) : ascii :=
  if (n <? 10)%nat then ascii_of_nat (48 + n) else ascii_of_nat (87 + n).

Definition JSON_quote_char (c : ascii) : string :=
  let n := nat_of_ascii c in
  if (n =? 8)%nat then String backslash "b"
  else if (n =? 9)%nat then String backslash "t"
  else if (n =? 10)%nat then String backslash "n"
  else if (n =? 12)%nat then String backslash "f"
  else if (n =? 13)%nat then String backslash "r"
  else if (n =? 34)%nat then String backslash (str1 dquote)
  else if (n =? 92)%nat then String backslash (str1 backslash)
  else if (n <? 32)%nat then
    String backslash
      ("u00" ++ String (hex_digit (n / 16)) (str1 (hex_digit (n mod 16))))
  else str1 c.

Fixpoint JSON_quote_body (s : string) : string :=
  match s with
  | EmptyString => EmptyString
  | String c r => (JSON_quote_char c ++ JSON_quote_body r)%string
  end.

Definition JSON_quote (s : string) : string :=
  String dquote (JSON_quote_body s ++ str1 dquote).

Section Json.

Variable host : Host.

(** SerializeJSONProperty; [None] for [undefined]. *)
Definition JSON_value (v : value) : option string :=
  match v with
  | VNumber q => Some (Number_toString host q)
  | VString s => Some (JSON_quote s)
  | VNull => Some "null"
  | VUndefined => None
  end.

Definition JSON_member (o : JsObject value) (k : string) : option string :=
  match obj_get k o with
  | Some v =>
      match JSON_value v with
      | Some s => Some (JSON_quote k ++ ":" ++ s)%string
      | None => None
      end
  | None => None
  end.

Fixpoint somes {A : Type} (l : list (option A)) : list A :=
  match l with
  | [] => []
  | Some x :: r => x :: somes r
  | None :: r => somes r
  end.

(** [JSON.stringify(row)] *)
Definition JSON_stringify (o : JsObject value) : string :=
  ("{" ++ Array_join "," (somes (map (JSON_member o) (Object_keys o))) ++ "}")%string.

End Json.

(** ** Dates: time values are milliseconds since the epoch, in UTC *)

Local Open Scope Z_scope.

Definition msPerDay : Z := 86400000.

(** Day number of the proleptic Gregorian date [y]-[m]-[d]. *)
Definition days_from_civil (y m d : Z) : Z :=
  let y' := if m <=? 2 then y - 1 else y in
  let era := y' / 400 in
  let yoe := y' - era * 400 in
  let doy := (153 * (if 2 <? m then m - 3 else m + 9) + 2) / 5 + d - 1 in
  let doe := yoe * 365 + yoe / 4 - yoe / 100 + doy in
  era * 146097 + doe - 719468.

(** Year, month and day of month of a day number. *)
Definition civil_from_days (z : Z) : Z * Z * Z :=
  let z' := z + 719468 in
  let era := z' / 146097 in
  let doe := z' - era * 146097 in
  let yoe := (doe - doe / 1460 + doe / 36524 - doe / 146096) / 365 in
  let doy := doe - (365 * yoe + yoe / 4 - yoe / 100) in
  let mp := (5 * doy + 2) / 153 in
  let d := doy - (153 * mp + 2) / 5 + 1 in
  let m := if mp <? 10 then mp + 3 else mp - 9 in
  let y := yoe + era * 400 in
  (if m <=? 2 then y + 1 else y, m, d).

Definition is_leap_year (y : Z) : bool :=
  ((y mod 4 =? 0) && negb (y mod 100 =? 0)) || (y mod 400 =? 0).

Definition days_in_month (y m : Z) : Z :=
  if m =? 2 then (if is_leap_year y then 29 else 28)
  else if (m =? 4) || (m =? 6) || (m =? 9) || (m =? 11) then 30
  else 31.

(** TimeClip: a time value is within 8.64e15 ms of the epoch. *)
Definition TimeClip (t : Z) : option Z :=
  if Z.abs t <=? 8640000000000000 then Some t else None.

Definition digits_value (cs : list ascii) : option Z :=
  fold_left
    (fun acc c =>
       match acc with
       | Some n => if is_digit c then Some (10 * n + digit_val c) else None
       | None => None
       end)
    cs (Some 0).

Definition is_char (c : ascii) (o : option ascii) : bool :=
  match o with Some d => Ascii.eqb c d | None => false end.

(** Date part [MM-DD] preceded by [-], after a year of [w] digits. *)
Definition parse_month_day (y : Z) (cs : list ascii) : option Z :=
  match digits_value (firstn 2 (skipn 1 cs)),
        digits_value (skipn 4 cs) with
  | Some m, Some d =>
      if (List.length cs =? 6)%nat
         && is_char "-" (nth_error cs 0) && is_char "-" (nth_error cs 3)
         && (1 <=? m) && (m <=? 12) && (1 <=? d) && (d <=? days_in_month y m)
      then Some (days_from_civil y m d * msPerDay)
      else None
  | _, _ => None
  end.

(** The date-only forms of the Date Time String Format whose meaning is
    fixed for every implementation: [YYYY-MM-DD] and the expanded years
    [+YYYYYY-MM-DD], [-YYYYYY-MM-DD], with a real calendar day.  They
    denote midnight UTC. *)
Definition parse_iso_date (s : string) : option Z :=
  let cs := list_ascii_of_string s in
  match cs with
  | [] => None
  | c :: r =>
      if is_digit c then
        match digits_value (firstn 4 cs) with
        | Some y => parse_month_day y (skipn 4 cs)
        | None => None
        end
      else if Ascii.eqb c "+" || Ascii.eqb c "-" then
        match digits_value (firstn 6 r) with
        | Some y =>
            if Ascii.eqb c "-" && (y =? 0) then None
            else parse_month_day (if Ascii.eqb c "-" then - y else y)
                                 (skipn 6 r)
        | None => None
        end
      else None
  end.

Section Dates.

Variable host : Host.

(** [Date.parse(s)]; [None] is [NaN]. *)
Definition Date_parse (s : string) : option Z :=
  match parse_iso_date s with
  | Some t => TimeClip t
  | None =>
      match host_Date_parse host s with
      | Some t => TimeClip t
      | None => None
      end
  end.

End Dates.

Definition pad2 (n : Z) : string :=
  String (digit_char (n / 10)) (str1 (digit_char n)).

Definition pad3 (n : Z) : string :=
  String (digit_char (n / 100)) (pad2 n).

Definition pad4 (n : Z) : string :=
  String (digit_char (n / 1000)) (pad3 n).

Definition pad6 (n : Z) : string :=
  String (digit_char (n / 100000)) (String (digit_char (n / 10000)) (pad4 n)).

Definition iso_year (y : Z) : string :=
  if (0 <=? y) && (y <=? 9999) then pad4 y
  else if y <? 0 then String "-" (pad6 (- y))
  else String "+" (pad6 y).

(** [d.toISOString()] of a valid date. *)
Definition toISOString (t : Z) : string :=
  let '(y, m, d) := civil_from_days (t / msPerDay) in
  let ms := t mod msPerDay in
  (iso_year y ++ "-" ++ pad2 m ++ "-" ++ pad2 d ++ "T"
   ++ pad2 (ms / 3600000) ++ ":" ++ pad2 (ms / 60000 mod 60) ++ ":"
   ++ pad2 (ms / 1000 mod 60) ++ "." ++ pad3 (ms mod 1000) ++ "Z")%string.

(** [s.split(c)[0]]: the part of [s] before the first [c]. *)
Fixpoint split_head (c : ascii) (s : string) : string :=
  match s with
  | EmptyString => EmptyString
  | String d r => if Ascii.eqb c d then EmptyString else String d (split_head c r)
  end.

Local Close Scope Z_scope.

(** ** [Set]: elements in insertion order, compared with SameValueZero *)

Section Sets.

Context {A : Type}.
Variable same : A -> A -> bool.

Definition Set_has (s : list A) (x : A) : bool := existsb (same x) s.

Definition Set_add (s : list A) (x : A) : list A :=
  if Set_has s x then s else s ++ [x].

(** [new Set(values)] *)
Definition Set_of (l : list A) : list A := fold_left Set_add l [].

End Sets.

(** ** Rows and columns *)

Definition DataRow : Type := JsObject value.

(** [row[column]] *)
Definition row_get (row : DataRow) (column : string) : value :=
  match obj_get column row with
  | Some v => v
  | None => VUndefined
  end.

Definition is_number (v : value) : bool := String.eqb (typeof v) "number".
Definition is_string (v : value) : bool := String.eqb (typeof v) "string".

(** A sequence of cells known to be numbers, read as [number[]]. *)
Fixpoint as_numbers (l : list value) : list Q :=
  match l with
  | [] => []
  | VNumber q :: r => q :: as_numbers r
  | _ :: r => as_numbers r
  end.

Definition Qlt_bool (x y : Q) : bool := negb (Qle_bool y x).

(** [x || 0] for an array read. *)
Definition or_zero (o : option Q) : Q :=
  match o with
  | Some x => if Qeq_bool x 0 then 0%Q else x
  | None => 0%Q
  end.

Definition Qsum (l : list Q) : Q := fold_left Qplus l 0%Q.

(** [Math.min(...l)] and [Math.max(...l)] of a non-empty sequence. *)
Definition Math_min (l : list Q) : Q :=
  match l with
  | [] => 0%Q
  | x :: r => fold_left (fun m y => if Qlt_bool y m then y else m) r x
  end.

Definition Math_max (l : list Q) : Q :=
  match l with
  | [] => 0%Q
  | x :: r => fold_left (fun m y => if Qlt_bool m y then y else m) r x
  end.

(** [Math.floor(n * 0.25)] and [Math.floor(n * 0.75)] for a length [n]:
    both products are exact in double arithmetic. *)
Definition floor_quarter (n : nat) : nat := n / 4.
Definition floor_three_quarters (n : nat) : nat := (3 * n) / 4.

(** ** Stats utilities (dataService.ts, lines 60-98) *)

(** [[...values].sort((a, b) => a - b)] *)
Definition num_sort (values : list Q) : list Q :=
  Array_sort (fun a b => a - b)%Q values.

(** [getMedian], lines 62-67. *)
Definition getMedian (values : list Q) : Q :=
  if (List.length values =? 0)%nat then 0%Q
  else
    let sorted := num_sort values in
    let mid := (List.length sorted / 2)%nat in
    if negb (List.length sorted mod 2 =? 0)%nat then nth mid sorted 0%Q
    else ((nth (mid - 1) sorted 0 + nth mid sorted 0) / 2)%Q.

(** [getOutlierCount], lines 93-98. *)
Definition getOutlierCount (values : list Q) (q1 q3 : Q) : nat :=
  let iqr := (q3 - q1)%Q in
  let lowerBound := (q1 - (3 # 2) * iqr)%Q in
  let upperBound := (q3 + (3 # 2) * iqr)%Q in
  List.length
    (filter (fun v => Qlt_bool v lowerBound || Qlt_bool upperBound v) values).

Section Engine.

Variable host : Host.

(** [getStandardDeviation], lines 85-90. *)
Definition getStandardDeviation (values : list Q) (mean : Q) : Q :=
  if (List.length values =? 0)%nat then 0%Q
  else
    let squareDiffs := map (fun value => Qpower (value - mean) 2) values in
    let avgSquareDiff :=
      (Qsum squareDiffs / inject_Z (Z.of_nat (List.length values)))%Q in
    host_sqrt host avgSquareDiff.

(** State of the [forEach] loop of [getMode]: the [counts] object and
    [maxFreq]. *)
Definition mode_step (st : JsObject nat * nat) (v : value)
  : JsObject nat * nat :=
  let '(counts, maxFreq) := st in
  let key := String_ host v in
  let n := (match obj_get key counts with Some c => c | None => 0 end + 1)%nat in
  let counts' := obj_set key n counts in
  (counts', if (maxFreq <? n)%nat then n else maxFreq).

(** [!isNaN(Number(k)) ? Number(k) : k] *)
Definition mode_value (k : string) : value :=
  match Number_ host k with
  | Some q => VNumber q
  | None => VString k
  end.

(** [getMode], lines 69-83. *)
Definition getMode (values : list value) : list value :=
  if (List.length values =? 0)%nat then []
  else
    let '(counts, maxFreq) := fold_left mode_step values ([], 0%nat) in
    firstn 3
      (map mode_value
         (filter
            (fun k => match obj_get k counts with
                      | Some c => (c =? maxFreq)%nat
                      | None => false
                      end)
            (Object_keys counts))).

End Engine.

(** ** Per-column statistics: [calculateColumnStats], lines 100-149 *)

Record Quartiles : Type := {
  q1 : Q;
  q2 : Q;
  q3 : Q
}.

(** [number | string] *)
Inductive num_or_str : Type :=
| Num (q : Q)
| Str (s : string).

(** [ColumnStats] of types.ts; an optional field is an [option]. *)
Record ColumnStats : Type := {
  cs_type : string;
  cs_count : nat;
  cs_unique : nat;
  cs_missing : nat;
  cs_mean : option Q;
  cs_median : option Q;
  cs_min : option num_or_str;
  cs_max : option num_or_str;
  cs_stdDev : option Q;
  cs_quartiles : option Quartiles
}.

(** [data.map(row => row[column])] *)
Definition column_values (data : list DataRow) (column : string) : list value :=
  map (fun row => row_get row column) data.

Section ColumnStatistics.

Variable host : Host.

Definition calculateColumnStats (data : list DataRow) (column : string)
  : ColumnStats :=
  let values := column_values data column in
  let nonNullValues := filter nonMissing values in
  let count := List.length values in
  let missing := (count - List.length nonNullValues)%nat in
  let unique := List.length (Set_of strict_eq values) in
  let isNumeric :=
    (0 <? List.length nonNullValues)%nat && forallb is_number nonNullValues in
  if isNumeric then
    let numericValues := as_numbers nonNullValues in
    let sum := Qsum numericValues in
    let nonEmpty := (0 <? List.length numericValues)%nat in
    let mean :=
      if nonEmpty
      then (sum / inject_Z (Z.of_nat (List.length numericValues)))%Q
      else 0%Q in
    let min := if nonEmpty then Math_min numericValues else 0%Q in
    let max := if nonEmpty then Math_max numericValues else 0%Q in
    let median := getMedian numericValues in
    let stdDev := getStandardDeviation host numericValues mean in
    let sorted := num_sort numericValues in
    let q1 := or_zero (nth_error sorted (floor_quarter (List.length sorted))) in
    let q2 := median in
    let q3 :=
      or_zero (nth_error sorted (floor_three_quarters (List.length sorted))) in
    {| cs_type := "Numeric";
       cs_count := count;
       cs_unique := unique;
       cs_missing := missing;
       cs_mean := Some mean;
       cs_median := Some median;
       cs_min := Some (Num min);
       cs_max := Some (Num max);
       cs_stdDev := Some stdDev;
       cs_quartiles := Some {| q1 := q1; q2 := q2; q3 := q3 |} |}
  else
    let stringValues := map (String_ host) nonNullValues in
    (* [stringValues.sort()] sorts in place and returns the array *)
    let stringValues1 := Array_sort_default stringValues in
    let min :=
      if (0 <? List.length stringValues)%nat
      then nth_error stringValues1 0 else None in
    let stringValues2 :=
      if (0 <? List.length stringValues1)%nat
      then Array_sort_default stringValues1 else stringValues1 in
    let max :=
      if (0 <? List.length stringValues1)%nat
      then nth_error stringValues2 (List.length stringValues2 - 1) else None in
    {| cs_type := "Categorical";
       cs_count := count;
       cs_unique := unique;
       cs_missing := missing;
       cs_mean := None;
       cs_median := None;
       cs_min := option_map Str min;
       cs_max := option_map Str max;
       cs_stdDev := None;
       cs_quartiles := None |}.

End ColumnStatistics.

(** ** Whole-table analysis: [generateGlobalAnalysis], lines 182-304 *)

Record NumericStats : Type := {
  ns_mean : Q;
  ns_median : Q;
  ns_mode : list value;
  ns_min : Q;
  ns_max : Q;
  ns_stdDev : Q;
  ns_outliers : nat
}.

Record DateStats : Type := {
  ds_min : string;
  ds_max : string;
  ds_invalidCount : nat
}.

Record ColumnAnalysis : Type := {
  ca_name : string;
  ca_missing : nat;
  ca_unique : nat;
  ca_type : string;
  ca_issues : list string;
  ca_numericStats : option NumericStats;
  ca_dateStats : option DateStats
}.

Record GlobalAnalysisReport : Type := {
  totalRows : nat;
  totalCols : nat;
  duplicateRows : nat;
  columns : JsObject ColumnAnalysis
}.

Section GlobalAnalysis.

Variable host : Host.

(** Body of [data.forEach(row => ...)] over [(seenRows, duplicateRows)],
    lines 187-196. *)
Definition duplicate_step (st : list string * nat) (row : DataRow)
  : list string * nat :=
  let '(seenRows, duplicateRows) := st in
  let rowStr := JSON_stringify host row in
  if Set_has String.eqb seenRows rowStr then (seenRows, S duplicateRows)
  else (Set_add String.eqb seenRows rowStr, duplicateRows).

Definition countDuplicateRows (data : list DataRow) : nat :=
  snd (fold_left duplicate_step data ([], 0%nat)).

(** The filter predicate of [dateCount]. *)
Definition looks_like_date (v : value) : bool :=
  match v with
  | VString s =>
      (match Date_parse host s with Some _ => true | None => false end)
      && (includes "-" s || includes "/" s)
  | _ => false
  end.

(** "Type Detection Heuristic", lines 212-231: the type tag and the
    issues it seeds.
    [dateCount > nonNull.length * 0.8] is decided on integers: the
    product is the exact double whenever it is an integer, and is
    otherwise at least 0.2 away from every integer. *)
Definition detectType (nonNull : list value) : string * list string :=
  let numCount := List.length (filter is_number nonNull) in
  let strCount := List.length (filter is_string nonNull) in
  let dateCount := List.length (filter looks_like_date nonNull) in
  if (0 <? numCount)%nat && (strCount =? 0)%nat then ("Numeric", [])
  else if (4 * List.length nonNull <? 5 * dateCount)%nat then
    ("Date",
     if (dateCount <? List.length nonNull)%nat
     then ["Invalid Date Formats Detected"] else [])
  else if (0 <? numCount)%nat && (0 <? strCount)%nat then
    ("Mixed", ["Mixed Data Types (Numbers & Text)"])
  else ("Categorical", []).

(** "Calculate Specific Stats", numeric branch, lines 234-264: the
    issues after the branch and [numericStats]. *)
Definition numericBranch (type : string) (nonNull : list value)
  (issues : list string) : list string * option NumericStats :=
  let numCount := List.length (filter is_number nonNull) in
  if String.eqb type "Numeric"
     || (String.eqb type "Mixed" && (0 <? numCount)%nat) then
    let numericValues := as_numbers (filter is_number nonNull) in
    if (0 <? List.length numericValues)%nat then
      let sum := Qsum numericValues in
      let mean := (sum / inject_Z (Z.of_nat (List.length numericValues)))%Q in
      let min := Math_min numericValues in
      let max := Math_max numericValues in
      let median := getMedian numericValues in
      let stdDev := getStandardDeviation host numericValues mean in
      let sorted := num_sort numericValues in
      let q1 := or_zero (nth_error sorted (floor_quarter (List.length sorted))) in
      let q3 :=
        or_zero (nth_error sorted (floor_three_quarters (List.length sorted))) in
      let outliers := getOutlierCount numericValues q1 q3 in
      let issues' :=
        if (0 <? outliers)%nat
        then issues ++ [("Potential Outliers (" ++ string_of_nat outliers ++ ")")%string]
        else issues in
      (issues',
       Some {| ns_mean := mean;
               ns_median := median;
               ns_mode := getMode host (map VNumber numericValues);
               ns_min := min;
               ns_max := max;
               ns_stdDev := stdDev;
               ns_outliers := outliers |})
    else (issues, None)
  else (issues, None).

(** [nonNull.map(v => new Date(String(v))).filter(d => !isNaN(d.getTime()))
    .sort((a, b) => a.getTime() - b.getTime())]: the time values of the
    valid dates, ascending. *)
Definition dateValuesOf (nonNull : list value) : list Z :=
  Array_sort (fun a b => inject_Z (a - b))
    (somes (map (fun v => Date_parse host (String_ host v)) nonNull)).

(** "Calculate Specific Stats", date branch, lines 266-279. *)
Definition dateBranch (type : string) (nonNull : list value)
  : option DateStats :=
  if String.eqb type "Date" then
    let dateValues := dateValuesOf nonNull in
    match dateValues with
    | [] => None
    | first :: _ =>
        Some {| ds_min := split_head "T" (toISOString first);
                ds_max := split_head "T" (toISOString (last dateValues first));
                ds_invalidCount :=
                  (List.length nonNull - List.length dateValues)%nat |}
    end
  else None.

(** Body of [columns.forEach(col => ...)], lines 201-296: the report
    stored at [colReports[col]]. *)
Definition analyzeColumn (data : list DataRow) (col : string) : ColumnAnalysis :=
  let values := column_values data col in
  let nonNull := filter nonMissing values in
  let missing := (List.length values - List.length nonNull)%nat in
  let unique := List.length (Set_of strict_eq values) in
  let '(type, issues) := detectType nonNull in
  let '(issues', numericStats) := numericBranch type nonNull issues in
  let dateStats := dateBranch type nonNull in
  {| ca_name := col;
     ca_missing := missing;
     ca_unique := unique;
     ca_type := type;
     ca_issues := issues';
     ca_numericStats := numericStats;
     ca_dateStats := dateStats |}.

Definition generateGlobalAnalysis (data : list DataRow) (columns : list string)
  : GlobalAnalysisReport :=
  let totalRows := List.length data in
  let totalCols := List.length columns in
  let duplicateRows := countDuplicateRows data in
  let colReports :=
    fold_left (fun colReports col => obj_set col (analyzeColumn data col) colReports)
              columns [] in
  {| totalRows := totalRows;
     totalCols := totalCols;
     duplicateRows := duplicateRows;
     columns := colReports |}.

End GlobalAnalysis.

(** ** Specification-level notions the properties are stated with *)

(** A cell is missing iff it is null, undefined or the empty string. *)
Definition missing_cell (v : value) : Prop :=
  v = VNull \/ v = VUndefined \/ v = VString "".

(** [d] exceeds 0.8 times [n]. *)
Definition exceeds_80_percent (d n : nat) : Prop :=
  ((8 # 10) * inject_Z (Z.of_nat n) < inject_Z (Z.of_nat d))%Q.

(** The precedence of type inference, over the counts of numbers, of text
    values, of date-like text values and of all non-missing values. *)
Inductive type_precedence (numCount strCount dateCount n : nat)
  : string * list string -> Prop :=
| TP_Numeric :
    (0 < numCount)%nat -> strCount = 0%nat ->
    type_precedence numCount strCount dateCount n ("Numeric", [])
| TP_Date_clean :
    ~ ((0 < numCount)%nat /\ strCount = 0%nat) ->
    exceeds_80_percent dateCount n ->
    ~ (dateCount < n)%nat ->
    type_precedence numCount strCount dateCount n ("Date", [])
| TP_Date_invalid :
    ~ ((0 < numCount)%nat /\ strCount = 0%nat) ->
    exceeds_80_percent dateCount n ->
    (dateCount < n)%nat ->
    type_precedence numCount strCount dateCount n
      ("Date", ["Invalid Date Formats Detected"])
| TP_Mixed :
    ~ ((0 < numCount)%nat /\ strCount = 0%nat) ->
    ~ exceeds_80_percent dateCount n ->
    (0 < numCount)%nat -> (0 < strCount)%nat ->
    type_precedence numCount strCount dateCount n
      ("Mixed", ["Mixed Data Types (Numbers & Text)"])
| TP_Categorical :
    ~ ((0 < numCount)%nat /\ strCount = 0%nat) ->
    ~ exceeds_80_percent dateCount n ->
    ~ ((0 < numCount)%nat /\ (0 < strCount)%nat) ->
    type_precedence numCount strCount dateCount n ("Categorical", []).

(** Number of cells satisfying a property. *)
Definition count_where {A : Type} (p : A -> bool) (l : list A) : nat :=
  List.length (filter p l).

(** A text value that parses as a date and contains [-] or [/]. *)
Definition date_like (host : Host) (v : value) : bool :=
  match v with
  | VString s =>
      match Date_parse host s with
      | Some _ => includes "-" s || includes "/" s
      | None => false
      end
  | _ => false
  end.

Definition is_number_cell (v : value) : bool :=
  match v with VNumber _ => true | _ => false end.

Definition is_text_cell (v : value) : bool :=
  match v with VString _ => true | _ => false end.

(** The non-missing cells of a column. *)
Definition nonMissingValues (data : list DataRow) (col : string) : list value :=
  filter nonMissing (column_values data col).

Definition N_ (z : Z) : value := VNumber (inject_Z z).

(** A table with the single column [name] holding [cells]. *)
Definition single_column (name : string) (cells : list value) : list DataRow :=
  map (fun v => [(name, v)]) cells.

(** Number of distinct cells of a sequence: a cell counts when no later
    cell is the same value. *)
Fixpoint distinct_by {A : Type} (same : A -> A -> bool) (l : list A) : nat :=
  match l with
  | [] => 0
  | x :: r => (if existsb (same x) r then 0 else 1) + distinct_by same r
  end.

Definition distinct_count (l : list value) : nat := distinct_by strict_eq l.


(** A host whose [Date.parse] knows the date-only ISO forms alone and
    whose [Number] knows decimal integers alone; the concrete evaluations
    below use integers and ISO dates, which no host treats otherwise. *)
Definition default_host : Host :=
  {| host_Date_parse := fun _ => None;
     host_Number_toString := fun _ => "NaN";
     host_StringToNumber := fun _ => None;
     host_sqrt := fun q => q |}.

(** [m] is the least / greatest element of [l] in code-unit order. *)
Definition lexicographic_min (l : list string) (m : string) : Prop :=
  In m l /\ Forall (fun s => String.leb m s = true) l.

Definition lexicographic_max (l : list string) (m : string) : Prop :=
  In m l /\ Forall (fun s => String.leb s m = true) l.

(** Every cell of the sequence is a number. *)
Definition all_numbers (l : list value) : Prop :=
  Forall (fun v => exists q, v = VNumber q) l.

(** The numeric non-missing cells of a column. *)
Definition numericValuesOf (data : list DataRow) (col : string) : list Q :=
  as_numbers (nonMissingValues data col).

(** Element at a rank of the ascending values, 0 when out of range. *)
Definition nearest_rank (sorted : list Q) (i : nat) : Q :=
  match nth_error sorted i with
  | Some x => x
  | None => 0%Q
  end.

(** [v] lies strictly outside [q1 - 1.5 IQR, q3 + 1.5 IQR]. *)
Definition strictly_outside (q1 q3 v : Q) : Prop :=
  (v < q1 - (3 # 2) * (q3 - q1) \/ q3 + (3 # 2) * (q3 - q1) < v)%Q.

Definition is_outlier (q1 q3 v : Q) : bool :=
  Qlt_bool v (q1 - (3 # 2) * (q3 - q1))
  || Qlt_bool (q3 + (3 # 2) * (q3 - q1)) v.

(** Outlier count by the nearest-rank IQR rule. *)
Definition outlier_count_rule (nums : list Q) : nat :=
  let sorted := num_sort nums in
  let n := List.length sorted in
  let q1 := nearest_rank sorted (n / 4) in
  let q3 := nearest_rank sorted (3 * n / 4) in
  count_where (is_outlier q1 q3) nums.

Definition outlier_issue (count : nat) : string :=
  ("Potential Outliers (" ++ string_of_nat count ++ ")")%string.


(** *** The mode, in the words of the specification *)

Section ModeSpec.

Variable host : Host.

(** Number of values whose string representation is [k]. *)
Definition frequency (values : list value) (k : string) : nat :=
  count_where (fun v => String.eqb (String_ host v) k) values.

(** The distinct string representations, in first-encountered order. *)
Definition mode_keys (values : list value) : list string :=
  Set_of String.eqb (map (String_ host) values).

Definition max_frequency (values : list value) : nat :=
  list_max (map (frequency values) (mode_keys values)).

Definition attains_max (values : list value) (k : string) : bool :=
  (frequency values k =? max_frequency values)%nat.

(** Up to the first three keys of [keys] attaining the maximum frequency,
    each converted back to a number when it parses as one. *)
Definition modes_in_order (values : list value) (keys : list string)
  : list value :=
  firstn 3 (map (mode_value host) (filter (attains_max values) keys)).


(** Ties in the own-property order of the grouping object. *)
Definition mode_in_key_order (values : list value) : list value :=
  modes_in_order values (own_keys (mode_keys values)).

End ModeSpec.

(** Invariant of the [forEach] loop of [getMode] after the values [p]. *)
Definition mode_inv (host : Host) (p : list value) (st : JsObject nat * nat)
  : Prop :=
  map fst (fst st) = mode_keys host p
  /\ (forall k, obj_get k (fst st)
                = if (frequency host p k =? 0)%nat then None
                  else Some (frequency host p k))
  /\ (forall k, (frequency host p k <= snd st)%nat)
  /\ ((p = [] /\ snd st = 0%nat)
      \/ exists k, frequency host p k = snd st /\ (0 < snd st)%nat).

(** *** Duplicate rows, in the words of the specification *)

(** Number of elements of [l] that match an element before them, [seen]
    being the elements already scanned. *)
Fixpoint repeats {A : Type} (same : A -> A -> bool) (seen l : list A) : nat :=
  match l with
  | [] => 0
  | x :: r =>
      ((if existsb (same x) seen then 1 else 0)
       + repeats same (seen ++ [x]) r)%nat
  end.

Definition same_cell (a b : option value) : bool :=
  match a, b with
  | Some x, Some y => strict_eq x y
  | None, None => true
  | _, _ => false
  end.

(** Two rows have the same structural content: the same keys, mapped to
    the same values, whatever the order the keys were created in. *)
Definition same_content (r1 r2 : DataRow) : bool :=
  forallb (fun k => same_cell (obj_get k r1) (obj_get k r2))
          (map fst r1 ++ map fst r2).

(** Two rows have the same JSON text. *)
Definition same_json (host : Host) (r1 r2 : DataRow) : bool :=
  String.eqb (JSON_stringify host r1) (JSON_stringify host r2).

(** *** Date statistics, in the words of the specification *)

(** The time values of the cells that convert to a date. *)
Definition parsed_times (host : Host) (nonNull : list value) : list Z :=
  somes (map (fun v => Date_parse host (String_ host v)) nonNull).

(** UTC calendar year of a time value. *)
Definition utc_year (t : Z) : Z :=
  fst (fst (civil_from_days (t / msPerDay))).

(** The UTC calendar date of a time value, without time component:
    [YYYY-MM-DD], the year in its expanded form outside 0..9999. *)
Definition iso_date (t : Z) : string :=
  let '(y, m, d) := civil_from_days (t / msPerDay) in
  (iso_year y ++ "-" ++ pad2 m ++ "-" ++ pad2 d)%string.

(** The shape [YYYY-MM-DD]: four digits, two digits, two digits. *)
Definition is_YYYY_MM_DD (s : string) : bool :=
  match list_ascii_of_string s with
  | [y1; y2; y3; y4; s1; m1; m2; s2; d1; d2] =>
      is_digit y1 && is_digit y2 && is_digit y3 && is_digit y4
      && Ascii.eqb s1 "-" && is_digit m1 && is_digit m2
      && Ascii.eqb s2 "-" && is_digit d1 && is_digit d2
  | _ => false
  end.

(** ** The analysis as a program over a store of arrays

    [Array.prototype.sort] and [push] change their receiver in place, and
    arrays are passed by reference.  Here every array lives in a store and
    is named by its location; [map], [filter], the spread [[...a]],
    [Object.keys] and [slice] allocate a new array, [sort] and [push]
    overwrite the receiver.  Objects used by a single owner ([seenRows],
    [counts], [colReports], the report records) are threaded as values. *)

Module Imp.

(** What an array can hold: a row object, a cell (number, string, null,
    undefined) or a [Date] object ([None] for an invalid date). *)
Inductive elem : Type :=
| ERow (r : DataRow)
| ECell (v : value)
| EDate (d : option Z).

Class Elem (A : Type) : Type := {
  inj : A -> elem;
  proj : elem -> A;
  proj_inj : forall x : A, proj (inj x) = x
}.

#[global] Instance Elem_row : Elem DataRow :=
  {| inj := ERow;
     proj := fun e => match e with ERow r => r | _ => [] end;
     proj_inj := fun _ => eq_refl |}.

#[global] Instance Elem_value : Elem value :=
  {| inj := ECell;
     proj := fun e => match e with ECell v => v | _ => VUndefined end;
     proj_inj := fun _ => eq_refl |}.

(** [number[]]: cells known to be numbers. *)
#[global] Instance Elem_number : Elem Q :=
  {| inj := fun q => ECell (VNumber q);
     proj := fun e => match e with ECell (VNumber q) => q | _ => 0%Q end;
     proj_inj := fun _ => eq_refl |}.

(** [string[]] *)
#[global] Instance Elem_string : Elem string :=
  {| inj := fun s => ECell (VString s);
     proj := fun e => match e with ECell (VString s) => s | _ => "" end;
     proj_inj := fun _ => eq_refl |}.

(** [Date[]] *)
#[global] Instance Elem_date : Elem (option Z) :=
  {| inj := EDate;
     proj := fun e => match e with EDate d => d | _ => None end;
     proj_inj := fun _ => eq_refl |}.

(** Valid [Date] objects, by their time value. *)
#[global] Instance Elem_time : Elem Z :=
  {| inj := fun t => EDate (Some t);
     proj := fun e => match e with EDate (Some t) => t | _ => 0%Z end;
     proj_inj := fun _ => eq_refl |}.

(** The store: the arrays allocated so far, by location. *)
Definition Store : Type := list (list elem).

(** Reference to an array whose elements are read at type [A]. *)
Definition arr (A : Type) : Type := nat.

(** A TypeScript [as] cast: the same array at another element type. *)
Definition cast {A B : Type} (a : arr A) : arr B := a.

(** Computations over the store. *)
Definition M (A : Type) : Type := Store -> A * Store.

Definition ret {A : Type} (x : A) : M A := fun s => (x, s).

Definition bind {A B : Type} (c : M A) (k : A -> M B) : M B :=
  fun s => let '(x, s') := c s in k x s'.

Definition run {A : Type} (c : M A) (s : Store) : A * Store := c s.

Declare Scope imp_scope.
Delimit Scope imp_scope with imp.
Notation "x <- c ;; k" := (bind c (fun x => k))
  (at level 61, c at next level, right associativity) : imp_scope.
Notation "c ;;; k" := (bind c (fun _ => k))
  (at level 61, right associativity) : imp_scope.
Local Open Scope imp_scope.

Fixpoint list_update {X : Type} (k : nat) (x : X) (l : list X) : list X :=
  match l, k with
  | [], _ => []
  | _ :: r, O => x :: r
  | y :: r, S k' => y :: list_update k' x r
  end.

Section Primitives.

Context {A : Type} `{Elem A}.

(** A new array with the elements [l]. *)
Definition new_array (l : list A) : M (arr A) :=
  fun s => (List.length s, s ++ [map inj l]).

(** The current elements of [a]. *)
Definition contents (a : arr A) : M (list A) :=
  fun s => (map proj (nth a s []), s).

(** Overwrite the elements of [a]. *)
Definition assign (a : arr A) (l : list A) : M unit :=
  fun s => (tt, list_update a (map inj l) s).

(** [a.length] *)
Definition arr_length (a : arr A) : M nat :=
  l <- contents a ;; ret (List.length l).

(** [a[i]] *)
Definition arr_get (a : arr A) (i : nat) : M (option A) :=
  l <- contents a ;; ret (nth_error l i).

(** [[...a]] *)
Definition arr_copy (a : arr A) : M (arr A) :=
  l <- contents a ;; new_array l.

(** [a.filter(p)] *)
Definition arr_filter (p : A -> bool) (a : arr A) : M (arr A) :=
  l <- contents a ;; new_array (filter p l).

(** [a.slice(0, n)] *)
Definition arr_slice (n : nat) (a : arr A) : M (arr A) :=
  l <- contents a ;; new_array (firstn n l).

(** [a.sort(cmp)]: sorts [a] in place and returns it. *)
Definition arr_sort (cmp : A -> A -> Q) (a : arr A) : M (arr A) :=
  l <- contents a ;; assign a (Array_sort cmp l) ;;; ret a.

(** [a.push(x)] *)
Definition arr_push (a : arr A) (x : A) : M unit :=
  l <- contents a ;; assign a (l ++ [x]).

(** [a.reduce(f, init)] with a callback free of effects. *)
Definition arr_reduce {B : Type} (f : B -> A -> B) (init : B) (a : arr A)
  : M B :=
  l <- contents a ;; ret (fold_left f l init).

(** [a.forEach(f)], the callback updating the variables [st] it
    captures: the length is read once, each element when its turn
    comes. *)
Fixpoint forEach_from {S : Type} (f : S -> A -> M S) (a : arr A)
  (i n : nat) (st : S) : M S :=
  match n with
  | O => ret st
  | Datatypes.S n' =>
      x <- arr_get a i ;;
      st' <- match x with
             | Some e => f st e
             | None => ret st
             end ;;
      forEach_from f a (Datatypes.S i) n' st'
  end.

Definition arr_forEach {S : Type} (f : S -> A -> M S) (a : arr A) (st : S)
  : M S :=
  n <- arr_length a ;; forEach_from f a 0 n st.

End Primitives.

(** [a.map(f)] *)
Definition arr_map {A B : Type} `{Elem A} `{Elem B} (f : A -> B) (a : arr A)
  : M (arr B) :=
  l <- contents a ;; new_array (map f l).

(** An element read from an array of numbers, of dates. *)
Definition number_at (x : option Q) : Q :=
  match x with Some q => q | None => 0%Q end.

Definition time_at (x : option Z) : Z :=
  match x with Some t => t | None => 0%Z end.

Section Program.

Variable host : Host.

Definition getMedian (values : arr Q) : M Q :=
  n <- arr_length values ;;
  if (n =? 0)%nat then ret 0%Q
  else
    copy <- arr_copy values ;;
    sorted <- arr_sort (fun a b => a - b)%Q copy ;;
    len <- arr_length sorted ;;
    let mid := (len / 2)%nat in
    xm <- arr_get sorted mid ;;
    xp <- arr_get sorted (mid - 1) ;;
    ret (if negb (len mod 2 =? 0)%nat then number_at xm
         else ((number_at xp + number_at xm) / 2)%Q).

Definition getMode (values : arr value) : M (arr value) :=
  n <- arr_length values ;;
  if (n =? 0)%nat then new_array []
  else
    st <- arr_forEach (fun st v => ret (mode_step host st v)) values
            ([], 0%nat) ;;
    let '(counts, maxFreq) := st in
    keys <- new_array (Object_keys counts) ;;
    tied <- arr_filter
              (fun k => match obj_get k counts with
                        | Some c => (c =? maxFreq)%nat
                        | None => false
                        end)
              keys ;;
    converted <- arr_map (mode_value host) tied ;;
    arr_slice 3 converted.

Definition getStandardDeviation (values : arr Q) (mean : Q) : M Q :=
  n <- arr_length values ;;
  if (n =? 0)%nat then ret 0%Q
  else
    squareDiffs <- arr_map (fun value => Qpower (value - mean) 2) values ;;
    total <- arr_reduce Qplus 0%Q squareDiffs ;;
    len <- arr_length values ;;
    ret (host_sqrt host (total / inject_Z (Z.of_nat len))%Q).

Definition getOutlierCount (values : arr Q) (q1 q3 : Q) : M nat :=
  let iqr := (q3 - q1)%Q in
  let lowerBound := (q1 - (3 # 2) * iqr)%Q in
  let upperBound := (q3 + (3 # 2) * iqr)%Q in
  outside <- arr_filter
               (fun v => Qlt_bool v lowerBound || Qlt_bool upperBound v)
               values ;;
  arr_length outside.

(** "Type Detection Heuristic" and the issues it pushes. *)
Definition detectType (nonNull : arr value) (issues : arr string)
  : M (string * nat) :=
  numbers <- arr_filter is_number nonNull ;;
  numCount <- arr_length numbers ;;
  strings <- arr_filter is_string nonNull ;;
  strCount <- arr_length strings ;;
  dates <- arr_filter (looks_like_date host) nonNull ;;
  dateCount <- arr_length dates ;;
  len <- arr_length nonNull ;;
  if (0 <? numCount)%nat && (strCount =? 0)%nat then ret ("Numeric", numCount)
  else if (4 * len <? 5 * dateCount)%nat then
    len' <- arr_length nonNull ;;
    (if (dateCount <? len')%nat
     then arr_push issues "Invalid Date Formats Detected"
     else ret tt) ;;;
    ret ("Date", numCount)
  else if (0 <? numCount)%nat && (0 <? strCount)%nat then
    arr_push issues "Mixed Data Types (Numbers & Text)" ;;;
    ret ("Mixed", numCount)
  else ret ("Categorical", numCount).

(** "Calculate Specific Stats", numeric branch. *)
Definition numericBranch (type : string) (numCount : nat)
  (nonNull : arr value) (issues : arr string) : M (option NumericStats) :=
  if String.eqb type "Numeric"
     || (String.eqb type "Mixed" && (0 <? numCount)%nat) then
    filtered <- arr_filter is_number nonNull ;;
    let numericValues : arr Q := cast filtered in
    n <- arr_length numericValues ;;
    if (0 <? n)%nat then
      sum <- arr_reduce Qplus 0%Q numericValues ;;
      len <- arr_length numericValues ;;
      let mean := (sum / inject_Z (Z.of_nat len))%Q in
      spread <- contents numericValues ;;
      let min := Math_min spread in
      spread' <- contents numericValues ;;
      let max := Math_max spread' in
      median <- getMedian numericValues ;;
      stdDev <- getStandardDeviation numericValues mean ;;
      copy <- arr_copy numericValues ;;
      sorted <- arr_sort (fun a b => a - b)%Q copy ;;
      len1 <- arr_length sorted ;;
      x1 <- arr_get sorted (floor_quarter len1) ;;
      len3 <- arr_length sorted ;;
      x3 <- arr_get sorted (floor_three_quarters len3) ;;
      let q1 := or_zero x1 in
      let q3 := or_zero x3 in
      outliers <- getOutlierCount numericValues q1 q3 ;;
      (if (0 <? outliers)%nat
       then arr_push issues
              ("Potential Outliers (" ++ string_of_nat outliers ++ ")")%string
       else ret tt) ;;;
      mode <- getMode (cast numericValues) ;;
      modeValues <- contents mode ;;
      ret (Some {| ns_mean := mean;
                   ns_median := median;
                   ns_mode := modeValues;
                   ns_min := min;
                   ns_max := max;
                   ns_stdDev := stdDev;
                   ns_outliers := outliers |})
    else ret None
  else ret None.

(** "Calculate Specific Stats", date branch. *)
Definition dateBranch (type : string) (nonNull : arr value)
  : M (option DateStats) :=
  if String.eqb type "Date" then
    converted <-
      arr_map (fun v => Date_parse host (String_ host v)) nonNull ;;
    valid <-
      arr_filter (fun d => match d with Some _ => true | None => false end)
        converted ;;
    dateValues <-
      arr_sort (fun a b => inject_Z (a - b)) (cast valid : arr Z) ;;
    n <- arr_length dateValues ;;
    if (0 <? n)%nat then
      first <- arr_get dateValues 0 ;;
      len <- arr_length dateValues ;;
      final <- arr_get dateValues (len - 1) ;;
      total <- arr_length nonNull ;;
      len' <- arr_length dateValues ;;
      ret (Some {| ds_min := split_head "T" (toISOString (time_at first));
                   ds_max := split_head "T" (toISOString (time_at final));
                   ds_invalidCount := (total - len')%nat |})
    else ret None
  else ret None.

(** Body of [columns.forEach(col => ...)]. *)
Definition analyzeColumn (data : arr DataRow) (col : string)
  : M ColumnAnalysis :=
  values <- arr_map (fun r => row_get r col) data ;;
  nonNull <- arr_filter nonMissing values ;;
  total <- arr_length values ;;
  kept <- arr_length nonNull ;;
  let missing := (total - kept)%nat in
  elements <- contents values ;;
  let unique := List.length (Set_of strict_eq elements) in
  issues <- new_array ([] : list string) ;;
  detected <- detectType nonNull issues ;;
  let '(type, numCount) := detected in
  numericStats <- numericBranch type numCount nonNull issues ;;
  dateStats <- dateBranch type nonNull ;;
  issueList <- contents issues ;;
  ret {| ca_name := col;
         ca_missing := missing;
         ca_unique := unique;
         ca_type := type;
         ca_issues := issueList;
         ca_numericStats := numericStats;
         ca_dateStats := dateStats |}.

Definition generateGlobalAnalysis (data : arr DataRow) (columns : arr string)
  : M GlobalAnalysisReport :=
  totalRows <- arr_length data ;;
  totalCols <- arr_length columns ;;
  scan <- arr_forEach (fun st row => ret (duplicate_step host st row)) data
            ([], 0%nat) ;;
  let duplicateRows := snd scan in
  colReports <-
    arr_forEach
      (fun colReports col =>
         report <- analyzeColumn data col ;;
         ret (obj_set col report colReports))
      columns [] ;;
  ret {| totalRows := totalRows;
         totalCols := totalCols;
         duplicateRows := duplicateRows;
         columns := colReports |}.

End Program.

End Imp.

(** A run that returns [x] and leaves every array of [h] as it was:
    the final store is [h] followed by the arrays allocated meanwhile. *)
Definition refines {A : Type} (r : A * Imp.Store) (x : A) (h : Imp.Store)
  : Prop :=
  let '(y, s) := r in y = x /\ exists ext, s = h ++ ext.

(** ** CSV import and export: [parseCSV] and [exportToCSV],
    dataService.ts lines 4-58 *)

(** White space and line terminators below 256: what [trim] strips and
    what [\s] matches. *)
Definition is_space (c : ascii) : bool :=
  let n := nat_of_ascii c in
  ((9 <=? n)%nat && (n <=? 13)%nat) || (n =? 32)%nat || (n =? 160)%nat.

(** The characters [.] does not match. *)
Definition is_line_terminator (c : ascii) : bool :=
  let n := nat_of_ascii c in (n =? 10)%nat || (n =? 13)%nat.

Definition newline : ascii := ascii_of_nat 10.

Fixpoint trimStart (s : string) : string :=
  match s with
  | EmptyString => EmptyString
  | String c r => if is_space c then trimStart r else s
  end.

Fixpoint trimEnd (s : string) : string :=
  match s with
  | EmptyString => EmptyString
  | String c r =>
      match trimEnd r with
      | EmptyString => if is_space c then EmptyString else String c EmptyString
      | r' => String c r'
      end
  end.

(** [s.trim()] *)
Definition trim (s : string) : string := trimEnd (trimStart s).

(** [s.split(c)] for a one-character separator: never empty. *)
Fixpoint split_on (c : ascii) (s : string) : list string :=
  match s with
  | EmptyString => [EmptyString]
  | String d r =>
      if Ascii.eqb d c then EmptyString :: split_on c r
      else match split_on c r with
           | h :: t => String d h :: t
           | [] => [String d EmptyString]
           end
  end.

Fixpoint drop_last_quote (s : string) : string :=
  match s with
  | EmptyString => EmptyString
  | String c r =>
      match r with
      | EmptyString => if Ascii.eqb c dquote then EmptyString else s
      | _ => String c (drop_last_quote r)
      end
  end.

(** [s.replace(re, '')] for the global pattern made of a quote at the
    start or a quote at the end: a leading and a trailing double quote
    are removed. *)
Definition strip_quotes (s : string) : string :=
  drop_last_quote
    (match s with
     | String c r => if Ascii.eqb c dquote then r else s
     | EmptyString => EmptyString
     end).

(** The lookahead [(?=\s*,|\s*$)]: after any white space comes a comma or
    the end of the line. *)
Fixpoint field_end (s : string) : bool :=
  match s with
  | EmptyString => true
  | String c r => if is_space c then field_end r else Ascii.eqb c ","
  end.

(** First alternative of the field pattern, a quoted field, after its
    opening quote: the number of characters the lazy [.*?] takes, up to
    the first quote at which the lookahead succeeds. *)
Fixpoint quoted_end (r : string) : option nat :=
  match r with
  | EmptyString => None
  | String c r' =>
      if Ascii.eqb c dquote && field_end r' then Some 0%nat
      else if is_line_terminator c then None
      else option_map S (quoted_end r')
  end.

(** Second alternative, a bare field: one or more characters that are
    neither a quote, nor a comma, nor white space. *)
Definition is_plain (c : ascii) : bool :=
  negb (Ascii.eqb c dquote) && negb (Ascii.eqb c ",") && negb (is_space c).

(** Length of the longest prefix of such characters. *)
Fixpoint plain_run (s : string) : nat :=
  match s with
  | EmptyString => 0
  | String c r => if is_plain c then S (plain_run r) else 0
  end.

Fixpoint string_skip (n : nat) (s : string) : string :=
  match n, s with
  | S k, String _ r => string_skip k r
  | _, _ => s
  end.

(** Length of the match of the field pattern (a quoted field or else a
    bare field, each followed by the lookahead) at the start of [s], if
    any.  A shorter run of the second alternative is followed by a
    character of the run, at which the lookahead fails. *)
Definition match_here (s : string) : option nat :=
  match s with
  | EmptyString => None
  | String c r =>
      if Ascii.eqb c dquote then option_map (fun n => S (S n)) (quoted_end r)
      else
        let n := plain_run s in
        if (0 <? n)%nat && field_end (string_skip n s) then Some n else None
  end.

(** [s.match(/.../g) || []]: the matches from left to right, the search
    resuming where the last match ended; [skip] characters of the last
    match are still to be passed. *)
Fixpoint match_all_from (skip : nat) (s : string) : list string :=
  match s with
  | EmptyString => []
  | String c r =>
      match skip with
      | S k => match_all_from k r
      | O =>
          match match_here s with
          | Some n => substring 0 n s :: match_all_from (n - 1) r
          | None => match_all_from 0 r
          end
      end
  end.

Definition csv_matches (rowStr : string) : list string :=
  match_all_from 0 rowStr.

(** [[x0; x1; ...]] with the index of each element, as [forEach] passes
    them. *)
Fixpoint indexed_from {A : Type} (i : nat) (l : list A) : list (nat * A) :=
  match l with
  | [] => []
  | x :: r => (i, x) :: indexed_from (S i) r
  end.

Record ParsedCSV : Type := {
  csv_data : list DataRow;
  csv_columns : list string
}.

Section Csv.

Variable host : Host.

(** The cell stored for the text [val], lines 24-28. *)
Definition csv_cell (val : string) : value :=
  if negb (String.eqb val "") then
    match Number_ host val with
    | Some q => VNumber q
    | None => VString val
    end
  else VString val.

(** [values[index]], trimmed and without its quotes, or the empty string
    when it is absent or empty. *)
Definition csv_value (values : list string) (index : nat) : string :=
  match nth_error values index with
  | Some v => if String.eqb v "" then "" else strip_quotes (trim v)
  | None => ""
  end.

(** [row[key] = v] for a number or a string [v], on a row that started
    as the empty object literal: an own property is created or
    overwritten, except for the key [__proto__], which reaches the setter
    inherited from [Object.prototype]; the setter ignores a value that is
    not an object, and the row gets no property. *)
Definition is_own_key (key : string) : bool :=
  negb (String.eqb key "__proto__").

Definition row_assign (key : string) (v : value) (row : DataRow) : DataRow :=
  if is_own_key key then obj_set key v row else row.

(** The row built from a non-blank line, lines 16-29. *)
Definition csv_row (headers : list string) (rowStr : string) : DataRow :=
  let matches := csv_matches rowStr in
  let values :=
    if (0 <? List.length matches)%nat then matches else split_on "," rowStr in
  fold_left
    (fun row '(index, header) =>
       row_assign header (csv_cell (csv_value values index)) row)
    (indexed_from 0 headers) [].

(** Body of the [for] loop, lines 11-31, over the [data] array. *)
Definition csv_line (headers : list string) (data : list DataRow)
  (line : string) : list DataRow :=
  let rowStr := trim line in
  if String.eqb rowStr "" then data else data ++ [csv_row headers rowStr].

Definition parseCSV (text : string) : ParsedCSV :=
  let lines := split_on newline (trim text) in
  match lines with
  | [] => {| csv_data := []; csv_columns := [] |}
  | first :: rest =>
      let headers :=
        map (fun h => strip_quotes (trim h)) (split_on "," first) in
      {| csv_data := fold_left (csv_line headers) rest [];
         csv_columns := headers |}
  end.

(** A field of an exported row, lines 40-45. *)
Definition csv_field (row : DataRow) (col : string) : string :=
  let val :=
    match row_get row col with
    | VUndefined => VString ""
    | v => v
    end in
  let strVal := String_ host val in
  if includes "," strVal
  then (str1 dquote ++ strVal ++ str1 dquote)%string else strVal.

(** [csvContent], lines 38-48. *)
Definition csvContent (data : list DataRow) (columns : list string) : string :=
  let headerRow := Array_join "," columns in
  let rows :=
    map (fun row => Array_join "," (map (csv_field row) columns)) data in
  Array_join (str1 newline) (headerRow :: rows).

End Csv.

(** The file [exportToCSV] hands to the browser: the content and type of
    the [Blob] and the [download] attribute of the link that is
    clicked. *)
Record Download : Type := {
  dl_content : string;
  dl_type : string;
  dl_filename : string
}.

(** [exportToCSV], lines 36-58; [None] when it returns without offering a
    file. *)
Definition exportToCSV (host : Host) (data : list DataRow)
  (columns : list string) (filename : string) : option Download :=
  if (List.length data =? 0)%nat then None
  else Some {| dl_content := csvContent host data columns;
               dl_type := "text/csv;charset=utf-8;";
               dl_filename := filename |}.

(** *** Tables that survive an export followed by an import *)

Fixpoint all_chars (p : ascii -> bool) (s : string) : bool :=
  match s with
  | EmptyString => true
  | String c r => p c && all_chars p r
  end.

(** A bare token: not empty, without quote, comma or white space. *)
Definition csv_token (s : string) : bool :=
  negb (String.eqb s "") && all_chars is_plain s.

(** A text with a comma, which is exported between quotes, and with
    neither a quote nor a line terminator. *)
Definition csv_quotable (s : string) : bool :=
  includes "," s
  && all_chars
       (fun c => negb (Ascii.eqb c dquote) && negb (is_line_terminator c)) s.

(** A cell that is read back as it was written: an integer in the safe
    range, or a text of one of the two kinds above that [Number] does not
    take for a number. *)
Definition csv_safe_cell (host : Host) (v : value) : bool :=
  match v with
  | VNumber q =>
      (Zpos (Qden q) =? 1)%Z && (Z.abs (Qnum q) <=? MAX_SAFE_INTEGER)%Z
  | VString s =>
      (csv_token s || csv_quotable s)
      && match Number_ host s with Some _ => false | None => true end
  | _ => false
  end.

(** A field as it is written for the cell [v]. *)
Definition csv_encode (host : Host) (v : value) : string :=
  let strVal := String_ host v in
  if includes "," strVal
  then (str1 dquote ++ strVal ++ str1 dquote)%string else strVal.

(** A written field: a bare token, or a text without quote and line
    terminator between two quotes. *)
Definition csv_written (f : string) : Prop :=
  csv_token f = true
  \/ exists s,
       f = (str1 dquote ++ s ++ str1 dquote)%string
       /\ all_chars
            (fun c => negb (Ascii.eqb c dquote) && negb (is_line_terminator c))
            s = true.

Definition first_char (s : string) : option ascii :=
  match s with
  | EmptyString => None
  | String c _ => Some c
  end.

Fixpoint last_char (s : string) : option ascii :=
  match s with
  | EmptyString => None
  | String c r =>
      match last_char r with
      | Some d => Some d
      | None => Some c
      end
  end.

(** A non-empty string that neither starts nor ends with white space. *)
Definition no_outer_space (s : string) : Prop :=
  exists c d,
    first_char s = Some c /\ last_char s = Some d
    /\ is_space c = false /\ is_space d = false.

(** ** The grid: editing a cell (App.tsx, [handleCellEdit]; Grid.tsx,
    the [onChange] of a cell) *)

(** [{...row}]: the own properties, copied in own-key order. *)
Definition spread (row : DataRow) : DataRow :=
  map (fun k => (k, row_get row k)) (Object_keys row).

(** [arr[i] = x] on an array that may have holes ([None]): a write past
    the end extends the array and leaves holes before the new element. *)
Fixpoint array_set {A : Type} (i : nat) (x : A) (l : list (option A))
  : list (option A) :=
  match i, l with
  | O, [] => [Some x]
  | O, _ :: r => Some x :: r
  | S k, [] => None :: array_set k x []
  | S k, y :: r => y :: array_set k x r
  end.

(** [handleCellEdit], App.tsx: the array passed to [setData]. *)
Definition handleCellEdit (data : list DataRow) (rowIndex : nat)
  (colName : string) (value : value) : list (option DataRow) :=
  let newData := map Some data in
  let old :=
    match nth_error data rowIndex with
    | Some row => spread row
    | None => []
    end in
  array_set rowIndex (obj_set colName value old) newData.

(** The [onChange] handler of a grid cell: the text of the input is
    passed on as it is. *)
Definition Grid_onChange (data : list DataRow) (rowIndex : nat) (col : string)
  (text : string) : list (option DataRow) :=
  handleCellEdit data rowIndex col (VString text).

(** ** The table and its columns after a transformation (App.tsx,
    [handleDataUpdate]) *)

(** [JSON.stringify] of an array of strings. *)
Definition JSON_stringify_strings (l : list string) : string :=
  ("[" ++ Array_join "," (map JSON_quote l) ++ "]")%string.

(** The part of the state of [App] that holds the table. *)
Record AppTable : Type := {
  app_data : list DataRow;
  app_columns : list string
}.

(** [handleDataUpdate]: the state after [setData] and, when it is
    called, [setColumns]. *)
Definition handleDataUpdate (st : AppTable) (newData : list DataRow)
  : AppTable :=
  {| app_data := newData;
     app_columns :=
       match newData with
       | [] => app_columns st
       | first :: _ =>
           let newCols := Object_keys first in
           if negb (String.eqb (JSON_stringify_strings newCols)
                               (JSON_stringify_strings (app_columns st)))
           then newCols else app_columns st
       end |}.

(** Reading a quoted string back: the value of a hexadecimal digit, and
    the first character of the body of a quoted string with the rest of
    the text; [None] at the closing quote. *)
Definition hex_value (c : ascii) : option nat :=
  let n := nat_of_ascii c in
  if (48 <=? n)%nat && (n <=? 57)%nat then Some (n - 48)%nat
  else if (97 <=? n)%nat && (n <=? 102)%nat then Some (n - 87)%nat
  else None.

Definition JSON_unquote_head (s : string) : option (ascii * string) :=
  match s with
  | EmptyString => None
  | String c r =>
      if Ascii.eqb c dquote then None
      else if Ascii.eqb c backslash then
        match r with
        | String e r' =>
            if Ascii.eqb e "b" then Some (ascii_of_nat 8, r')
            else if Ascii.eqb e "t" then Some (ascii_of_nat 9, r')
            else if Ascii.eqb e "n" then Some (ascii_of_nat 10, r')
            else if Ascii.eqb e "f" then Some (ascii_of_nat 12, r')
            else if Ascii.eqb e "r" then Some (ascii_of_nat 13, r')
            else if Ascii.eqb e "u" then
              match r' with
              | String _ (String _ (String x (String y r''))) =>
                  match hex_value x, hex_value y with
                  | Some h, Some l => Some (ascii_of_nat (16 * h + l), r'')
                  | _, _ => None
                  end
              | _ => None
              end
            else Some (e, r')
        | EmptyString => None
        end
      else Some (c, r)
  end.

(** ** The answers of the model (geminiService.ts) *)

(** [s.startsWith(p)] *)
Fixpoint starts_with (p s : string) : bool :=
  match p, s with
  | EmptyString, _ => true
  | String _ _, EmptyString => false
  | String a p', String b s' => Ascii.eqb a b && starts_with p' s'
  end.

(** [p] occurs in [s]. *)
Fixpoint occurs (p s : string) : bool :=
  starts_with p s
  || match s with
     | EmptyString => false
     | String _ r => occurs p r
     end.

(** [s.replace(re, '')] for a global pattern [re] that is the literal,
    non-empty text [p]: the occurrences of [p] found from left to right,
    each search resuming behind the last occurrence, are removed; [skip]
    characters of the last occurrence are still to be passed. *)
Fixpoint remove_all_from (p : string) (skip : nat) (s : string) : string :=
  match s with
  | EmptyString => EmptyString
  | String c r =>
      match skip with
      | S k => remove_all_from p k r
      | O =>
          if starts_with p s
          then remove_all_from p (String.length p - 1) r
          else String c (remove_all_from p 0 r)
      end
  end.

Definition remove_all (p s : string) : string := remove_all_from p 0 s.

(** The fence of a markdown code block. *)
Definition fence : string := "```".

(** Lines 390-393 of [generateTransformationCode]: the fences are
    removed from the answer, then the white space around it. *)
Definition clean_code (text : string) : string :=
  trim (remove_all fence (remove_all (fence ++ "javascript") text)).

(** How the request to the model ends: with a response, whose text may
    be absent, or with an error. *)
Inductive ai_outcome : Type :=
| Responded (text : option string)
| Failed.

(** [response.text || fallback] *)
Definition text_or (text : option string) (fallback : string) : string :=
  match text with
  | Some t => if String.eqb t "" then fallback else t
  | None => fallback
  end.

(** [generateTransformationCode]: the code the promise resolves to, or
    the message of the error it rejects with. *)
Definition generateTransformationCode (outcome : ai_outcome)
  : string + string :=
  match outcome with
  | Responded text => inl (clean_code (text_or text ""))
  | Failed => inr "Failed to generate transformation code."
  end.

(** [getColumnInsights]: the text the promise resolves to; it never
    rejects. *)
Definition getColumnInsights (outcome : ai_outcome) : string :=
  match outcome with
  | Responded text => text_or text "No insights generated."
  | Failed => "Could not generate insights at this time."
  end.

(** Number of leading fence characters. *)
Fixpoint leading_backticks (s : string) : nat :=
  match s with
  | String c r => if Ascii.eqb c "`" then S (leading_backticks r) else 0
  | EmptyString => 0
  end.

(** ** The sample table: [generateSampleData], dataService.ts lines
    306-325 *)

(** What the runtime supplies: the numbers returned by the successive
    calls of [Math.random], and the conversion of a local time value to
    UTC. *)
Record SampleHost : Type := {
  random : nat -> Q;
  utc_of_local : Z -> Z
}.

Definition sample_columns : list string :=
  ["ID"; "Date"; "Product"; "Category"; "Sales"; "Profit"; "Region"].

Definition sample_categories : list string :=
  ["Electronics"; "Furniture"; "Office Supplies"].

Definition sample_regions : list string := ["North"; "South"; "East"; "West"].

Definition sample_products : list string :=
  ["Laptop"; "Chair"; "Desk"; "Monitor"; "Phone"; "Paper"].

(** [l[i]] for an integer [i]: undefined outside the array. *)
Definition array_at (l : list string) (i : Z) : value :=
  if (i <? 0)%Z then VUndefined
  else match nth_error l (Z.to_nat i) with
       | Some s => VString s
       | None => VUndefined
       end.

(** [Math.floor(Math.random() * n)] for the random number [r]. *)
Definition random_below (r : Q) (n : Z) : Z := Qfloor (r * inject_Z n).

(** [new Date(2023, month, day).toISOString().split('T')[0]]: the local
    midnight of the day is converted to UTC; [None] when the time value
    is out of range, where [toISOString] throws. *)
Definition sample_date (h : SampleHost) (month day : Z) : option string :=
  let local :=
    ((days_from_civil (2023 + month / 12) (month mod 12 + 1) 1 + (day - 1))
     * msPerDay)%Z in
  match TimeClip (utc_of_local h local) with
  | Some t => Some (split_head "T" (toISOString t))
  | None => None
  end.

(** The row pushed at iteration [i]; the loop has called [Math.random]
    seven times for each earlier row. *)
Definition sample_row (h : SampleHost) (i : nat) : option DataRow :=
  let k := (7 * (i - 1))%nat in
  match sample_date h (random_below (random h k) 12)
                      (random_below (random h (k + 1)) 28 + 1) with
  | Some date =>
      Some [("ID", N_ (Z.of_nat i));
            ("Date", VString date);
            ("Product",
             array_at sample_products
               (random_below (random h (k + 2))
                  (Z.of_nat (List.length sample_products))));
            ("Category",
             array_at sample_categories
               (random_below (random h (k + 3))
                  (Z.of_nat (List.length sample_categories))));
            ("Sales", N_ (random_below (random h (k + 4)) 1000 + 50));
            ("Profit", N_ (random_below (random h (k + 5)) 300 - 50));
            ("Region",
             array_at sample_regions
               (random_below (random h (k + 6))
                  (Z.of_nat (List.length sample_regions))))]
  | None => None
  end.

(** The elements of a list of results, when none is an exception. *)
Fixpoint all_some {A : Type} (l : list (option A)) : option (list A) :=
  match l with
  | [] => Some []
  | Some x :: r =>
      match all_some r with
      | Some xs => Some (x :: xs)
      | None => None
      end
  | None :: _ => None
  end.

(** [generateSampleData]; [None] when it throws. *)
Definition generateSampleData (h : SampleHost)
  : option (list DataRow * list string) :=
  match all_some (map (sample_row h) (seq 1 50)) with
  | Some data => Some (data, sample_columns)
  | None => None
  end.

(** A runtime whose random numbers lie in [0, 1) and whose local time is
    within a day of UTC. *)
Definition sample_host_ok (h : SampleHost) : Prop :=
  (forall n, (0 <= random h n)%Q /\ (random h n < 1)%Q)
  /\ (forall t, (Z.abs (utc_of_local h t - t) <= msPerDay)%Z).

(** A runtime in the UTC time zone whose n-th random number is the
    fractional part of n * 0.37. *)
Definition sample_host0 : SampleHost :=
  {| random := fun n =>
       let x := (inject_Z (Z.of_nat n) * (37 # 100))%Q in
       (x - inject_Z (Qfloor x))%Q;
     utc_of_local := fun t => t |}.

(** A day number whose UTC date is written as [YYYY-MM-DD] and read
    back by [Date.parse] as the midnight of that day. *)
Definition day_round_trips (d : Z) : bool :=
  is_YYYY_MM_DD (iso_date (d * msPerDay))
  && match parse_iso_date (iso_date (d * msPerDay)) with
     | Some t => (t =? d * msPerDay)%Z
     | None => false
     end.

(** The shape of the rows of the sample table, for row [i] of the loop:
    the date is a day from 2022-12-31 (day 19357 of the epoch) to
    2023-12-29 (day 19720). *)
Definition sample_row_shape (i : nat) (row : DataRow) : Prop :=
  exists (date product category region : string) (sales profit : Z),
    row = [("ID", N_ (Z.of_nat i)); ("Date", VString date);
           ("Product", VString product); ("Category", VString category);
           ("Sales", N_ sales); ("Profit", N_ profit);
           ("Region", VString region)]
    /\ is_YYYY_MM_DD date = true
    /\ (exists d, (19357 <= d <= 19720)%Z
                  /\ parse_iso_date date = Some (d * msPerDay)%Z)
    /\ In product sample_products
    /\ In category sample_categories
    /\ In region sample_regions
    /\ (50 <= sales <= 1049)%Z
    /\ (-50 <= profit <= 249)%Z.

(** ** The notebook view (GlobalAnalysisView.tsx): what it derives from
    the report *)

(** [Object.values(o)]: the values in own-key order. *)
Definition Object_values {A : Type} (o : JsObject A) : list A :=
  somes (map (fun k => obj_get k o) (Object_keys o)).

Definition has_value {A : Type} (o : option A) : bool :=
  match o with Some _ => true | None => false end.

Record NotebookView : Type := {
  nv_columnList : list ColumnAnalysis;
  nv_numericCols : list ColumnAnalysis;
  nv_dateCols : list ColumnAnalysis;
  nv_alerts : nat;
  nv_columnsWithIssues : nat
}.

(** Lines 412-415, 463 and 467 of the view. *)
Definition notebook_view (report : GlobalAnalysisReport) : NotebookView :=
  let columnList := Object_values (columns report) in
  {| nv_columnList := columnList;
     nv_numericCols :=
       filter (fun c => has_value (ca_numericStats c)) columnList;
     nv_dateCols := filter (fun c => has_value (ca_dateStats c)) columnList;
     nv_alerts :=
       fold_left (fun acc col => (acc + List.length (ca_issues col))%nat)
                 columnList 0%nat;
     nv_columnsWithIssues :=
       List.length
         (filter (fun c => (0 <? List.length (ca_issues c))%nat) columnList) |}.

(** Width of the bar of missing cells, in percent, line 509:
    [Math.min((col.missing / report.totalRows) * 100, 100)]; [None] is
    [NaN], the result for 0 / 0. *)
Definition missing_bar_width (report : GlobalAnalysisReport)
  (col : ColumnAnalysis) : option Q :=
  if (totalRows report =? 0)%nat then
    if (ca_missing col =? 0)%nat then None else Some 100%Q
  else
    let x := (inject_Z (Z.of_nat (ca_missing col))
              / inject_Z (Z.of_nat (totalRows report)) * 100)%Q in
    Some (if Qlt_bool 100 x then 100%Q else x).

(** ** The chart of the details panel (components/DetailsPanel.tsx) *)



(** An element of the chart data. *)
Record ChartEntry : Type := {
  ce_name : string;
  ce_count : nat
}.






(** Names of the properties an object literal inherits from
    [Object.prototype]: reading one of them from the [counts] object
    gives a function or an object where no count has been stored. *)
Definition Object_prototype_keys : list string :=
  ["constructor"; "hasOwnProperty"; "isPrototypeOf"; "propertyIsEnumerable";
   "toLocaleString"; "toString"; "valueOf"; "__proto__";
   "__defineGetter__"; "__defineSetter__"; "__lookupGetter__";
   "__lookupSetter__"].

Definition is_inherited_key (k : string) : bool :=
  existsb (String.eqb k) Object_prototype_keys.

(** [counts[val] = (counts[val] || 0) + 1], line 67, for a [val] that is
    not inherited. *)
Definition count_text (counts : JsObject nat) (val : string) : JsObject nat :=
  obj_set val
    (match obj_get val counts with
     | Some c => if (c =? 0)%nat then 0%nat else c
     | None => 0%nat
     end + 1)%nat
    counts.

(** [Object.entries(o)]: the properties in own-key order. *)
Definition Object_entries {A : Type} (o : JsObject A) : list (string * A) :=
  somes (map (fun k => option_map (pair k) (obj_get k o)) (Object_keys o)).

Section Chart.

Variable host : Host.




(** The five most frequent texts of a column, lines 63-72; [None] when
    a cell reads as the name of an inherited property, where the stored
    count is not a number. *)
Definition top_values (data : list DataRow) (column : string)
  : option (list ChartEntry) :=
  let texts := map (fun r => String_ host (row_get r column)) data in
  if existsb is_inherited_key texts then None
  else
    let counts := fold_left count_text texts [] in
    Some
      (map (fun e => {| ce_name := fst e; ce_count := snd e |})
         (firstn 5
            (Array_sort
               (fun a b =>
                  (inject_Z (Z.of_nat (snd b)) - inject_Z (Z.of_nat (snd a)))%Q)
               (Object_entries counts)))).


End Chart.

(** ** Further notions the properties are stated with *)

(** Number of elements of [l] numerically equal to [x]. *)
Definition Qcount (x : Q) (l : list Q) : nat :=
  List.length (filter (Qeq_bool x) l).

(** A cell holding an integer of the safe range. *)
Definition safe_integer_cell (v : value) : Prop :=
  exists q, v = VNumber q /\ is_safe_integer q = true.

(** Where the lookahead of the field pattern holds at once: at the end of
    the line and before a comma. *)
Definition at_field_end (rest : string) : Prop :=
  rest = "" \/ exists r, rest = String "," r.




(** * Properties of the engine *)

(** ** The runtime model on concrete inputs *)

Example own_keys_order :
  own_keys ["b"; "2"; "a"; "10"; "1"; "01"; "-1"]
  = ["1"; "2"; "10"; "b"; "a"; "01"; "-1"].
Proof. reflexivity. Qed.

Example JSON_stringify_row (host : Host) :
  JSON_stringify host
    [("name", VString "x,y"); ("n", N_ (-12)); ("u", VUndefined); ("z", VNull)]
  = String.concat (str1 dquote)
      ["{"; "name"; ":"; "x,y"; ","; "n"; ":-12,"; "z"; ":null}"].
Proof. reflexivity. Qed.

Example String_of_numbers (host : Host) :
  map (String_ host) [N_ 0; N_ 42; N_ (-7); VNumber (6 # 3)]
  = ["0"; "42"; "-7"; "2"].
Proof. reflexivity. Qed.

Example Number_of_strings (host : Host) :
  map (Number_ host) ["0"; "42"; "-7"; "007"]
  = [Some (inject_Z 0); Some (inject_Z 42); Some (inject_Z (-7));
     Some (inject_Z 7)].
Proof. reflexivity. Qed.

Example Date_parse_iso (host : Host) :
  map (Date_parse host)
    ["1970-01-01"; "2023-01-01"; "2024-02-29"; "+275760-09-13";
     "+275760-09-14"]
  = [Some 0%Z; Some 1672531200000%Z; Some 1709164800000%Z;
     Some 8640000000000000%Z; None].
Proof. reflexivity. Qed.

Example toISOString_values :
  map toISOString [0%Z; (-1)%Z; 1709164800123%Z; 253402300800000%Z]
  = ["1970-01-01T00:00:00.000Z"; "1969-12-31T23:59:59.999Z";
     "2024-02-29T00:00:00.123Z"; "+010000-01-01T00:00:00.000Z"].
Proof. reflexivity. Qed.

Example iso_date_round_trip :
  map (fun s => option_map iso_date (parse_iso_date s))
    ["0000-01-01"; "1600-02-29"; "1969-12-31"; "2023-02-28"; "9999-12-31";
     "-000001-12-31"; "+010000-01-01"]
  = map Some
      ["0000-01-01"; "1600-02-29"; "1969-12-31"; "2023-02-28"; "9999-12-31";
       "-000001-12-31"; "+010000-01-01"].
Proof. vm_compute. reflexivity. Qed.

(** ** Cells *)

Lemma nonMissing_false_iff (v : value) :
  nonMissing v = false <-> missing_cell v.
Proof.
  unfold missing_cell. split.
  - destruct v as [q | s | |]; cbn; try discriminate; auto.
    destruct s; cbn; [auto | discriminate].
  - intros [-> | [-> | ->]]; reflexivity.
Qed.

Lemma isMissing_iff (v : value) : isMissing v = true <-> missing_cell v.
Proof.
  unfold isMissing. rewrite Bool.negb_true_iff. apply nonMissing_false_iff.
Qed.

Lemma is_number_cell_eq (v : value) : is_number v = is_number_cell v.
Proof. destruct v; reflexivity. Qed.

Lemma is_string_cell_eq (v : value) : is_string v = is_text_cell v.
Proof. destruct v; reflexivity. Qed.

Lemma looks_like_date_eq (host : Host) (v : value) :
  looks_like_date host v = date_like host v.
Proof.
  destruct v as [q | s | |]; cbn; try reflexivity.
  destruct (Date_parse host s); reflexivity.
Qed.

Lemma filter_ext_length {A : Type} (p q : A -> bool) (l : list A) :
  (forall x, p x = q x) ->
  List.length (filter p l) = List.length (filter q l).
Proof. intros E. now rewrite (filter_ext p q E). Qed.

Lemma exceeds_80_percent_iff (d n : nat) :
  exceeds_80_percent d n <-> (4 * n < 5 * d)%nat.
Proof.
  unfold exceeds_80_percent, Qlt. cbn [Qnum Qden Qmult inject_Z]. lia.
Qed.

(** ** The column reports of the whole-table analysis *)

Lemma obj_get_set_same {A : Type} (k : string) (v : A) (o : JsObject A) :
  obj_get k (obj_set k v o) = Some v.
Proof.
  induction o as [| [k' v'] r IH]; cbn.
  - now rewrite String.eqb_refl.
  - destruct (String.eqb k k') eqn:E; cbn; rewrite E; auto.
Qed.

Lemma obj_get_set_other {A : Type} (k k0 : string) (v : A) (o : JsObject A) :
  k0 <> k -> obj_get k0 (obj_set k v o) = obj_get k0 o.
Proof.
  intros N. induction o as [| [k' v'] r IH]; cbn.
  - apply String.eqb_neq in N. now rewrite N.
  - destruct (String.eqb k k') eqn:E; cbn.
    + apply String.eqb_eq in E. subst k'.
      apply String.eqb_neq in N. now rewrite N.
    + now rewrite IH.
Qed.

Lemma colReports_lookup {A : Type} (f : string -> A) (cols : list string) :
  forall (o : JsObject A) (col : string),
    obj_get col (fold_left (fun acc c => obj_set c (f c) acc) cols o)
    = if existsb (String.eqb col) cols then Some (f col) else obj_get col o.
Proof.
  induction cols as [| c cols IH]; intros o col; cbn; [reflexivity |].
  rewrite IH. destruct (existsb (String.eqb col) cols);
    [now rewrite Bool.orb_true_r |].
  rewrite Bool.orb_false_r. destruct (String.eqb col c) eqn:E.
  - apply String.eqb_eq in E. subst c. apply obj_get_set_same.
  - apply String.eqb_neq in E. now apply obj_get_set_other.
Qed.

(** Every listed column has its report in [columns], computed by
    [analyzeColumn]; no other key has one. *)
Lemma report_columns (host : Host) (data : list DataRow) (cols : list string)
  (col : string) :
  obj_get col (columns (generateGlobalAnalysis host data cols))
  = if existsb (String.eqb col) cols
    then Some (analyzeColumn host data col) else None.
Proof.
  unfold generateGlobalAnalysis. cbn [columns].
  apply (colReports_lookup (analyzeColumn host data)).
Qed.

Lemma analyzeColumn_type (host : Host) (data : list DataRow) (col : string) :
  ca_type (analyzeColumn host data col)
  = fst (detectType host (nonMissingValues data col)).
Proof.
  unfold analyzeColumn, nonMissingValues.
  destruct (detectType host _) as [ty iss].
  destruct (numericBranch host ty _ iss) as [iss' ns]. reflexivity.
Qed.

Lemma numericBranch_issues (host : Host) (ty : string) (nonNull : list value)
  (iss : list string) :
  exists extra, fst (numericBranch host ty nonNull iss) = iss ++ extra.
Proof.
  unfold numericBranch.
  destruct (_ || _); [| exists []; cbn; now rewrite app_nil_r].
  destruct (0 <? _)%nat; [| exists []; cbn; now rewrite app_nil_r].
  cbv zeta. destruct (0 <? getOutlierCount _ _ _)%nat; cbn.
  - eexists. reflexivity.
  - exists []. now rewrite app_nil_r.
Qed.

Lemma analyzeColumn_issues (host : Host) (data : list DataRow) (col : string) :
  exists extra,
    ca_issues (analyzeColumn host data col)
    = snd (detectType host (nonMissingValues data col)) ++ extra.
Proof.
  unfold analyzeColumn, nonMissingValues.
  destruct (detectType host _) as [ty iss].
  destruct (numericBranch_issues host ty
              (filter nonMissing (column_values data col)) iss) as [extra E].
  destruct (numericBranch host ty _ iss) as [iss' ns]. cbn in *.
  exists extra. exact E.
Qed.

Lemma looks_like_date_no_separator (host : Host) (s : string) :
  includes "-" s = false -> includes "/" s = false ->
  looks_like_date host (VString s) = false.
Proof.
  intros H1 H2. cbn. rewrite H1, H2. apply Bool.andb_false_r.
Qed.

(** C1: type inference over the non-missing values of a column follows the
    precedence Numeric (numbers and no text), then Date (date-like text
    values exceed 0.8 times the non-missing count, with the issue
    "Invalid Date Formats Detected" exactly when they are fewer than the
    non-missing values), then Mixed (numbers and text, with its issue),
    then Categorical; the column report carries that type and starts its
    issues with the seeded ones; [1,2,3] is Numeric, two ISO dates are
    Date, [1,"a",2] is Mixed and ["a","b","a"] is Categorical. *)
Theorem C1_type_inference_precedence :
  (forall (host : Host) (nonNull : list value),
      type_precedence
        (count_where is_number_cell nonNull)
        (count_where is_text_cell nonNull)
        (count_where (date_like host) nonNull)
        (List.length nonNull)
        (detectType host nonNull))
  /\ (forall (host : Host) (data : list DataRow) (col : string),
         ca_type (analyzeColumn host data col)
         = fst (detectType host (nonMissingValues data col))
         /\ exists extra,
             ca_issues (analyzeColumn host data col)
             = snd (detectType host (nonMissingValues data col)) ++ extra)
  /\ (forall host : Host,
         detectType host [N_ 1; N_ 2; N_ 3] = ("Numeric", [])
         /\ detectType host [VString "2023-01-01"; VString "2023-02-01"]
            = ("Date", [])
         /\ detectType host [N_ 1; VString "a"; N_ 2]
            = ("Mixed", ["Mixed Data Types (Numbers & Text)"])
         /\ detectType host [VString "a"; VString "b"; VString "a"]
            = ("Categorical", [])).
Proof.
  split; [| split].
  - intros host nonNull. unfold detectType, count_where.
    rewrite (filter_ext_length is_number is_number_cell nonNull is_number_cell_eq).
    rewrite (filter_ext_length is_string is_text_cell nonNull is_string_cell_eq).
    rewrite (filter_ext_length (looks_like_date host) (date_like host) nonNull
               (looks_like_date_eq host)).
    set (nc := List.length (filter is_number_cell nonNull)).
    set (sc := List.length (filter is_text_cell nonNull)).
    set (dc := List.length (filter (date_like host) nonNull)).
    set (n := List.length nonNull).
    destruct ((0 <? nc)%nat && (sc =? 0)%nat) eqn:E1.
    { apply Bool.andb_true_iff in E1. destruct E1 as [A B].
      apply Nat.ltb_lt in A. apply Nat.eqb_eq in B. now constructor. }
    assert (N1 : ~ ((0 < nc)%nat /\ sc = 0%nat)).
    { intros [A B]. apply Nat.ltb_lt in A. apply Nat.eqb_eq in B.
      rewrite A, B in E1. discriminate. }
    destruct (4 * n <? 5 * dc)%nat eqn:E2.
    { apply Nat.ltb_lt in E2. apply exceeds_80_percent_iff in E2.
      destruct (dc <? n)%nat eqn:E3.
      - apply Nat.ltb_lt in E3. now apply TP_Date_invalid.
      - apply Nat.ltb_ge in E3. apply TP_Date_clean; auto. lia. }
    assert (N2 : ~ exceeds_80_percent dc n).
    { rewrite exceeds_80_percent_iff. apply Nat.ltb_ge in E2. lia. }
    destruct ((0 <? nc)%nat && (0 <? sc)%nat) eqn:E3.
    { apply Bool.andb_true_iff in E3. destruct E3 as [A B].
      apply Nat.ltb_lt in A. apply Nat.ltb_lt in B. now apply TP_Mixed. }
    apply TP_Categorical; auto.
    intros [A B]. apply Nat.ltb_lt in A. apply Nat.ltb_lt in B.
    rewrite A, B in E3. discriminate.
  - intros host data col. split.
    + apply analyzeColumn_type.
    + apply analyzeColumn_issues.
  - intros host. split; [| split; [| split]].
    + unfold detectType. cbn -[looks_like_date].
      rewrite ?looks_like_date_no_separator by reflexivity. reflexivity.
    + unfold detectType, looks_like_date, Date_parse.
      replace (parse_iso_date "2023-01-01") with (Some 1672531200000%Z)
        by (vm_compute; reflexivity).
      replace (parse_iso_date "2023-02-01") with (Some 1675209600000%Z)
        by (vm_compute; reflexivity).
      reflexivity.
    + unfold detectType. cbn -[looks_like_date].
      rewrite ?looks_like_date_no_separator by reflexivity. reflexivity.
    + unfold detectType. cbn -[looks_like_date].
      rewrite ?looks_like_date_no_separator by reflexivity. reflexivity.
Qed.

(** ** Missing counts *)

Lemma column_values_length (data : list DataRow) (col : string) :
  List.length (column_values data col) = List.length data.
Proof. apply length_map. Qed.

Lemma filter_length_le' {A : Type} (p : A -> bool) (l : list A) :
  (List.length (filter p l) <= List.length l)%nat.
Proof.
  induction l as [| x l IH]; cbn; [lia |].
  destruct (p x); cbn; lia.
Qed.

Lemma filter_complement_length {A : Type} (p : A -> bool) (l : list A) :
  (List.length (filter p l) + List.length (filter (fun x => negb (p x)) l)
   = List.length l)%nat.
Proof.
  induction l as [| x l IH]; [reflexivity |].
  cbn [filter]. destruct (p x); cbn; lia.
Qed.

Lemma analyzeColumn_missing (host : Host) (data : list DataRow) (col : string) :
  ca_missing (analyzeColumn host data col)
  = (List.length (column_values data col)
     - List.length (nonMissingValues data col))%nat.
Proof.
  unfold analyzeColumn, nonMissingValues.
  destruct (detectType host _) as [ty iss].
  destruct (numericBranch host ty _ iss) as [iss' ns]. reflexivity.
Qed.

Lemma analyzeColumn_unique (host : Host) (data : list DataRow) (col : string) :
  ca_unique (analyzeColumn host data col)
  = List.length (Set_of strict_eq (column_values data col)).
Proof.
  unfold analyzeColumn.
  destruct (detectType host _) as [ty iss].
  destruct (numericBranch host ty _ iss) as [iss' ns]. reflexivity.
Qed.

Lemma calculateColumnStats_counts (host : Host) (data : list DataRow)
  (col : string) :
  let r := calculateColumnStats host data col in
  cs_count r = List.length (column_values data col)
  /\ cs_missing r
     = (List.length (column_values data col)
        - List.length (nonMissingValues data col))%nat
  /\ cs_unique r = List.length (Set_of strict_eq (column_values data col)).
Proof.
  unfold calculateColumnStats, nonMissingValues. cbv zeta.
  destruct (_ && _); cbn; auto.
Qed.

(** C6: in both flows the reported missing count plus the number of
    non-missing values of the column is the number of rows of the table,
    a value being missing iff it is null, undefined or the empty
    string. *)
Theorem C6_missing_plus_non_missing_is_total :
  forall (host : Host) (data : list DataRow) (cols : list string)
         (col : string),
    (forall v : value, nonMissing v = false <-> missing_cell v)
    /\ (cs_missing (calculateColumnStats host data col)
        + count_where nonMissing (column_values data col)
        = cs_count (calculateColumnStats host data col))%nat
    /\ cs_count (calculateColumnStats host data col) = List.length data
    /\ (ca_missing (analyzeColumn host data col)
        + count_where nonMissing (column_values data col)
        = totalRows (generateGlobalAnalysis host data cols))%nat
    /\ obj_get col (columns (generateGlobalAnalysis host data cols))
       = (if existsb (String.eqb col) cols
          then Some (analyzeColumn host data col) else None).
Proof.
  intros host data cols col.
  destruct (calculateColumnStats_counts host data col) as (Hc & Hm & _).
  pose proof (filter_length_le' nonMissing (column_values data col)) as Hle.
  pose proof (column_values_length data col) as Hlen.
  unfold count_where. unfold nonMissingValues in *.
  split; [exact nonMissing_false_iff |].
  split; [rewrite Hm, Hc; lia |].
  split; [rewrite Hc; exact Hlen |].
  split; [| apply report_columns].
  rewrite analyzeColumn_missing. unfold nonMissingValues.
  unfold generateGlobalAnalysis. cbn [totalRows]. lia.
Qed.

(** ** [Set] sizes and distinct values *)

Lemma filter_twice {A : Type} (p q : A -> bool) (l : list A) :
  filter p (filter q l) = filter (fun x => q x && p x) l.
Proof.
  induction l as [| x l IH]; cbn; [reflexivity |].
  destruct (q x); cbn; [destruct (p x) |]; now rewrite IH.
Qed.

Section DistinctValues.

Context {A : Type}.
Variable same : A -> A -> bool.
Hypothesis same_refl : forall x, same x x = true.
Hypothesis same_sym : forall x y, same x y = same y x.
Hypothesis same_trans :
  forall x y z, same x y = true -> same y z = true -> same x z = true.

Lemma same_class (x y z : A) : same x y = true -> same x z = same y z.
Proof.
  intros H. destruct (same y z) eqn:E.
  - eapply same_trans; eauto.
  - destruct (same x z) eqn:F; [| reflexivity].
    rewrite <- E. symmetry. eapply same_trans; [| exact F].
    now rewrite same_sym.
Qed.

Lemma existsb_same_class (x y : A) (l : list A) :
  same x y = true -> existsb (same x) l = existsb (same y) l.
Proof.
  intros H. induction l as [| z l IH]; cbn; [reflexivity |].
  now rewrite IH, (same_class x y z H).
Qed.

Lemma existsb_filter_keep (p : A -> bool) (x : A) (l : list A) :
  (forall z, same x z = true -> p z = true) ->
  existsb (same x) (filter p l) = existsb (same x) l.
Proof.
  intros H. induction l as [| z l IH]; cbn; [reflexivity |].
  destruct (p z) eqn:E; cbn; rewrite IH; [reflexivity |].
  destruct (same x z) eqn:F; [| reflexivity].
  rewrite (H z F) in E. discriminate.
Qed.

(** Dropping the class of [x] lowers the count by one when it occurs. *)
Lemma distinct_by_remove (x : A) (l : list A) :
  (distinct_by same (filter (fun z => negb (same z x)) l)
   + (if existsb (same x) l then 1 else 0)
   = distinct_by same l)%nat.
Proof.
  induction l as [| y t IH]; cbn; [reflexivity |].
  destruct (same y x) eqn:E; cbn.
  - rewrite same_sym in E. rewrite E. cbn.
    rewrite (existsb_same_class x y t E) in IH.
    destruct (existsb (same y) t); lia.
  - rewrite (same_sym x y), E. cbn.
    rewrite (existsb_filter_keep (fun z => negb (same z x)) y t).
    + destruct (existsb (same y) t); lia.
    + intros z F. destruct (same z x) eqn:G; [| reflexivity].
      rewrite (same_trans y z x F G) in E. discriminate.
Qed.

Lemma Set_has_snoc (s : list A) (x z : A) :
  Set_has same (s ++ [x]) z = Set_has same s z || same z x.
Proof.
  unfold Set_has. rewrite existsb_app. cbn. now rewrite Bool.orb_false_r.
Qed.

Lemma Set_of_length_from (l : list A) :
  forall s : list A,
    List.length (fold_left (Set_add same) l s)
    = (List.length s
       + distinct_by same (filter (fun z => negb (Set_has same s z)) l))%nat.
Proof.
  induction l as [| x r IH]; intros s; cbn [fold_left filter].
  - cbn. lia.
  - unfold Set_add at 2. destruct (Set_has same s x) eqn:E; cbn [negb].
    + apply IH.
    + rewrite IH, length_app. cbn [List.length distinct_by].
      rewrite (filter_ext _ (fun z => negb (Set_has same s z) && negb (same z x))).
      2:{ intros z. rewrite Set_has_snoc. apply Bool.negb_orb. }
      pose proof (distinct_by_remove x
                    (filter (fun z => negb (Set_has same s z)) r)) as H.
      rewrite filter_twice in H.
      destruct (existsb (same x) (filter _ r)); lia.
Qed.

(** The size of [new Set(l)] is the number of distinct elements of [l]. *)
Lemma Set_of_size (l : list A) :
  List.length (Set_of same l) = distinct_by same l.
Proof.
  unfold Set_of. rewrite Set_of_length_from.
  assert (E : forall p : A -> bool, (forall z, p z = true) -> filter p l = l).
  { intros p Hp. induction l as [| x l IH]; cbn; [reflexivity |].
    now rewrite Hp, IH. }
  rewrite E by reflexivity. reflexivity.
Qed.

(** Distinct values split along any property that equal values share. *)
Lemma distinct_by_partition (p : A -> bool) (l : list A) :
  (forall x y, same x y = true -> p x = p y) ->
  distinct_by same l
  = (distinct_by same (filter p l)
     + distinct_by same (filter (fun x => negb (p x)) l))%nat.
Proof.
  intros Hp. induction l as [| x r IH]; cbn; [reflexivity |].
  destruct (p x) eqn:E; cbn.
  - rewrite existsb_filter_keep; [lia |].
    intros z F. now rewrite <- (Hp x z F).
  - rewrite existsb_filter_keep; [lia |].
    intros z F. now rewrite <- (Hp x z F), E.
Qed.

Lemma distinct_by_nonempty (l : list A) :
  l <> [] -> (1 <= distinct_by same l)%nat.
Proof.
  induction l as [| x r IH]; [congruence |]. intros _. cbn.
  destruct r as [| y r]; [cbn; lia |].
  assert (1 <= distinct_by same (y :: r))%nat by (apply IH; congruence). lia.
Qed.

End DistinctValues.

Lemma strict_eq_refl (x : value) : strict_eq x x = true.
Proof.
  destruct x; cbn; auto using String.eqb_refl.
  apply Qeq_bool_iff. reflexivity.
Qed.

Lemma strict_eq_sym (x y : value) : strict_eq x y = strict_eq y x.
Proof.
  destruct x, y; cbn; auto using String.eqb_sym.
  destruct (Qeq_bool q q0) eqn:E, (Qeq_bool q0 q) eqn:F; auto.
  - apply Qeq_bool_iff in E. symmetry in E. apply Qeq_bool_iff in E. congruence.
  - apply Qeq_bool_iff in F. symmetry in F. apply Qeq_bool_iff in F. congruence.
Qed.

Lemma strict_eq_trans (x y z : value) :
  strict_eq x y = true -> strict_eq y z = true -> strict_eq x z = true.
Proof.
  destruct x, y, z; cbn; try discriminate; auto.
  - intros E F. apply Qeq_bool_iff in E, F. apply Qeq_bool_iff.
    now rewrite E.
  - intros E F. apply String.eqb_eq in E, F. subst. apply String.eqb_refl.
Qed.

Lemma strict_eq_nonMissing (x y : value) :
  strict_eq x y = true -> nonMissing x = nonMissing y.
Proof.
  destruct x, y; cbn; try discriminate; auto.
  intros E. apply String.eqb_eq in E. now subst.
Qed.

Ltac strict_eq_equiv :=
  first [ exact strict_eq_refl | exact strict_eq_sym | exact strict_eq_trans
        | exact strict_eq_nonMissing ].

Lemma unique_is_distinct_count (l : list value) :
  List.length (Set_of strict_eq l) = distinct_count l.
Proof.
  apply Set_of_size; strict_eq_equiv.
Qed.

Lemma distinct_count_remove (x : value) (l : list value) :
  (distinct_count (filter (fun z => negb (strict_eq z x)) l)
   + (if existsb (strict_eq x) l then 1 else 0)
   = distinct_count l)%nat.
Proof.
  apply distinct_by_remove; strict_eq_equiv.
Qed.

Lemma missing_buckets_le_3 (l : list value) :
  (distinct_count (filter isMissing l) <= 3)%nat.
Proof.
  set (m := filter isMissing l).
  pose proof (distinct_count_remove VNull m) as H1.
  set (m1 := filter (fun z => negb (strict_eq z VNull)) m) in *.
  pose proof (distinct_count_remove VUndefined m1) as H2.
  set (m2 := filter (fun z => negb (strict_eq z VUndefined)) m1) in *.
  pose proof (distinct_count_remove (VString "") m2) as H3.
  set (m3 := filter (fun z => negb (strict_eq z (VString ""))) m2) in *.
  assert (E : m3 = []).
  { destruct m3 as [| v r] eqn:E3; [reflexivity | exfalso].
    assert (Hin : In v m3) by (rewrite E3; now left).
    subst m3 m2 m1 m.
    apply filter_In in Hin. destruct Hin as [Hin H6].
    apply filter_In in Hin. destruct Hin as [Hin H5].
    apply filter_In in Hin. destruct Hin as [Hin H4].
    apply filter_In in Hin. destruct Hin as [_ H7].
    destruct v as [q | [| c s] | |]; discriminate. }
  rewrite E in H3. cbn in H3.
  destruct (existsb _ m), (existsb _ m1), (existsb _ m2); lia.
Qed.

(** C7: in the per-column and in the dataset-level flow the unique count
    is the number of distinct cell values of the whole column, missing
    cells included: it is the number of distinct non-missing values plus
    the number of distinct missing markers present, which is at least one
    (and at most three) as soon as the column has a missing cell; the
    missing count filters by the missing predicate. *)
Theorem C7_unique_counts_missing_values :
  forall (host : Host) (data : list DataRow) (col : string),
    let values := column_values data col in
    let buckets := distinct_count (filter isMissing values) in
    cs_unique (calculateColumnStats host data col) = distinct_count values
    /\ ca_unique (analyzeColumn host data col) = distinct_count values
    /\ distinct_count values
       = (distinct_count (filter nonMissing values) + buckets)%nat
    /\ ((existsb isMissing values = true /\ (1 <= buckets <= 3)%nat)
        \/ (existsb isMissing values = false /\ buckets = 0%nat))
    /\ cs_missing (calculateColumnStats host data col)
       = count_where isMissing values
    /\ ca_missing (analyzeColumn host data col)
       = count_where isMissing values.
Proof.
  intros host data col values buckets.
  destruct (calculateColumnStats_counts host data col) as (Hc & Hm & Hu).
  assert (Hmiss : (List.length values - List.length (filter nonMissing values)
                   = count_where isMissing values)%nat).
  { unfold count_where.
    pose proof (filter_complement_length nonMissing values) as H.
    fold isMissing in H.
    change (fun x => negb (nonMissing x)) with isMissing in H. lia. }
  split; [rewrite Hu; apply unique_is_distinct_count |].
  split; [rewrite analyzeColumn_unique; apply unique_is_distinct_count |].
  split.
  { unfold buckets, distinct_count, isMissing.
    apply distinct_by_partition; strict_eq_equiv. }
  split.
  { destruct (existsb isMissing values) eqn:E; [left | right]; split; auto.
    - split; [| apply missing_buckets_le_3].
      apply (distinct_by_nonempty strict_eq).
      apply existsb_exists in E. destruct E as (v & Hin & Hv).
      intros F. assert (G : In v (filter isMissing values))
        by (apply filter_In; auto).
      rewrite F in G. exact G.
    - unfold buckets. replace (filter isMissing values) with (@nil value);
        [reflexivity |].
      symmetry. clear -E. induction values as [| v l IH]; cbn in *; auto.
      apply Bool.orb_false_iff in E. destruct E as [E1 E2].
      rewrite E1. auto. }
  split; [rewrite Hm; exact Hmiss |].
  rewrite analyzeColumn_missing. exact Hmiss.
Qed.

(** ** Sorting *)

Section SortFacts.

Context {A : Type}.
Variable leb : A -> A -> bool.

Lemma insert_by_perm (x : A) (l : list A) :
  Permutation (x :: l) (insert_by leb x l).
Proof.
  induction l as [| y r IH]; cbn; [reflexivity |].
  destruct (leb x y); [reflexivity |].
  rewrite perm_swap. now apply perm_skip.
Qed.

Lemma stable_sort_perm (l : list A) : Permutation l (stable_sort leb l).
Proof.
  induction l as [| x l IH]; cbn; [constructor |].
  rewrite <- insert_by_perm. now apply perm_skip.
Qed.

Lemma stable_sort_length (l : list A) :
  List.length (stable_sort leb l) = List.length l.
Proof. symmetry. apply Permutation_length, stable_sort_perm. Qed.

Lemma stable_sort_sorted_fix (l : list A) :
  StronglySorted (leb_rel leb) l -> stable_sort leb l = l.
Proof.
  induction 1 as [| x l Hs IH Hall]; cbn; [reflexivity |].
  fold (stable_sort leb l). rewrite IH.
  destruct l as [| y r]; cbn; [reflexivity |].
  inversion Hall as [| ? ? Hxy _]; subst. unfold leb_rel in Hxy. now rewrite Hxy.
Qed.

Hypothesis leb_total : forall x y, leb x y = true \/ leb y x = true.
Hypothesis leb_trans :
  forall x y z, leb x y = true -> leb y z = true -> leb x z = true.

Lemma insert_by_sorted (x : A) (l : list A) :
  StronglySorted (leb_rel leb) l -> StronglySorted (leb_rel leb) (insert_by leb x l).
Proof.
  induction 1 as [| y r Hs IH Hall]; cbn.
  - constructor; constructor.
  - destruct (leb x y) eqn:E.
    + constructor; [now constructor |].
      constructor; [exact E |].
      eapply Forall_impl; [| exact Hall]. intros z Hz. eapply leb_trans; eauto.
    + constructor; [exact IH |].
      assert (Hyx : leb y x = true)
        by (destruct (leb_total x y); congruence).
      eapply Permutation_Forall; [apply insert_by_perm |].
      now constructor.
Qed.

Lemma stable_sort_sorted (l : list A) : StronglySorted (leb_rel leb) (stable_sort leb l).
Proof.
  induction l as [| x l IH]; cbn; [constructor |].
  now apply insert_by_sorted.
Qed.

End SortFacts.

Lemma StronglySorted_weaken {A : Type} (R S : A -> A -> Prop) (l : list A) :
  (forall a b, R a b -> S a b) -> StronglySorted R l -> StronglySorted S l.
Proof.
  intros H. induction 1 as [| x l Hs IH Hall]; constructor; auto.
  eapply Forall_impl; [| exact Hall]. auto.
Qed.

Lemma StronglySorted_nth_lt {A : Type} (R : A -> A -> Prop) (d : A)
  (l : list A) :
  StronglySorted R l ->
  forall i j, (i < j)%nat -> (j < List.length l)%nat ->
              R (nth i l d) (nth j l d).
Proof.
  induction 1 as [| x l Hs IH Hall]; intros i j Hij Hj; cbn in Hj; [lia |].
  destruct j as [| j]; [lia |]. destruct i as [| i]; cbn.
  - rewrite Forall_forall in Hall. apply Hall, nth_In. lia.
  - apply IH; lia.
Qed.

(** *** Numbers *)

Lemma num_cmp_le (a b : Q) : Qle_bool (a - b) 0 = true <-> (a <= b)%Q.
Proof. rewrite Qle_bool_iff. split; intros H; lra. Qed.

Lemma num_sort_perm (l : list Q) : Permutation l (num_sort l).
Proof. apply stable_sort_perm. Qed.

Lemma num_sort_length (l : list Q) : List.length (num_sort l) = List.length l.
Proof. apply stable_sort_length. Qed.

Lemma num_sort_sorted (l : list Q) : StronglySorted Qle (num_sort l).
Proof.
  eapply StronglySorted_weaken; [| apply stable_sort_sorted].
  - intros a b H. cbv beta in H. now apply num_cmp_le.
  - intros x y. cbv beta. rewrite !num_cmp_le. lra.
  - intros x y z. cbv beta. rewrite !num_cmp_le. lra.
Qed.

Lemma sorted_nth_le (l : list Q) (i j : nat) :
  StronglySorted Qle l -> (i <= j)%nat -> (j < List.length l)%nat ->
  (nth i l 0 <= nth j l 0)%Q.
Proof.
  intros Hs Hij Hj. destruct (Nat.eq_dec i j) as [-> | N].
  - apply Qle_refl.
  - apply StronglySorted_nth_lt; auto. lia.
Qed.




(** ** Quartiles and median of the per-column statistics *)

Lemma calculateColumnStats_type (host : Host) (data : list DataRow)
  (col : string) :
  let nonNull := nonMissingValues data col in
  cs_type (calculateColumnStats host data col)
  = if (0 <? List.length nonNull)%nat && forallb is_number nonNull
    then "Numeric" else "Categorical".
Proof.
  unfold calculateColumnStats, nonMissingValues. cbv zeta.
  destruct (_ && _); reflexivity.
Qed.




(** *** Strings *)

Lemma string_compare_refl (s : string) : String.compare s s = Eq.
Proof.
  induction s as [| c s IH]; cbn; [reflexivity |].
  unfold Ascii.compare. now rewrite N.compare_refl.
Qed.

Lemma string_leb_refl (s : string) : String.leb s s = true.
Proof. unfold String.leb. now rewrite string_compare_refl. Qed.

Lemma string_leb_trans (s1 s2 s3 : string) :
  String.leb s1 s2 = true -> String.leb s2 s3 = true ->
  String.leb s1 s3 = true.
Proof.
  unfold String.leb. revert s2 s3.
  induction s1 as [| c1 s1 IH]; intros [| c2 s2] [| c3 s3]; cbn;
    try discriminate; auto.
  unfold Ascii.compare.
  destruct (N.compare_spec (N_of_ascii c1) (N_of_ascii c2)) as [E1 | L1 | G1];
    destruct (N.compare_spec (N_of_ascii c2) (N_of_ascii c3)) as [E2 | L2 | G2];
    try discriminate.
  - rewrite E1, E2, N.compare_refl. apply IH.
  - intros _ _. rewrite E1. apply N.compare_lt_iff in L2. now rewrite L2.
  - intros _ _. rewrite <- E2. apply N.compare_lt_iff in L1. now rewrite L1.
  - intros _ _.
    assert (L : (N_of_ascii c1 < N_of_ascii c3)%N) by lia.
    apply N.compare_lt_iff in L. now rewrite L.
Qed.

Lemma string_sort_sorted (l : list string) :
  StronglySorted (fun a b => String.leb a b = true) (Array_sort_default l).
Proof.
  apply stable_sort_sorted.
  - exact String.leb_total.
  - exact string_leb_trans.
Qed.

Lemma string_sort_length (l : list string) :
  List.length (Array_sort_default l) = List.length l.
Proof. apply stable_sort_length. Qed.

Lemma string_sort_twice (l : list string) :
  Array_sort_default (Array_sort_default l) = Array_sort_default l.
Proof. apply stable_sort_sorted_fix, string_sort_sorted. Qed.

Lemma sorted_first_is_min (l : list string) (m : string) :
  nth_error (Array_sort_default l) 0 = Some m -> lexicographic_min l m.
Proof.
  intros H. pose proof (string_sort_sorted l) as Hs.
  pose proof (stable_sort_perm String.leb l) as Hp.
  fold (Array_sort_default l) in Hp.
  destruct (Array_sort_default l) as [| x r]; [discriminate |].
  cbn in H. injection H as ->. split.
  - eapply Permutation_in; [symmetry; exact Hp | now left].
  - eapply Permutation_Forall; [symmetry; exact Hp |].
    inversion Hs; subst. constructor; [apply string_leb_refl | assumption].
Qed.

Lemma sorted_last_is_max (l : list string) (m : string) :
  nth_error (Array_sort_default l) (List.length (Array_sort_default l) - 1)
  = Some m ->
  lexicographic_max l m.
Proof.
  intros H. pose proof (string_sort_sorted l) as Hs.
  pose proof (stable_sort_perm String.leb l) as Hp.
  fold (Array_sort_default l) in Hp.
  set (sorted := Array_sort_default l) in *.
  assert (Hlt : (List.length sorted - 1 < List.length sorted)%nat)
    by (apply nth_error_Some; congruence).
  apply (nth_error_nth _ _ EmptyString) in H.
  split.
  - eapply Permutation_in; [symmetry; exact Hp |].
    rewrite <- H. now apply nth_In.
  - eapply Permutation_Forall; [symmetry; exact Hp |].
    apply Forall_forall. intros s Hin.
    destruct (In_nth _ _ EmptyString Hin) as (i & Hi & <-).
    rewrite <- H.
    destruct (Nat.eq_dec i (List.length sorted - 1)) as [-> | N].
    + apply string_leb_refl.
    + apply (StronglySorted_nth_lt _ EmptyString sorted Hs); lia.
Qed.

Lemma forallb_is_number (l : list value) :
  forallb is_number l = true <-> all_numbers l.
Proof.
  unfold all_numbers. rewrite forallb_forall, Forall_forall.
  split; intros H v Hin; specialize (H v Hin).
  - destruct v; try discriminate. eauto.
  - destruct H as [q ->]. reflexivity.
Qed.

(** C10: the per-column statistics call classifies a column as Numeric
    exactly when it has a non-missing value and all its non-missing
    values are numbers; in every other case, date strings and mixed
    columns included, it returns Categorical with the lexicographic
    minimum and maximum of the stringified non-missing values (none when
    there is no such value) and no numeric field; the type tag is never
    Date or Mixed. *)
Theorem C10_per_column_classification :
  forall (host : Host) (data : list DataRow) (col : string),
    let r := calculateColumnStats host data col in
    let nonNull := nonMissingValues data col in
    let strs := map (String_ host) nonNull in
    (cs_type r = "Numeric" <-> (nonNull <> [] /\ all_numbers nonNull))
    /\ (cs_type r = "Numeric"
        \/ (cs_type r = "Categorical"
            /\ cs_mean r = None /\ cs_median r = None
            /\ cs_stdDev r = None /\ cs_quartiles r = None
            /\ ((nonNull = [] /\ cs_min r = None /\ cs_max r = None)
                \/ exists mn mx : string,
                    cs_min r = Some (Str mn) /\ cs_max r = Some (Str mx)
                    /\ lexicographic_min strs mn
                    /\ lexicographic_max strs mx)))
    /\ cs_type r <> "Date" /\ cs_type r <> "Mixed"
    /\ cs_type (calculateColumnStats host
                  (single_column "c"
                     [VString "2023-01-01"; VString "2023-02-01"]) "c")
       = "Categorical"
    /\ cs_type (calculateColumnStats host
                  (single_column "c" [N_ 1; VString "a"; N_ 2]) "c")
       = "Categorical".
Proof.
  intros host data col r nonNull strs.
  pose proof (calculateColumnStats_type host data col) as Hty.
  cbv zeta in Hty. fold nonNull in Hty. fold r in Hty.
  assert (Hnum : (0 <? List.length nonNull)%nat && forallb is_number nonNull
                 = true <-> (nonNull <> [] /\ all_numbers nonNull)).
  { rewrite Bool.andb_true_iff, Nat.ltb_lt, forallb_is_number.
    destruct nonNull; cbn; split; intros [A B]; split; auto;
      try lia; congruence. }
  split; [| split; [| split; [| split; [| split]]]].
  - rewrite Hty, <- Hnum.
    destruct (_ && _); split; auto; discriminate.
  - destruct ((0 <? List.length nonNull)%nat && forallb is_number nonNull)
      eqn:E; [left; exact Hty | right].
    split; [exact Hty |].
    unfold r, calculateColumnStats. fold (nonMissingValues data col).
    fold nonNull. cbv zeta. rewrite E.
    cbn [cs_mean cs_median cs_stdDev cs_quartiles cs_min cs_max].
    fold strs. rewrite !string_sort_length.
    do 4 (split; [reflexivity |]).
    destruct (0 <? List.length strs)%nat eqn:L.
    + right. rewrite string_sort_twice.
      apply Nat.ltb_lt in L.
      pose proof (string_sort_length strs) as Hl.
      destruct (nth_error (Array_sort_default strs) 0) as [mn |] eqn:E0;
        [| apply nth_error_None in E0; lia].
      destruct (nth_error (Array_sort_default strs)
                  (List.length (Array_sort_default strs) - 1))
        as [mx |] eqn:E1; [| apply nth_error_None in E1; lia].
      exists mn, mx. cbn.
      split; [reflexivity |]. split; [reflexivity |].
      split; [now apply sorted_first_is_min | now apply sorted_last_is_max].
    + left. apply Nat.ltb_ge in L. unfold strs in L. rewrite length_map in L.
      split; [| split; reflexivity].
      destruct nonNull; [reflexivity | cbn in L; lia].
  - rewrite Hty. destruct (_ && _); discriminate.
  - rewrite Hty. destruct (_ && _); discriminate.
  - reflexivity.
  - reflexivity.
Qed.

(** ** Outliers *)

Lemma Qlt_bool_iff (x y : Q) : Qlt_bool x y = true <-> (x < y)%Q.
Proof.
  unfold Qlt_bool. rewrite Bool.negb_true_iff.
  destruct (Qle_bool y x) eqn:E.
  - apply Qle_bool_iff in E. split; [discriminate | intros; lra].
  - split; [intros _ | reflexivity].
    destruct (Qlt_le_dec x y) as [L | G]; [exact L |].
    apply Qle_bool_iff in G. congruence.
Qed.

Lemma Qlt_bool_compat (x x' y y' : Q) :
  (x == x')%Q -> (y == y')%Q -> Qlt_bool x y = Qlt_bool x' y'.
Proof.
  intros Hx Hy.
  destruct (Qlt_bool x y) eqn:E, (Qlt_bool x' y') eqn:F; auto.
  - apply Qlt_bool_iff in E. rewrite Hx, Hy in E.
    apply Qlt_bool_iff in E. congruence.
  - apply Qlt_bool_iff in F. rewrite <- Hx, <- Hy in F.
    apply Qlt_bool_iff in F. congruence.
Qed.

Lemma is_outlier_iff (q1 q3 v : Q) :
  is_outlier q1 q3 v = true <-> strictly_outside q1 q3 v.
Proof.
  unfold is_outlier, strictly_outside.
  now rewrite Bool.orb_true_iff, !Qlt_bool_iff.
Qed.

Lemma is_outlier_compat (a a' b b' v : Q) :
  (a == a')%Q -> (b == b')%Q -> is_outlier a b v = is_outlier a' b' v.
Proof.
  intros Ha Hb. unfold is_outlier. f_equal; apply Qlt_bool_compat;
    try reflexivity; rewrite Ha, Hb; reflexivity.
Qed.

Lemma or_zero_nearest_rank (l : list Q) (i : nat) :
  (or_zero (nth_error l i) == nearest_rank l i)%Q.
Proof.
  unfold or_zero, nearest_rank. destruct (nth_error l i) as [x |];
    [| reflexivity].
  destruct (Qeq_bool x 0) eqn:F; [| reflexivity].
  apply Qeq_bool_iff in F. now rewrite F.
Qed.

Lemma getOutlierCount_rule (nums : list Q) :
  let sorted := num_sort nums in
  getOutlierCount nums
    (or_zero (nth_error sorted (floor_quarter (List.length sorted))))
    (or_zero (nth_error sorted (floor_three_quarters (List.length sorted))))
  = outlier_count_rule nums.
Proof.
  cbv zeta. unfold getOutlierCount, outlier_count_rule, count_where.
  unfold floor_quarter, floor_three_quarters.
  apply filter_ext_length. intros v.
  apply is_outlier_compat; apply or_zero_nearest_rank.
Qed.

Lemma as_numbers_filter (l : list value) :
  as_numbers (filter is_number l) = as_numbers l.
Proof.
  induction l as [| v l IH]; [reflexivity |].
  destruct v; cbn; now rewrite ?IH.
Qed.

Lemma as_numbers_length (l : list value) :
  List.length (as_numbers l) = List.length (filter is_number l).
Proof.
  induction l as [| v l IH]; [reflexivity |].
  destruct v; cbn; now rewrite ?IH.
Qed.

(** The type tags and what each says about the counts. *)
Lemma detectType_numeric_or_mixed (host : Host) (nonNull : list value) :
  fst (detectType host nonNull) = "Numeric"
  \/ fst (detectType host nonNull) = "Mixed" ->
  (0 < List.length (filter is_number nonNull))%nat.
Proof.
  unfold detectType.
  destruct ((0 <? List.length (filter is_number nonNull))%nat
            && (List.length (filter is_string nonNull) =? 0)%nat) eqn:E1.
  { intros _. apply Bool.andb_true_iff in E1. now apply Nat.ltb_lt. }
  destruct (4 * List.length nonNull <? _)%nat.
  { cbn. intros [H | H]; discriminate. }
  destruct ((0 <? List.length (filter is_number nonNull))%nat
            && (0 <? List.length (filter is_string nonNull))%nat) eqn:E3.
  { intros _. apply Bool.andb_true_iff in E3. now apply Nat.ltb_lt. }
  cbn. intros [H | H]; discriminate.
Qed.

Lemma numericBranch_runs (host : Host) (ty : string) (nonNull : list value)
  (iss : list string) :
  ty = "Numeric" \/ ty = "Mixed" ->
  (0 < List.length (filter is_number nonNull))%nat ->
  let count := outlier_count_rule (as_numbers nonNull) in
  exists ns,
    numericBranch host ty nonNull iss
    = (iss ++ (if (0 <? count)%nat then [outlier_issue count] else []), Some ns)
    /\ ns_outliers ns = count
    /\ ns_median ns = getMedian (as_numbers nonNull)
    /\ ns_mode ns = getMode host (map VNumber (as_numbers nonNull)).
Proof.
  intros Hty Hn. cbv zeta. unfold numericBranch.
  rewrite as_numbers_filter, as_numbers_length.
  apply Nat.ltb_lt in Hn. rewrite Hn.
  replace (String.eqb ty "Numeric" || (String.eqb ty "Mixed" && true))
    with true by (destruct Hty as [-> | ->]; reflexivity).
  rewrite getOutlierCount_rule.
  eexists. split; [| split; [| split]].
  - destruct (0 <? outlier_count_rule (as_numbers nonNull))%nat.
    + reflexivity.
    + rewrite app_nil_r. reflexivity.
  - destruct (0 <? outlier_count_rule (as_numbers nonNull))%nat; reflexivity.
  - destruct (0 <? outlier_count_rule (as_numbers nonNull))%nat; reflexivity.
  - destruct (0 <? outlier_count_rule (as_numbers nonNull))%nat; reflexivity.
Qed.




(** ** The mode *)

Lemma Set_of_strings_in (l : list string) :
  forall (s : list string) (k : string),
    In k (fold_left (Set_add String.eqb) l s) <-> In k s \/ In k l.
Proof.
  induction l as [| x l IH]; intros s k; cbn [fold_left].
  - cbn. tauto.
  - rewrite IH. unfold Set_add, Set_has.
    destruct (existsb (String.eqb x) s) eqn:E.
    + apply existsb_exists in E. destruct E as (y & Hy & Exy).
      apply String.eqb_eq in Exy. subst y. cbn. split; [tauto |].
      intros [H | [<- | H]]; auto.
    + rewrite in_app_iff. cbn. tauto.
Qed.

Lemma mode_keys_in (host : Host) (values : list value) (k : string) :
  In k (mode_keys host values) <-> In k (map (String_ host) values).
Proof.
  unfold mode_keys, Set_of. rewrite Set_of_strings_in. cbn. tauto.
Qed.

Lemma obj_set_keys {A : Type} (k : string) (v : A) (o : JsObject A) :
  map fst (obj_set k v o) = Set_add String.eqb (map fst o) k.
Proof.
  unfold Set_add, Set_has.
  induction o as [| [k' v'] r IH]; cbn; [reflexivity |].
  destruct (String.eqb k k'); cbn; [reflexivity |].
  rewrite IH. destruct (existsb (String.eqb k) (map fst r)); reflexivity.
Qed.

Lemma obj_get_set {A : Type} (k k0 : string) (v : A) (o : JsObject A) :
  obj_get k0 (obj_set k v o) = if String.eqb k0 k then Some v else obj_get k0 o.
Proof.
  destruct (String.eqb k0 k) eqn:E.
  - apply String.eqb_eq in E. subst. apply obj_get_set_same.
  - apply String.eqb_neq in E. now apply obj_get_set_other.
Qed.

Lemma frequency_snoc (host : Host) (p : list value) (v : value) (k : string) :
  frequency host (p ++ [v]) k
  = (frequency host p k
     + (if String.eqb (String_ host v) k then 1 else 0))%nat.
Proof.
  unfold frequency, count_where. rewrite filter_app, length_app. cbn.
  destruct (String.eqb (String_ host v) k); reflexivity.
Qed.

Lemma frequency_pos (host : Host) (p : list value) (k : string) :
  (0 < frequency host p k)%nat <-> In k (map (String_ host) p).
Proof.
  unfold frequency, count_where.
  induction p as [| v p IH]; cbn; [split; [lia | tauto] |].
  destruct (String.eqb (String_ host v) k) eqn:E; cbn.
  - apply String.eqb_eq in E. split; [auto | lia].
  - apply String.eqb_neq in E. rewrite IH. split; [auto |].
    intros [H | H]; [contradiction | exact H].
Qed.

Lemma mode_inv_step (host : Host) (p : list value) (st : JsObject nat * nat)
  (v : value) :
  mode_inv host p st -> mode_inv host (p ++ [v]) (mode_step host st v).
Proof.
  destruct st as [counts mf]. intros (Hk & Hg & Hub & Hat). cbn [fst snd] in *.
  unfold mode_step. cbv zeta. set (key := String_ host v).
  assert (Hn : (match obj_get key counts with Some c => c | None => 0 end + 1
                = frequency host (p ++ [v]) key)%nat).
  { rewrite frequency_snoc, Hg. fold key. rewrite String.eqb_refl.
    destruct (frequency host p key =? 0)%nat eqn:E; [| reflexivity].
    apply Nat.eqb_eq in E. now rewrite E. }
  rewrite Hn. set (n := frequency host (p ++ [v]) key) in *.
  assert (Hn' : (n = frequency host p key + 1)%nat).
  { unfold n. rewrite frequency_snoc. fold key.
    now rewrite String.eqb_refl. }
  unfold mode_inv. cbn [fst snd]. split; [| split; [| split]].
  - rewrite obj_set_keys, Hk. unfold mode_keys, Set_of.
    rewrite map_app, fold_left_app. reflexivity.
  - intros k. rewrite obj_get_set, Hg, (frequency_snoc host p v k). fold key.
    rewrite (String.eqb_sym k key).
    destruct (String.eqb key k) eqn:E.
    + apply String.eqb_eq in E. subst k. rewrite <- Hn'.
      replace (n =? 0)%nat with false; [reflexivity |].
      symmetry. apply Nat.eqb_neq. lia.
    + now rewrite Nat.add_0_r.
  - intros k. rewrite (frequency_snoc host p v k). fold key.
    specialize (Hub k).
    destruct (String.eqb key k) eqn:E.
    + apply String.eqb_eq in E. subst k.
      destruct (mf <? n)%nat eqn:L; [lia |]. apply Nat.ltb_ge in L. lia.
    + destruct (mf <? n)%nat eqn:L; [apply Nat.ltb_lt in L |]; lia.
  - right. destruct (mf <? n)%nat eqn:L.
    + exists key. split; [reflexivity | lia].
    + apply Nat.ltb_ge in L.
      destruct Hat as [[-> ->] | (k & Ek & Pk)]; [lia |].
      exists k. split; [| exact Pk].
      rewrite frequency_snoc. fold key.
      destruct (String.eqb key k) eqn:E; [| lia].
      apply String.eqb_eq in E. subst k. lia.
Qed.

Lemma mode_inv_fold (host : Host) (l : list value) :
  forall (p : list value) (st : JsObject nat * nat),
    mode_inv host p st ->
    mode_inv host (p ++ l) (fold_left (mode_step host) l st).
Proof.
  induction l as [| v l IH]; intros p st H; cbn [fold_left].
  - now rewrite app_nil_r.
  - replace (p ++ v :: l) with ((p ++ [v]) ++ l)
      by (now rewrite <- app_assoc).
    apply IH, mode_inv_step, H.
Qed.

Lemma mode_inv_init (host : Host) : mode_inv host [] ([], 0%nat).
Proof.
  repeat split; cbn; auto.
Qed.

Lemma in_list_max (l : list nat) (x : nat) : In x l -> (x <= list_max l)%nat.
Proof.
  intros H. assert (F : Forall (fun k => (k <= list_max l)%nat) l)
    by (apply list_max_le; lia).
  rewrite Forall_forall in F. auto.
Qed.

Lemma mode_inv_max (host : Host) (p : list value) (st : JsObject nat * nat) :
  mode_inv host p st -> snd st = max_frequency host p.
Proof.
  intros (_ & _ & Hub & Hat). unfold max_frequency. apply Nat.le_antisymm.
  - destruct Hat as [[-> ->] | (k & Ek & Pk)]; [cbn; lia |].
    rewrite <- Ek. apply in_list_max, in_map.
    apply mode_keys_in, frequency_pos. lia.
  - apply list_max_le, Forall_forall. intros x Hx.
    apply in_map_iff in Hx. destruct Hx as (k & <- & _). apply Hub.
Qed.

(** *** Own-property order *)

Lemma filter_partition_perm {A : Type} (p : A -> bool) (l : list A) :
  Permutation (filter p l ++ filter (fun x => negb (p x)) l) l.
Proof.
  induction l as [| x l IH]; cbn; [constructor |].
  destruct (p x); cbn.
  - now constructor.
  - rewrite <- Permutation_middle. now constructor.
Qed.

Lemma own_keys_perm (ks : list string) : Permutation (own_keys ks) ks.
Proof.
  unfold own_keys.
  rewrite <- (stable_sort_perm _ (filter is_array_index ks)).
  apply filter_partition_perm.
Qed.


Lemma getMode_key_order (host : Host) (values : list value) :
  getMode host values = mode_in_key_order host values.
Proof.
  unfold getMode, mode_in_key_order, modes_in_order.
  destruct values as [| v0 values]; [reflexivity |].
  cbn [List.length Nat.eqb].
  pose proof (mode_inv_fold host (v0 :: values) [] _ (mode_inv_init host))
    as Hinv.
  cbn [app] in Hinv.
  pose proof (mode_inv_max host _ _ Hinv) as Hmax.
  destruct (fold_left (mode_step host) (v0 :: values) ([], 0%nat))
    as [counts maxFreq].
  destruct Hinv as (Hk & Hg & _ & _). cbn [fst snd] in *.
  unfold Object_keys. rewrite Hk. do 2 f_equal.
  apply filter_ext_in. intros k Hin.
  apply (Permutation_in _ (own_keys_perm _)) in Hin.
  apply mode_keys_in, frequency_pos in Hin.
  rewrite Hg. unfold attains_max. rewrite <- Hmax.
  destruct (frequency host (v0 :: values) k =? 0)%nat eqn:E; [| reflexivity].
  apply Nat.eqb_eq in E. lia.
Qed.



(** ** Duplicate rows *)

Lemma Set_add_has_strings (seen : list string) (x s : string) :
  Set_has String.eqb (Set_add String.eqb seen x) s
  = Set_has String.eqb seen s || String.eqb s x.
Proof.
  unfold Set_add. destruct (Set_has String.eqb seen x) eqn:E.
  - destruct (String.eqb s x) eqn:F; [| now rewrite Bool.orb_false_r].
    apply String.eqb_eq in F. subst s. now rewrite E.
  - unfold Set_has. rewrite existsb_app. cbn. now rewrite Bool.orb_false_r.
Qed.

Lemma existsb_map_compose {A B : Type} (f : B -> bool) (g : A -> B)
  (l : list A) :
  existsb f (map g l) = existsb (fun x => f (g x)) l.
Proof.
  induction l as [| x l IH]; cbn; [reflexivity |]. now rewrite IH.
Qed.

Lemma existsb_snoc {A : Type} (p : A -> bool) (l : list A) (x : A) :
  existsb p (l ++ [x]) = existsb p l || p x.
Proof. rewrite existsb_app. cbn. now rewrite Bool.orb_false_r. Qed.

Lemma duplicate_fold (host : Host) (l : list DataRow) :
  forall (seen : list string) (d : nat) (prefix : list DataRow),
    (forall s, Set_has String.eqb seen s
               = existsb (String.eqb s) (map (JSON_stringify host) prefix)) ->
    snd (fold_left (duplicate_step host) l (seen, d))
    = (d + repeats (same_json host) prefix l)%nat.
Proof.
  induction l as [| row l IH]; intros seen d prefix Hseen; cbn [fold_left repeats].
  - cbn. lia.
  - assert (Hex : existsb (same_json host row) prefix
                  = Set_has String.eqb seen (JSON_stringify host row)).
    { rewrite Hseen, existsb_map_compose. reflexivity. }
    unfold duplicate_step at 2. rewrite Hex.
    destruct (Set_has String.eqb seen (JSON_stringify host row)) eqn:E.
    + rewrite (IH seen (S d) (prefix ++ [row])); [lia |].
      intros s. rewrite Hseen, map_app. cbn [map]. rewrite existsb_snoc.
      destruct (String.eqb s (JSON_stringify host row)) eqn:F;
        [| now rewrite Bool.orb_false_r].
      apply String.eqb_eq in F. subst s. rewrite Bool.orb_true_r.
      rewrite <- E. now rewrite Hseen.
    + rewrite (IH _ d (prefix ++ [row])); [lia |].
      intros s. rewrite Set_add_has_strings, Hseen, map_app. cbn [map].
      rewrite existsb_snoc. reflexivity.
Qed.

Lemma countDuplicateRows_repeats (host : Host) (data : list DataRow) :
  countDuplicateRows host data = repeats (same_json host) [] data.
Proof.
  unfold countDuplicateRows. rewrite (duplicate_fold host data [] 0 []).
  - reflexivity.
  - reflexivity.
Qed.

Lemma repeats_le {A : Type} (same : A -> A -> bool) (l : list A) :
  forall seen, (repeats same seen l <= List.length l)%nat.
Proof.
  induction l as [| x l IH]; intros seen; cbn; [lia |].
  specialize (IH (seen ++ [x])). destruct (existsb (same x) seen); lia.
Qed.

Lemma string_append_inv_head (s a b : string) :
  (s ++ a)%string = (s ++ b)%string -> a = b.
Proof.
  induction s as [| c s IH]; cbn; [auto |].
  intros H. injection H as H. auto.
Qed.

Lemma string_append_assoc (a b c : string) :
  ((a ++ b) ++ c)%string = (a ++ (b ++ c))%string.
Proof.
  induction a as [| x a IH]; cbn; [reflexivity |]. now rewrite IH.
Qed.

Lemma own_keys_single (k : string) : own_keys [k] = [k].
Proof.
  unfold own_keys. cbn. destruct (is_array_index k); reflexivity.
Qed.

Lemma JSON_stringify_single (host : Host) (k : string) (v : value) :
  JSON_stringify host [(k, v)]
  = match JSON_value host v with
    | Some s => ("{" ++ (JSON_quote k ++ ":" ++ s) ++ "}")%string
    | None => "{}"
    end.
Proof.
  unfold JSON_stringify, Object_keys. cbn [map fst].
  rewrite own_keys_single. cbn [map]. unfold JSON_member. cbn [obj_get].
  rewrite String.eqb_refl. destruct (JSON_value host v); reflexivity.
Qed.

(** C2, as amended: duplicateRows counts exactly the rows whose JSON text
    (own keys in property order, undefined properties omitted) is that of
    an earlier row in scan order; a first occurrence is never counted; a
    numeric 5 and the text "5" are distinct; rows with the same keys and
    values created in a different key order are not detected as
    duplicates of each other. *)
Theorem C2_duplicates_by_json_text :
  forall (host : Host) (data : list DataRow) (cols : list string),
    duplicateRows (generateGlobalAnalysis host data cols)
    = repeats (same_json host) [] data
    /\ (duplicateRows (generateGlobalAnalysis host data cols)
        <= List.length data - 1)%nat
    /\ (forall k : string,
           countDuplicateRows host [[(k, N_ 5)]; [(k, VString "5")]] = 0%nat)
    /\ countDuplicateRows host
         [[("a", N_ 1); ("b", N_ 2)]; [("a", N_ 1); ("b", N_ 2)];
          [("a", N_ 3); ("b", N_ 4)]] = 1%nat
    /\ countDuplicateRows host
         [[("a", N_ 1); ("b", N_ 2)]; [("b", N_ 2); ("a", N_ 1)]] = 0%nat.
Proof.
  intros host data cols.
  assert (E : duplicateRows (generateGlobalAnalysis host data cols)
              = repeats (same_json host) [] data)
    by apply countDuplicateRows_repeats.
  split; [exact E |].
  split.
  { rewrite E. destruct data as [| r data]; [cbn; lia |].
    cbn [repeats existsb List.length app].
    pose proof (repeats_le (same_json host) data [r]). lia. }
  split.
  { intros k. rewrite countDuplicateRows_repeats.
    cbn [repeats existsb app]. unfold same_json.
    rewrite !JSON_stringify_single.
    replace (JSON_value host (N_ 5)) with (Some "5") by reflexivity.
    cbn [JSON_value].
    destruct (String.eqb _ _) eqn:F; [| reflexivity].
    apply String.eqb_eq in F. injection F as F.
    rewrite !string_append_assoc in F.
    apply string_append_inv_head in F. discriminate. }
  split; reflexivity.
Qed.

(** C2 as stated fails: two rows with the same keys and values, created
    in a different key order, have the same content but are not counted
    as duplicates. *)
Lemma C2_counterexample :
  let data := [[("a", N_ 1); ("b", N_ 2)]; [("b", N_ 2); ("a", N_ 1)]] in
  repeats same_content [] data = 1%nat
  /\ duplicateRows (generateGlobalAnalysis default_host data ["a"; "b"])
     = 0%nat.
Proof.
  split; vm_compute; reflexivity.
Qed.

(** ** Dates *)

Lemma digit_char_cases (n : Z) :
  exists k : nat, (k < 10)%nat /\ digit_char n = ascii_of_nat (48 + k).
Proof.
  unfold digit_char. exists (Z.to_nat (n mod 10)). split; [| reflexivity].
  pose proof (Z.mod_pos_bound n 10). lia.
Qed.

Lemma digit_char_is_digit (n : Z) : is_digit (digit_char n) = true.
Proof.
  destruct (digit_char_cases n) as (k & Hk & ->).
  do 10 (destruct k as [| k]; [reflexivity |]). lia.
Qed.

Lemma digit_char_not_T (n : Z) : Ascii.eqb "T" (digit_char n) = false.
Proof.
  destruct (digit_char_cases n) as (k & Hk & ->).
  do 10 (destruct k as [| k]; [reflexivity |]). lia.
Qed.

Lemma split_head_append (c : ascii) (a b : string) :
  includes c a = false -> split_head c (a ++ String c b) = a.
Proof.
  induction a as [| x a IH]; cbn.
  - intros _. now rewrite Ascii.eqb_refl.
  - intros H. apply Bool.orb_false_iff in H. destruct H as [H1 H2].
    rewrite H1. now rewrite IH.
Qed.

Lemma includes_append (c : ascii) (a b : string) :
  includes c (a ++ b) = includes c a || includes c b.
Proof.
  induction a as [| x a IH]; cbn; [reflexivity |].
  now rewrite IH, Bool.orb_assoc.
Qed.

Lemma pad2_no_T (n : Z) : includes "T" (pad2 n) = false.
Proof. unfold pad2, str1. cbn [includes]. now rewrite !digit_char_not_T. Qed.

Lemma iso_year_no_T (y : Z) : includes "T" (iso_year y) = false.
Proof.
  unfold iso_year, pad6, pad4, pad3, pad2, str1.
  destruct (_ && _); [| destruct (y <? 0)%Z]; cbn [includes];
    rewrite !digit_char_not_T; reflexivity.
Qed.

Lemma iso_date_no_T (t : Z) : includes "T" (iso_date t) = false.
Proof.
  unfold iso_date. destruct (civil_from_days _) as [[y m] d].
  rewrite !includes_append, iso_year_no_T, !pad2_no_T. reflexivity.
Qed.

(** [d.toISOString().split('T')[0]] is the UTC calendar date. *)
Lemma toISOString_date (t : Z) : split_head "T" (toISOString t) = iso_date t.
Proof.
  pose proof (iso_date_no_T t) as H.
  unfold toISOString, iso_date in *.
  destruct (civil_from_days _) as [[y m] d].
  set (ms := (t mod msPerDay)%Z).
  set (rest := (pad2 (ms / 3600000) ++ ":" ++ pad2 (ms / 60000 mod 60) ++ ":"
                ++ pad2 (ms / 1000 mod 60) ++ "." ++ pad3 (ms mod 1000)
                ++ "Z")%string).
  transitivity
    (split_head "T"
       ((iso_year y ++ "-" ++ pad2 m ++ "-" ++ pad2 d) ++ String "T" rest)).
  - f_equal. rewrite !string_append_assoc. reflexivity.
  - apply split_head_append. exact H.
Qed.

Lemma iso_date_shape (t : Z) :
  is_YYYY_MM_DD (iso_date t)
  = (0 <=? utc_year t)%Z && (utc_year t <=? 9999)%Z.
Proof.
  unfold iso_date, utc_year. destruct (civil_from_days _) as [[y m] d].
  cbn [fst]. unfold iso_year.
  destruct ((0 <=? y)%Z && (y <=? 9999)%Z).
  - unfold is_YYYY_MM_DD, pad4, pad3, pad2, str1.
    cbn [append list_ascii_of_string].
    now rewrite !digit_char_is_digit.
  - destruct (y <? 0)%Z; reflexivity.
Qed.

Lemma date_cmp_le (a b : Z) :
  Qle_bool (inject_Z (a - b)) 0 = true <-> (a <= b)%Z.
Proof.
  rewrite Qle_bool_iff. unfold Qle, inject_Z. cbn. lia.
Qed.

Lemma dateValuesOf_perm (host : Host) (nonNull : list value) :
  Permutation (parsed_times host nonNull) (dateValuesOf host nonNull).
Proof. apply stable_sort_perm. Qed.

Lemma dateValuesOf_sorted (host : Host) (nonNull : list value) :
  StronglySorted Z.le (dateValuesOf host nonNull).
Proof.
  eapply StronglySorted_weaken; [| apply stable_sort_sorted].
  - intros a b H. cbv beta in H. now apply date_cmp_le.
  - intros x y. cbv beta. rewrite !date_cmp_le. lia.
  - intros x y z. cbv beta. rewrite !date_cmp_le. lia.
Qed.

Lemma last_is_nth {A : Type} (d : A) (l : list A) :
  last l d = nth (List.length l - 1) l d.
Proof.
  induction l as [| x l IH]; [reflexivity |].
  destruct l as [| y r]; [reflexivity |].
  change (last (x :: y :: r) d) with (last (y :: r) d). rewrite IH.
  cbn [List.length]. replace (S (S (List.length r)) - 1)%nat
    with (S (S (List.length r) - 1))%nat by lia.
  reflexivity.
Qed.

Lemma sorted_Z_bounds (x : Z) (l : list Z) :
  StronglySorted Z.le (x :: l) ->
  Forall (fun t => (x <= t <= last (x :: l) x)%Z) (x :: l).
Proof.
  intros Hs. apply Forall_forall. intros t Hin.
  destruct (In_nth _ _ x Hin) as (i & Hi & <-).
  rewrite last_is_nth. split.
  - destruct i as [| i]; [cbn; lia |].
    change x with (nth 0 (x :: l) x) at 1.
    apply (StronglySorted_nth_lt Z.le x (x :: l) Hs); lia.
  - destruct (Nat.eq_dec i (List.length (x :: l) - 1)) as [-> | N]; [lia |].
    apply (StronglySorted_nth_lt Z.le x (x :: l) Hs); lia.
Qed.

Lemma in_somes {A : Type} (l : list (option A)) (x : A) :
  In x (somes l) <-> In (Some x) l.
Proof.
  induction l as [| [y |] l IH]; cbn; [tauto | |].
  - rewrite IH. split; intros [H | H]; auto; left; congruence.
  - rewrite IH. split; [auto | intros [H | H]; [discriminate | auto]].
Qed.

Lemma detectType_date (host : Host) (nonNull : list value) :
  fst (detectType host nonNull) = "Date" ->
  exists (s : string) (t : Z),
    In (VString s) nonNull /\ Date_parse host s = Some t.
Proof.
  unfold detectType.
  destruct (_ && _); [cbn; discriminate |].
  destruct (4 * List.length nonNull <? _)%nat eqn:E.
  - intros _. apply Nat.ltb_lt in E.
    destruct (filter (looks_like_date host) nonNull) as [| v r] eqn:F;
      [cbn in E; lia |].
    assert (Hin : In v (filter (looks_like_date host) nonNull))
      by (rewrite F; now left).
    apply filter_In in Hin. destruct Hin as [Hin Hv].
    destruct v as [q | s | |]; try discriminate.
    cbn in Hv. destruct (Date_parse host s) as [t |] eqn:P; [| discriminate].
    exists s, t. auto.
  - destruct (_ && _); cbn; discriminate.
Qed.

Lemma analyzeColumn_dateStats (host : Host) (data : list DataRow)
  (col : string) :
  ca_dateStats (analyzeColumn host data col)
  = dateBranch host (ca_type (analyzeColumn host data col))
      (nonMissingValues data col).
Proof.
  unfold analyzeColumn, nonMissingValues.
  destruct (detectType host _) as [ty iss].
  destruct (numericBranch host ty _ iss) as [iss' ns]. reflexivity.
Qed.

Lemma dateBranch_date (host : Host) (nonNull : list value) :
  dateBranch host "Date" nonNull
  = match dateValuesOf host nonNull with
    | [] => None
    | first :: rest =>
        Some {| ds_min := iso_date first;
                ds_max := iso_date (last (first :: rest) first);
                ds_invalidCount :=
                  (List.length nonNull
                   - List.length (parsed_times host nonNull))%nat |}
    end.
Proof.
  unfold dateBranch. cbn [String.eqb Ascii.eqb Bool.eqb].
  change (String.eqb "Date" "Date") with true. cbv iota.
  pose proof (dateValuesOf_perm host nonNull) as Hp.
  destruct (dateValuesOf host nonNull) as [| first rest]; [reflexivity |].
  rewrite !toISOString_date.
  now rewrite (Permutation_length Hp).
Qed.

(** C5, as amended: for every column whose inferred type is Date, at
    least one non-missing text value converts to a date and dateStats is
    present; invalidCount is the non-missing count minus the number of
    non-missing values whose string conversion parses as a date; min and
    max are the earliest and latest parsed dates, each formatted as the
    UTC calendar date without time component, which has the shape
    YYYY-MM-DD exactly when the UTC year is within 0..9999 (otherwise the
    year is written with a sign and six digits); dateStats is omitted,
    not zero-filled, exactly when no value parses. *)
Theorem C5_date_statistics :
  forall (host : Host) (data : list DataRow) (col : string),
    ca_type (analyzeColumn host data col) = "Date" ->
    let nonNull := nonMissingValues data col in
    let times := parsed_times host nonNull in
    (exists (text : string) (t : Z),
        In (VString text) nonNull /\ Date_parse host text = Some t)
    /\ (exists (ds : DateStats) (tmin tmax : Z),
           ca_dateStats (analyzeColumn host data col) = Some ds
           /\ ds_invalidCount ds
              = (List.length nonNull - List.length times)%nat
           /\ In tmin times /\ In tmax times
           /\ Forall (fun t => (tmin <= t <= tmax)%Z) times
           /\ ds_min ds = iso_date tmin
           /\ ds_max ds = iso_date tmax
           /\ is_YYYY_MM_DD (ds_min ds)
              = (0 <=? utc_year tmin)%Z && (utc_year tmin <=? 9999)%Z
           /\ is_YYYY_MM_DD (ds_max ds)
              = (0 <=? utc_year tmax)%Z && (utc_year tmax <=? 9999)%Z)
    /\ (forall cells : list value,
           dateBranch host "Date" cells = None
           <-> parsed_times host cells = []).
Proof.
  intros host data col Hty nonNull times.
  pose proof Hty as Hd. rewrite analyzeColumn_type in Hd.
  apply detectType_date in Hd. destruct Hd as (s & t & Hin & Hp).
  fold nonNull in Hin.
  split; [exists s, t; auto |].
  split.
  - rewrite analyzeColumn_dateStats, Hty, dateBranch_date. fold nonNull.
    pose proof (dateValuesOf_perm host nonNull) as Hperm.
    pose proof (dateValuesOf_sorted host nonNull) as Hsorted.
    fold times in Hperm |- *.
    assert (Ht : In t times).
    { unfold times, parsed_times. apply in_somes.
      apply in_map_iff. exists (VString s). auto. }
    destruct (dateValuesOf host nonNull) as [| first rest].
    { apply Permutation_sym, Permutation_nil in Hperm.
      rewrite Hperm in Ht. contradiction. }
    pose proof (sorted_Z_bounds first rest Hsorted) as Hb.
    eexists _, first, (last (first :: rest) first).
    split; [reflexivity |]. cbn [ds_min ds_max ds_invalidCount].
    split; [reflexivity |].
    split; [eapply Permutation_in; [symmetry; exact Hperm | now left] |].
    split.
    { eapply Permutation_in; [symmetry; exact Hperm |].
      rewrite last_is_nth. apply nth_In. cbn. lia. }
    split; [eapply Permutation_Forall; [symmetry; exact Hperm | exact Hb] |].
    split; [reflexivity |]. split; [reflexivity |].
    split; apply iso_date_shape.
  - intros cells. rewrite dateBranch_date.
    pose proof (dateValuesOf_perm host cells) as Hperm.
    destruct (dateValuesOf host cells) as [| first rest].
    + apply Permutation_sym, Permutation_nil in Hperm. tauto.
    + split; [discriminate |]. intros E. rewrite E in Hperm.
      apply Permutation_nil in Hperm. discriminate.
Qed.

Lemma C5_date_statistics_witness :
  let host := default_host in
  let data := single_column "c" [VString "2023-01-01"; VString "2023-02-01"] in
  let nonNull := nonMissingValues data "c" in
  let times := parsed_times host nonNull in
  (exists (text : string) (t : Z),
      In (VString text) nonNull /\ Date_parse host text = Some t)
  /\ (exists (ds : DateStats) (tmin tmax : Z),
         ca_dateStats (analyzeColumn host data "c") = Some ds
         /\ ds_invalidCount ds
            = (List.length nonNull - List.length times)%nat
         /\ In tmin times /\ In tmax times
         /\ Forall (fun t => (tmin <= t <= tmax)%Z) times
         /\ ds_min ds = iso_date tmin
         /\ ds_max ds = iso_date tmax
         /\ is_YYYY_MM_DD (ds_min ds)
            = (0 <=? utc_year tmin)%Z && (utc_year tmin <=? 9999)%Z
         /\ is_YYYY_MM_DD (ds_max ds)
            = (0 <=? utc_year tmax)%Z && (utc_year tmax <=? 9999)%Z)
  /\ (forall cells : list value,
         dateBranch host "Date" cells = None
         <-> parsed_times host cells = []).
Proof.
  apply (C5_date_statistics default_host
           (single_column "c" [VString "2023-01-01"; VString "2023-02-01"])
           "c").
  vm_compute. reflexivity.
Defined.

(** C5 as stated fails: the date of year 10000 is a valid non-missing
    text value of a Date column, and its min and max are written
    [+010000-01-01], which is not of the shape YYYY-MM-DD. *)
Lemma C5_counterexample :
  let r := analyzeColumn default_host
             (single_column "c" [VString "+010000-01-01"]) "c" in
  ca_type r = "Date"
  /\ ca_dateStats r
     = Some {| ds_min := "+010000-01-01";
               ds_max := "+010000-01-01";
               ds_invalidCount := 0 |}
  /\ is_YYYY_MM_DD "+010000-01-01" = false.
Proof.
  split; [vm_compute; reflexivity |].
  split; vm_compute; reflexivity.
Qed.

(** ** The store-based program computes the same report and changes no
    array it was given *)

Lemma map_proj_inj {A : Type} `{Imp.Elem A} (l : list A) :
  map Imp.proj (map Imp.inj l) = l.
Proof.
  induction l as [| x l IH]; cbn [map]; [reflexivity |].
  now rewrite Imp.proj_inj, IH.
Qed.

Lemma nth_length_app {X : Type} (h L : list X) (d : X) :
  nth (List.length h) (h ++ L) d = nth 0 L d.
Proof. rewrite app_nth2 by lia. now rewrite Nat.sub_diag. Qed.

Lemma list_update_app {X : Type} (h L : list X) (k : nat) (x : X) :
  Imp.list_update (List.length h + k) x (h ++ L) = h ++ Imp.list_update k x L.
Proof.
  induction h as [| y h IH]; cbn; [reflexivity |]. now rewrite IH.
Qed.

Lemma list_update_length_app {X : Type} (h L : list X) (x : X) :
  Imp.list_update (List.length h) x (h ++ L) = h ++ Imp.list_update 0 x L.
Proof. rewrite <- (Nat.add_0_r (List.length h)). apply list_update_app. Qed.

Lemma cast_numbers (l : list value) :
  map (Imp.proj (A := Q)) (map (Imp.inj (A := value)) (filter is_number l))
  = as_numbers (filter is_number l).
Proof.
  induction l as [| v l IH]; [reflexivity |].
  destruct v; cbn in *; now rewrite ?IH.
Qed.

Lemma cast_numbers_inj (l : list value) :
  map (Imp.inj (A := value)) (filter is_number l)
  = map (Imp.inj (A := Q)) (as_numbers (filter is_number l)).
Proof.
  induction l as [| v l IH]; [reflexivity |].
  destruct v; cbn in *; now rewrite ?IH.
Qed.

Lemma numbers_as_values (l : list value) :
  map VNumber (as_numbers (filter is_number l)) = filter is_number l.
Proof.
  induction l as [| v l IH]; [reflexivity |].
  destruct v; cbn in *; now rewrite ?IH.
Qed.

Lemma cast_times (l : list (option Z)) :
  map (Imp.proj (A := Z))
    (map (Imp.inj (A := option Z))
       (filter (fun d => match d with Some _ => true | None => false end) l))
  = somes l.
Proof.
  induction l as [| [t |] l IH]; cbn in *; now rewrite ?IH.
Qed.

Lemma number_at_nth (l : list Q) (i : nat) :
  Imp.number_at (nth_error l i) = nth i l 0%Q.
Proof.
  unfold Imp.number_at. destruct (nth_error l i) eqn:E.
  - symmetry. now apply nth_error_nth.
  - apply nth_error_None in E. now rewrite nth_overflow.
Qed.

Lemma pos_not_zero (n : nat) : (0 <? n)%nat = true -> (n =? 0)%nat = false.
Proof. intros H. apply Nat.ltb_lt in H. apply Nat.eqb_neq. lia. Qed.

Ltac heap_norm :=
  repeat (rewrite <- app_assoc; cbn [app]);
  repeat first
    [ rewrite length_app
    | rewrite <- Nat.add_assoc
    | rewrite app_nth2_plus
    | rewrite nth_length_app
    | rewrite list_update_app
    | rewrite list_update_length_app
    | rewrite map_proj_inj
    | rewrite cast_numbers
    | rewrite cast_times
    | progress cbn [List.length app nth Imp.list_update Nat.add] ].

Ltac imp_unfold :=
  cbv beta iota zeta delta
    [Imp.run Imp.bind Imp.ret Imp.contents Imp.new_array Imp.assign
     Imp.arr_length Imp.arr_get Imp.arr_copy Imp.arr_filter Imp.arr_slice
     Imp.arr_sort Imp.arr_push Imp.arr_reduce Imp.arr_map Imp.cast refines].

Ltac imp_exec := repeat (progress (imp_unfold; heap_norm)).

Ltac imp_case :=
  match goal with
  | |- context [(if ?b then _ else _) _] => destruct b eqn:?
  end.

Ltac imp_known :=
  repeat match goal with
  | E : (0 <? ?n)%nat = true |- context [(?n =? 0)%nat] =>
      rewrite (pos_not_zero n E)
  end.

(** [forEach] with a callback that only updates its captured variables. *)
Lemma forEach_from_pure {A T : Type} `{Imp.Elem A} (g : T -> A -> T)
  (a : Imp.arr A) (s : Imp.Store) (n : nat) :
  forall (i : nat) (st : T),
    Imp.forEach_from (fun st v s0 => (g st v, s0)) a i n st s
    = (fold_left g (firstn n (skipn i (map Imp.proj (nth a s [])))) st, s).
Proof.
  induction n as [| n IH]; intros i st; [reflexivity |].
  cbn [Imp.forEach_from]. unfold Imp.bind at 1. unfold Imp.arr_get at 1.
  unfold Imp.bind at 1. unfold Imp.contents at 1. unfold Imp.ret at 1.
  set (l := map Imp.proj (nth a s [])) in *.
  destruct (nth_error l i) as [e |] eqn:E.
  - unfold Imp.bind at 1.
    rewrite IH. f_equal.
    assert (Hs : skipn i l = e :: skipn (S i) l).
    { clear -E. revert i E. induction l as [| x l IHl]; intros [| i] E;
        cbn in *; try discriminate.
      - now injection E as ->.
      - now apply IHl. }
    rewrite Hs. reflexivity.
  - unfold Imp.bind at 1. unfold Imp.ret at 1.
    rewrite IH. apply nth_error_None in E.
    rewrite !skipn_all2 by lia. now rewrite !firstn_nil.
Qed.

Lemma arr_forEach_pure {A T : Type} `{Imp.Elem A} (g : T -> A -> T)
  (a : Imp.arr A) (s : Imp.Store) (st : T) :
  Imp.arr_forEach (fun st v s0 => (g st v, s0)) a st s
  = (fold_left g (map Imp.proj (nth a s [])) st, s).
Proof.
  unfold Imp.arr_forEach. unfold Imp.bind at 1.
  unfold Imp.arr_length, Imp.bind at 1. unfold Imp.contents, Imp.ret at 1.
  rewrite forEach_from_pure. cbn [skipn]. now rewrite firstn_all.
Qed.

(** *** The helpers *)

Ltac imp_with H := repeat (progress (imp_exec; rewrite ?H)).

Lemma getMedian_run (s : Imp.Store) (a : Imp.arr Q) (l : list Q) :
  nth a s [] = map Imp.inj l ->
  Imp.getMedian a s
  = (getMedian l,
     s ++ (if (List.length l =? 0)%nat then []
           else [map Imp.inj (num_sort l)])).
Proof.
  intros Hl. unfold Imp.getMedian, getMedian, num_sort.
  imp_with Hl.
  destruct (List.length l =? 0)%nat; imp_with Hl.
  - now rewrite app_nil_r.
  - now rewrite !number_at_nth.
Qed.

Lemma getStandardDeviation_run (host : Host) (s : Imp.Store) (a : Imp.arr Q)
  (l : list Q) (mean : Q) :
  (a < List.length s)%nat ->
  nth a s [] = map Imp.inj l ->
  Imp.getStandardDeviation host a mean s
  = (getStandardDeviation host l mean,
     s ++ (if (List.length l =? 0)%nat then []
           else [map Imp.inj (map (fun value => Qpower (value - mean) 2) l)])).
Proof.
  intros Ha Hl. unfold Imp.getStandardDeviation, getStandardDeviation, Qsum.
  imp_with Hl.
  destruct (List.length l =? 0)%nat; imp_with Hl.
  - now rewrite app_nil_r.
  - rewrite (app_nth1 s _ _ Ha), Hl. imp_exec. reflexivity.
Qed.

Lemma getOutlierCount_run (s : Imp.Store) (a : Imp.arr Q) (l : list Q)
  (q1 q3 : Q) :
  nth a s [] = map Imp.inj l ->
  Imp.getOutlierCount a q1 q3 s
  = (getOutlierCount l q1 q3,
     s ++ [map Imp.inj
             (filter (fun v => Qlt_bool v (q1 - (3 # 2) * (q3 - q1))
                               || Qlt_bool (q3 + (3 # 2) * (q3 - q1)) v) l)]).
Proof.
  intros Hl. unfold Imp.getOutlierCount, getOutlierCount.
  imp_with Hl. reflexivity.
Qed.

Lemma getMode_run (host : Host) (s : Imp.Store) (a : Imp.arr value)
  (l : list value) :
  nth a s [] = map Imp.inj l ->
  exists (m : Imp.arr value) (ext : Imp.Store),
    Imp.getMode host a s = (m, s ++ ext)
    /\ map Imp.proj (nth m (s ++ ext) []) = getMode host l.
Proof.
  intros Hl. unfold Imp.getMode, getMode.
  imp_with Hl.
  destruct (List.length l =? 0)%nat; imp_with Hl.
  - eexists _, _. split; [reflexivity |]. imp_exec. reflexivity.
  - rewrite arr_forEach_pure, Hl, map_proj_inj.
    destruct (fold_left (mode_step host) l ([], 0%nat)) as [counts maxFreq].
    imp_exec.
    eexists _, _. split; [reflexivity |]. imp_exec. reflexivity.
Qed.

Lemma detectType_run (host : Host) (h : Imp.Store) (V : list Imp.elem)
  (nonNull : list value) :
  Imp.detectType host (List.length h + 1)%nat (List.length h + 2)%nat
    (h ++ [V; map Imp.inj nonNull; map Imp.inj ([] : list string)])
  = ((fst (detectType host nonNull), List.length (filter is_number nonNull)),
     h ++ [V; map Imp.inj nonNull;
           map Imp.inj (snd (detectType host nonNull));
           map Imp.inj (filter is_number nonNull);
           map Imp.inj (filter is_string nonNull);
           map Imp.inj (filter (looks_like_date host) nonNull)]).
Proof.
  unfold Imp.detectType, detectType. imp_exec.
  repeat (imp_case; imp_exec); reflexivity.
Qed.

Ltac imp_leaf :=
  split;
  [ cbn [fst snd]; try reflexivity
  | eexists; rewrite <- ?app_assoc; cbn [app fst snd]; reflexivity ].

Lemma numericBranch_run (host : Host) (h : Imp.Store) (V F1 F2 F3 : list Imp.elem)
  (nonNull : list value) (ty : string) (iss : list string) :
  refines
    (Imp.numericBranch host ty (List.length (filter is_number nonNull))
       (List.length h + 1)%nat (List.length h + 2)%nat
       (h ++ [V; map Imp.inj nonNull; map Imp.inj iss; F1; F2; F3]))
    (snd (numericBranch host ty nonNull iss))
    (h ++ [V; map Imp.inj nonNull;
           map Imp.inj (fst (numericBranch host ty nonNull iss)); F1; F2; F3]).
Proof.
  unfold Imp.numericBranch, numericBranch. cbv zeta.
  rewrite numbers_as_values.
  set (nums := as_numbers (filter is_number nonNull)).
  destruct (String.eqb ty "Numeric"
            || (String.eqb ty "Mixed"
                && (0 <? List.length (filter is_number nonNull))%nat)).
  2:{ imp_exec. imp_leaf. }
  imp_exec. fold nums.
  destruct (0 <? List.length nums)%nat eqn:En.
  2:{ imp_exec. imp_leaf. }
  imp_exec. fold nums.
  rewrite (getMedian_run _ _ nums) by (heap_norm; apply cast_numbers_inj).
  imp_known. imp_exec.
  rewrite (getStandardDeviation_run host _ _ nums)
    by (heap_norm; first [lia | apply cast_numbers_inj]).
  imp_known. imp_exec. fold nums.
  rewrite (getOutlierCount_run _ _ nums) by (heap_norm; apply cast_numbers_inj).
  fold (getOutlierCount nums
          (or_zero (nth_error (Array_sort (fun a b : Q => a - b) nums)
                      (floor_quarter
                         (List.length (Array_sort (fun a b : Q => a - b) nums)))))
          (or_zero (nth_error (Array_sort (fun a b : Q => a - b) nums)
                      (floor_three_quarters
                         (List.length (Array_sort (fun a b : Q => a - b) nums)))))).
  fold (num_sort nums).
  set (outliers := getOutlierCount nums _ _).
  destruct (0 <? outliers)%nat; imp_exec.
  - match goal with
    | |- context [Imp.getMode host ?a ?s] =>
        destruct (getMode_run host s a (filter is_number nonNull))
          as (m & ext & E & Hm); [heap_norm; reflexivity | rewrite E, Hm]
    end.
    unfold Qsum. imp_leaf.
  - match goal with
    | |- context [Imp.getMode host ?a ?s] =>
        destruct (getMode_run host s a (filter is_number nonNull))
          as (m & ext & E & Hm); [heap_norm; reflexivity | rewrite E, Hm]
    end.
    unfold Qsum. imp_leaf.
Qed.

Lemma time_at_last (first : Z) (rest : list Z) :
  Imp.time_at (nth_error (first :: rest) (List.length rest))
  = last (first :: rest) first.
Proof.
  rewrite last_is_nth.
  replace (List.length (first :: rest) - 1)%nat with (List.length rest)
    by (cbn [List.length]; lia).
  unfold Imp.time_at.
  destruct (nth_error (first :: rest) (List.length rest)) eqn:E.
  - symmetry. now apply nth_error_nth.
  - apply nth_error_None in E. cbn in E. lia.
Qed.

Lemma dateBranch_run (host : Host) (s : Imp.Store) (nn : Imp.arr value)
  (nonNull : list value) (ty : string) :
  (nn < List.length s)%nat ->
  nth nn s [] = map Imp.inj nonNull ->
  refines (Imp.dateBranch host ty nn s) (dateBranch host ty nonNull) s.
Proof.
  intros Hn Hl. unfold Imp.dateBranch, dateBranch, dateValuesOf.
  destruct (String.eqb ty "Date").
  2:{ imp_exec. split; [reflexivity |]. exists []. now rewrite app_nil_r. }
  imp_with Hl.
  set (times := Array_sort _ _).
  destruct times as [| first rest] eqn:Et.
  - imp_exec. imp_leaf.
  - change (0 <? List.length (first :: rest))%nat with true.
    imp_exec. rewrite (app_nth1 s _ _ Hn), Hl. imp_exec.
    split; [| eexists; reflexivity].
    replace (S (List.length rest) - 1)%nat with (List.length rest) by lia.
    rewrite (time_at_last first rest). reflexivity.
Qed.

Lemma analyzeColumn_refines (host : Host) (h : Imp.Store) (a : nat)
  (data : list DataRow) (col : string) :
  (a < List.length h)%nat -> nth a h [] = map Imp.inj data ->
  refines (Imp.analyzeColumn host a col h) (analyzeColumn host data col) h.
Proof.
  intros Ha Hl. unfold Imp.analyzeColumn, analyzeColumn, column_values.
  imp_with Hl.
  set (values := map (fun r : DataRow => row_get r col) data).
  set (nonNull := filter nonMissing values).
  rewrite detectType_run.
  destruct (detectType host nonNull) as [ty iss]. cbn [fst snd]. imp_exec.
  pose proof (numericBranch_run host h (map Imp.inj values)
                (map Imp.inj (filter is_number nonNull))
                (map Imp.inj (filter is_string nonNull))
                (map Imp.inj (filter (looks_like_date host) nonNull))
                nonNull ty iss) as Hnum.
  destruct (Imp.numericBranch host ty _ _ _ _) as [ns s1].
  destruct (numericBranch host ty nonNull iss) as [iss' ns'].
  cbn [fst snd refines] in Hnum. destruct Hnum as [-> [ext1 ->]].
  pose proof (dateBranch_run host
                ((h ++ [map Imp.inj values; map Imp.inj nonNull;
                        map Imp.inj iss';
                        map Imp.inj (filter is_number nonNull);
                        map Imp.inj (filter is_string nonNull);
                        map Imp.inj (filter (looks_like_date host) nonNull)])
                 ++ ext1)
                (List.length h + 1)%nat nonNull ty) as Hdate.
  destruct (Imp.dateBranch host ty _ _) as [ds s2].
  cbn [refines] in Hdate. destruct Hdate as [-> [ext2 ->]].
  - heap_norm. lia.
  - heap_norm. reflexivity.
  - imp_exec. split; [reflexivity |]. eexists. reflexivity.
Qed.

Lemma skipn_cons_nth {X : Type} (l : list X) (i : nat) (e : X) :
  nth_error l i = Some e -> skipn i l = e :: skipn (S i) l.
Proof.
  revert i. induction l as [| x l IHl]; intros [| i] E;
    cbn in *; try discriminate.
  - now injection E as ->.
  - now apply IHl.
Qed.

Lemma columns_loop (host : Host) (h : Imp.Store) (a c : nat)
  (data : list DataRow) (cols : list string) :
  (a < List.length h)%nat -> (c < List.length h)%nat ->
  nth a h [] = map Imp.inj data -> nth c h [] = map Imp.inj cols ->
  forall (n i : nat) (acc : JsObject ColumnAnalysis) (ext : Imp.Store),
    refines
      (Imp.forEach_from
         (fun colReports col =>
            Imp.bind (Imp.analyzeColumn host a col)
              (fun report => Imp.ret (obj_set col report colReports)))
         c i n acc (h ++ ext))
      (fold_left
         (fun colReports col => obj_set col (analyzeColumn host data col) colReports)
         (firstn n (skipn i cols)) acc)
      h.
Proof.
  intros Ha Hc Hd Hcols.
  induction n as [| n IH]; intros i acc ext.
  - cbn. split; [reflexivity |]. now exists ext.
  - cbn [Imp.forEach_from]. unfold Imp.bind at 1. unfold Imp.arr_get at 1.
    unfold Imp.bind at 1. unfold Imp.contents at 1. unfold Imp.ret at 1.
    rewrite (app_nth1 h ext [] Hc), Hcols, map_proj_inj.
    destruct (nth_error cols i) as [col |] eqn:E.
    + unfold Imp.bind at 1. unfold Imp.bind at 1.
      pose proof (analyzeColumn_refines host (h ++ ext) a data col) as Hcol.
      destruct (Imp.analyzeColumn host a col (h ++ ext)) as [report s1].
      destruct Hcol as [-> [ext1 ->]].
      * rewrite length_app. lia.
      * now rewrite (app_nth1 h ext [] Ha).
      * unfold Imp.ret at 1. rewrite <- app_assoc.
        rewrite (skipn_cons_nth cols i col E). cbn [firstn fold_left].
        apply IH.
    + unfold Imp.bind at 1. unfold Imp.ret at 1.
      apply nth_error_None in E.
      rewrite skipn_all2 by lia. rewrite firstn_nil. cbn [fold_left].
      specialize (IH (S i) acc ext).
      rewrite skipn_all2 in IH by lia. now rewrite firstn_nil in IH.
Qed.

Lemma generateGlobalAnalysis_refines (host : Host) (h : Imp.Store) (a c : nat)
  (data : list DataRow) (cols : list string) :
  (a < List.length h)%nat -> (c < List.length h)%nat ->
  nth a h [] = map Imp.inj data -> nth c h [] = map Imp.inj cols ->
  refines (Imp.generateGlobalAnalysis host a c h)
          (generateGlobalAnalysis host data cols) h.
Proof.
  intros Ha Hc Hd Hcols.
  unfold Imp.generateGlobalAnalysis, generateGlobalAnalysis, countDuplicateRows.
  unfold Imp.bind at 1. unfold Imp.arr_length at 1. unfold Imp.bind at 1.
  unfold Imp.contents at 1. unfold Imp.ret at 1. rewrite Hd, map_proj_inj.
  unfold Imp.bind at 1. unfold Imp.arr_length at 1. unfold Imp.bind at 1.
  unfold Imp.contents at 1. unfold Imp.ret at 1. rewrite Hcols, map_proj_inj.
  unfold Imp.bind at 1. unfold Imp.ret at 1.
  rewrite (arr_forEach_pure (duplicate_step host) a h), Hd, map_proj_inj.
  unfold Imp.bind at 1. unfold Imp.arr_forEach. unfold Imp.bind at 1.
  unfold Imp.arr_length at 1. unfold Imp.bind at 1.
  unfold Imp.contents at 1. unfold Imp.ret at 1. rewrite Hcols, map_proj_inj.
  pose proof (columns_loop host h a c data cols Ha Hc Hd Hcols
                (List.length cols) 0 [] []) as Hloop.
  rewrite app_nil_r in Hloop. cbn [skipn] in Hloop. rewrite firstn_all in Hloop.
  match type of Hloop with
  | refines ?X _ _ => destruct X as [reports s1]
  end.
  destruct Hloop as [-> [ext ->]].
  unfold Imp.ret. split; [reflexivity |]. now exists ext.
Qed.

(** C9: the aggregation is deterministic and idempotent.  In any store
    holding the rows and the column names, the aggregator returns the
    report that is a function of the table alone; invoked a second time
    on the store it left, it returns the identical report; and no array
    that existed before the calls, the table included, is changed. *)
Theorem C9_aggregation_deterministic_idempotent :
  forall (host : Host) (store : Imp.Store) (dataRef colsRef : nat)
         (data : list DataRow) (cols : list string),
    (dataRef < List.length store)%nat ->
    (colsRef < List.length store)%nat ->
    nth dataRef store [] = map Imp.inj data ->
    nth colsRef store [] = map Imp.inj cols ->
    exists (report1 report2 : GlobalAnalysisReport) (store1 store2 : Imp.Store),
      Imp.run (Imp.generateGlobalAnalysis host dataRef colsRef) store
      = (report1, store1)
      /\ Imp.run (Imp.generateGlobalAnalysis host dataRef colsRef) store1
         = (report2, store2)
      /\ report1 = generateGlobalAnalysis host data cols
      /\ report2 = report1
      /\ (forall l : nat,
             (l < List.length store)%nat ->
             nth l store1 [] = nth l store []
             /\ nth l store2 [] = nth l store []).
Proof.
  intros host store dataRef colsRef data cols Hd Hc Hdata Hcols.
  unfold Imp.run.
  pose proof (generateGlobalAnalysis_refines host store dataRef colsRef
                data cols Hd Hc Hdata Hcols) as H1.
  destruct (Imp.generateGlobalAnalysis host dataRef colsRef store)
    as [report1 store1] eqn:E1.
  destruct H1 as [-> [ext1 ->]].
  assert (Hd1 : (dataRef < List.length (store ++ ext1))%nat)
    by (rewrite length_app; lia).
  assert (Hc1 : (colsRef < List.length (store ++ ext1))%nat)
    by (rewrite length_app; lia).
  pose proof (generateGlobalAnalysis_refines host (store ++ ext1) dataRef
                colsRef data cols Hd1 Hc1) as H2.
  rewrite !app_nth1 in H2 by assumption.
  specialize (H2 Hdata Hcols).
  destruct (Imp.generateGlobalAnalysis host dataRef colsRef (store ++ ext1))
    as [report2 store2] eqn:E2.
  destruct H2 as [-> [ext2 ->]].
  exists (generateGlobalAnalysis host data cols),
         (generateGlobalAnalysis host data cols),
         (store ++ ext1), ((store ++ ext1) ++ ext2).
  split; [reflexivity |]. split; [exact E2 |].
  split; [reflexivity |]. split; [reflexivity |].
  intros l Hl. rewrite <- app_assoc. now rewrite !app_nth1 by assumption.
Qed.

Lemma C9_aggregation_deterministic_idempotent_witness :
  let data := [[("a", N_ 1); ("b", VString "x")];
               [("a", N_ 1); ("b", VString "x")]] in
  let cols := ["a"; "b"] in
  let store := [map Imp.inj data; map Imp.inj cols] in
  exists (report1 report2 : GlobalAnalysisReport) (store1 store2 : Imp.Store),
    Imp.run (Imp.generateGlobalAnalysis default_host 0%nat 1%nat) store
    = (report1, store1)
    /\ Imp.run (Imp.generateGlobalAnalysis default_host 0%nat 1%nat) store1
       = (report2, store2)
    /\ report1 = generateGlobalAnalysis default_host data cols
    /\ report2 = report1
    /\ (forall l : nat,
           (l < List.length store)%nat ->
           nth l store1 [] = nth l store []
           /\ nth l store2 [] = nth l store []).
Proof.
  apply (C9_aggregation_deterministic_idempotent default_host
           [map Imp.inj [[("a", N_ 1); ("b", VString "x")];
                         [("a", N_ 1); ("b", VString "x")]];
            map Imp.inj ["a"; "b"]]
           0%nat 1%nat
           [[("a", N_ 1); ("b", VString "x")];
            [("a", N_ 1); ("b", VString "x")]]
           ["a"; "b"]).
  - cbn. lia.
  - cbn. lia.
  - reflexivity.
  - reflexivity.
Defined.

(** * Further properties of the application *)

(** ** Shape of a column report *)

Lemma detectType_tags (host : Host) (nonNull : list value) :
  In (fst (detectType host nonNull)) ["Numeric"; "Date"; "Mixed"; "Categorical"].
Proof.
  unfold detectType.
  destruct (_ && _); [cbn; auto |].
  destruct (_ <? _)%nat; [cbn; auto |].
  destruct (_ && _); cbn; auto.
Qed.

Lemma numericBranch_other (host : Host) (ty : string) (nonNull : list value)
  (iss : list string) :
  ty = "Date" \/ ty = "Categorical" ->
  numericBranch host ty nonNull iss = (iss, None).
Proof. intros [-> | ->]; reflexivity. Qed.

Lemma dateBranch_other (host : Host) (ty : string) (nonNull : list value) :
  ty = "Numeric" \/ ty = "Mixed" \/ ty = "Categorical" ->
  dateBranch host ty nonNull = None.
Proof. intros [-> | [-> | ->]]; reflexivity. Qed.

Lemma date_column_has_dates (host : Host) (nonNull : list value) :
  fst (detectType host nonNull) = "Date" ->
  dateValuesOf host nonNull <> [].
Proof.
  intros H. destruct (detectType_date host nonNull H) as (s & t & Hin & Hp).
  assert (Ht : In t (parsed_times host nonNull)).
  { unfold parsed_times. apply in_somes. apply in_map_iff.
    exists (VString s). split; [exact Hp | exact Hin]. }
  intros E. pose proof (dateValuesOf_perm host nonNull) as P. rewrite E in P.
  apply Permutation_sym, Permutation_nil in P. rewrite P in Ht. exact Ht.
Qed.

Lemma analyzeColumn_numericStats (host : Host) (data : list DataRow)
  (col : string) :
  ca_numericStats (analyzeColumn host data col)
  = snd (numericBranch host (ca_type (analyzeColumn host data col))
           (nonMissingValues data col)
           (snd (detectType host (nonMissingValues data col)))).
Proof.
  unfold analyzeColumn, nonMissingValues.
  destruct (detectType host _) as [ty iss].
  destruct (numericBranch host ty _ iss) as [iss' ns] eqn:E. cbn.
  now rewrite E.
Qed.

Lemma stats_presence_aux (host : Host) (data : list DataRow) (col : string) :
  ca_numericStats (analyzeColumn host data col) = None
  \/ ca_dateStats (analyzeColumn host data col) = None.
Proof.
  pose proof (detectType_tags host (nonMissingValues data col)) as Htag.
  pose proof (analyzeColumn_type host data col) as Hty.
  pose proof (analyzeColumn_numericStats host data col) as Hns.
  pose proof (analyzeColumn_dateStats host data col) as Hds.
  rewrite <- Hty in Htag. cbn [In] in Htag.
  destruct Htag as [T | [T | [T | [T | []]]]]; symmetry in T.
  - right. rewrite Hds. apply dateBranch_other. auto.
  - left. rewrite Hns, numericBranch_other by auto. reflexivity.
  - right. rewrite Hds. apply dateBranch_other. auto.
  - right. rewrite Hds. apply dateBranch_other. auto.
Qed.

(** X1: the statistics a column report carries are fixed by its inferred
    type.  The type is one of Numeric, Date, Mixed and Categorical;
    numericStats is present exactly for Numeric and Mixed columns,
    dateStats exactly for Date columns, so no column has both and a
    Categorical column has neither. *)
Theorem stats_presence_follows_type :
  forall (host : Host) (data : list DataRow) (col : string),
    let r := analyzeColumn host data col in
    In (ca_type r) ["Numeric"; "Date"; "Mixed"; "Categorical"]
    /\ (ca_numericStats r <> None
        <-> ca_type r = "Numeric" \/ ca_type r = "Mixed")
    /\ (ca_dateStats r <> None <-> ca_type r = "Date")
    /\ (ca_numericStats r = None \/ ca_dateStats r = None)
    /\ (ca_type r = "Categorical"
        -> ca_numericStats r = None /\ ca_dateStats r = None).
Proof.
  intros host data col r.
  pose proof (detectType_tags host (nonMissingValues data col)) as Htag.
  pose proof (analyzeColumn_type host data col) as Hty.
  pose proof (analyzeColumn_numericStats host data col) as Hns.
  pose proof (analyzeColumn_dateStats host data col) as Hds.
  fold r in Hty, Hns, Hds. rewrite <- Hty in Htag.
  assert (Hnum : ca_type r = "Numeric" \/ ca_type r = "Mixed"
                 -> ca_numericStats r <> None /\ ca_dateStats r = None).
  { intros H. split.
    - assert (Hn : (0 < List.length
                          (filter is_number (nonMissingValues data col)))%nat).
      { apply (detectType_numeric_or_mixed host). now rewrite <- Hty. }
      destruct (numericBranch_runs host (ca_type r)
                  (nonMissingValues data col)
                  (snd (detectType host (nonMissingValues data col))) H Hn)
        as (ns & E & _).
      rewrite Hns, E. discriminate.
    - rewrite Hds. apply dateBranch_other. tauto. }
  assert (Hdate : ca_type r = "Date"
                  -> ca_numericStats r = None /\ ca_dateStats r <> None).
  { intros H. split.
    - rewrite Hns, numericBranch_other by auto. reflexivity.
    - rewrite Hds, H, dateBranch_date.
      pose proof (date_column_has_dates host (nonMissingValues data col)) as D.
      rewrite <- Hty in D. specialize (D H).
      destruct (dateValuesOf host (nonMissingValues data col));
        [contradiction | discriminate]. }
  assert (Hcat : ca_type r = "Categorical"
                 -> ca_numericStats r = None /\ ca_dateStats r = None).
  { intros H. split.
    - rewrite Hns, numericBranch_other by auto. reflexivity.
    - rewrite Hds. apply dateBranch_other. auto. }
  assert (Hcases : (ca_type r = "Numeric" \/ ca_type r = "Mixed")
                   \/ ca_type r = "Date" \/ ca_type r = "Categorical")
    by (cbn [In] in Htag; intuition congruence).
  split; [exact Htag |].
  split; [| split; [| split]].
  - split; [| intros H; now apply Hnum].
    intros H. destruct Hcases as [H1 | [H1 | H1]]; [exact H1 | |].
    + destruct (Hdate H1); contradiction.
    + destruct (Hcat H1); contradiction.
  - split; [| intros H; now apply Hdate].
    intros H. destruct Hcases as [H1 | [H1 | H1]]; [| exact H1 |].
    + destruct (Hnum H1); contradiction.
    + destruct (Hcat H1); contradiction.
  - destruct Hcases as [H1 | [H1 | H1]].
    + right. now apply Hnum.
    + left. now apply Hdate.
    + left. now apply Hcat.
  - exact Hcat.
Qed.

(** ** Counting distinct elements: bounds and row order *)

Lemma existsb_perm {A : Type} (p : A -> bool) (l l' : list A) :
  Permutation l l' -> existsb p l = existsb p l'.
Proof.
  intros P.
  induction P as [| x l l' P IH | x y l | l l' l'' P1 IH1 P2 IH2]; cbn.
  - reflexivity.
  - now rewrite IH.
  - destruct (p x), (p y); reflexivity.
  - congruence.
Qed.

Lemma filter_perm {A : Type} (p : A -> bool) (l l' : list A) :
  Permutation l l' -> Permutation (filter p l) (filter p l').
Proof.
  intros P.
  induction P as [| x l l' P IH | x y l | l l' l'' P1 IH1 P2 IH2]; cbn.
  - constructor.
  - destruct (p x); auto.
  - destruct (p x), (p y); auto using perm_swap.
  - eapply Permutation_trans; eauto.
Qed.

Lemma distinct_by_le {A : Type} (same : A -> A -> bool) (l : list A) :
  (distinct_by same l <= List.length l)%nat.
Proof.
  induction l as [| x l IH]; cbn; [lia |].
  destruct (existsb (same x) l); lia.
Qed.

Section DistinctOrder.

Context {A : Type}.
Variable same : A -> A -> bool.
Hypothesis same_sym : forall x y, same x y = same y x.
Hypothesis same_trans :
  forall x y z, same x y = true -> same y z = true -> same x z = true.

Lemma distinct_by_perm (l l' : list A) :
  Permutation l l' -> distinct_by same l = distinct_by same l'.
Proof.
  intros P.
  induction P as [| x l l' P IH | x y l | l l' l'' P1 IH1 P2 IH2]; cbn.
  - reflexivity.
  - now rewrite IH, (existsb_perm (same x) l l' P).
  - destruct (same y x) eqn:E.
    + assert (E' : same x y = true) by (now rewrite same_sym).
      rewrite E'. cbn.
      now rewrite (existsb_same_class same same_sym same_trans x y l E').
    + assert (E' : same x y = false) by (now rewrite same_sym).
      rewrite E'. cbn. lia.
  - congruence.
Qed.

End DistinctOrder.

Lemma string_eqb_trans (x y z : string) :
  String.eqb x y = true -> String.eqb y z = true -> String.eqb x z = true.
Proof.
  intros E F. apply String.eqb_eq in E, F. subst. apply String.eqb_refl.
Qed.

Lemma existsb_eqb_In (x : string) (l : list string) :
  existsb (String.eqb x) l = true <-> In x l.
Proof.
  rewrite existsb_exists. split.
  - intros (y & Hy & E). apply String.eqb_eq in E. now subst.
  - intros H. exists x. split; [exact H | apply String.eqb_refl].
Qed.

Lemma distinct_strings_NoDup (l : list string) :
  distinct_by String.eqb l = List.length l <-> NoDup l.
Proof.
  induction l as [| x l IH]; cbn.
  - split; [constructor | reflexivity].
  - pose proof (distinct_by_le String.eqb l) as Hle.
    pose proof (existsb_eqb_In x l) as Hin.
    destruct (existsb (String.eqb x) l).
    + split; [lia |]. intros N. inversion N; subst. tauto.
    + split.
      * intros E. constructor.
        -- intros H. apply Hin in H. discriminate.
        -- apply IH. lia.
      * intros N. inversion N; subst. apply IH in H2. lia.
Qed.

(** The [forEach] loop of the duplicate count keeps
    [duplicateRows + seenRows.size] equal to the number of rows scanned. *)
Lemma duplicate_fold_size (host : Host) (l : list DataRow) :
  forall (seen : list string) (d : nat),
    let st := fold_left (duplicate_step host) l (seen, d) in
    fst st = fold_left (Set_add String.eqb) (map (JSON_stringify host) l) seen
    /\ (snd st + List.length (fst st)
        = d + List.length seen + List.length l)%nat.
Proof.
  induction l as [| row l IH]; intros seen d; cbn zeta.
  - cbn. split; [reflexivity | lia].
  - cbn [fold_left map List.length].
    assert (Hstep : duplicate_step host (seen, d) row
                    = if Set_has String.eqb seen (JSON_stringify host row)
                      then (seen, S d)
                      else (Set_add String.eqb seen (JSON_stringify host row), d))
      by reflexivity.
    rewrite Hstep.
    destruct (Set_has String.eqb seen (JSON_stringify host row)) eqn:E.
    + replace (Set_add String.eqb seen (JSON_stringify host row)) with seen
        by (unfold Set_add; now rewrite E).
      destruct (IH seen (S d)) as [I1 I2]. split; [exact I1 | lia].
    + destruct (IH (Set_add String.eqb seen (JSON_stringify host row)) d)
        as [I1 I2].
      split; [exact I1 |]. rewrite I2. unfold Set_add. rewrite E, length_app.
      cbn. lia.
Qed.

Lemma countDuplicateRows_distinct (host : Host) (data : list DataRow) :
  (countDuplicateRows host data
   + distinct_by String.eqb (map (JSON_stringify host) data)
   = List.length data)%nat.
Proof.
  unfold countDuplicateRows.
  destruct (duplicate_fold_size host data [] 0%nat) as [I1 I2].
  rewrite <- (Set_of_size String.eqb String.eqb_sym string_eqb_trans).
  unfold Set_of. rewrite <- I1. cbn in I2. exact I2.
Qed.

(** X2: the duplicate count and the number of distinct rows (rows whose
    JSON text differs) add up to the number of rows, whatever the
    columns: every row is either the first with its text or a counted
    duplicate. *)
Theorem duplicates_plus_distinct_rows_is_total :
  forall (host : Host) (data : list DataRow) (cols : list string),
    let r := generateGlobalAnalysis host data cols in
    (duplicateRows r
     + List.length (Set_of String.eqb (map (JSON_stringify host) data))
     = totalRows r)%nat
    /\ (duplicateRows r = 0%nat
        <-> NoDup (map (JSON_stringify host) data)).
Proof.
  intros host data cols r. unfold r, generateGlobalAnalysis.
  cbn [duplicateRows totalRows].
  pose proof (countDuplicateRows_distinct host data) as E.
  rewrite (Set_of_size String.eqb String.eqb_sym string_eqb_trans).
  split; [exact E |].
  rewrite <- distinct_strings_NoDup, length_map.
  split; intros H.
  - rewrite H in E. exact E.
  - rewrite H in E. unfold DataRow, JsObject in *. lia.
Qed.

(** X3: the duplicate count does not depend on the order of the rows. *)
Theorem duplicate_count_ignores_row_order :
  forall (host : Host) (data data' : list DataRow) (cols : list string),
    Permutation data data' ->
    duplicateRows (generateGlobalAnalysis host data cols)
    = duplicateRows (generateGlobalAnalysis host data' cols).
Proof.
  intros host data data' cols P.
  unfold generateGlobalAnalysis. cbn [duplicateRows].
  pose proof (countDuplicateRows_distinct host data) as E.
  pose proof (countDuplicateRows_distinct host data') as E'.
  rewrite (distinct_by_perm String.eqb String.eqb_sym string_eqb_trans _ _
             (Permutation_map (JSON_stringify host) P)) in E.
  rewrite (Permutation_length P) in E. lia.
Qed.

Lemma duplicate_count_ignores_row_order_witness :
  let data :=
    single_column "a" [VString "x"; VString "y"; VString "x"] in
  let data' :=
    single_column "a" [VString "y"; VString "x"; VString "x"] in
  duplicateRows (generateGlobalAnalysis default_host data ["a"])
  = duplicateRows (generateGlobalAnalysis default_host data' ["a"]).
Proof.
  apply (duplicate_count_ignores_row_order default_host
           (single_column "a" [VString "x"; VString "y"; VString "x"])
           (single_column "a" [VString "y"; VString "x"; VString "x"])
           ["a"]).
  apply perm_swap.
Defined.

(** ** The column reports of a table *)

Lemma colReports_keys {A : Type} (f : string -> A) (cols : list string) :
  forall o : JsObject A,
    map fst (fold_left (fun acc c => obj_set c (f c) acc) cols o)
    = fold_left (Set_add String.eqb) cols (map fst o).
Proof.
  induction cols as [| c cols IH]; intros o; cbn [fold_left]; [reflexivity |].
  now rewrite IH, obj_set_keys.
Qed.

Lemma colReports_entries {A : Type} (f : string -> A) (cols : list string) :
  forall o : JsObject A,
    Forall (fun e => snd e = f (fst e)) o ->
    Forall (fun e => snd e = f (fst e))
           (fold_left (fun acc c => obj_set c (f c) acc) cols o).
Proof.
  induction cols as [| c cols IH]; intros o Ho; cbn [fold_left]; [exact Ho |].
  apply IH. clear IH.
  induction o as [| [k v] o IHo]; cbn.
  - constructor; [reflexivity | constructor].
  - inversion Ho; subst. destruct (String.eqb c k) eqn:E.
    + apply String.eqb_eq in E. subst. constructor; [reflexivity | assumption].
    + constructor; [assumption | now apply IHo].
Qed.

(** X4: the report holds one column report per distinct column name, in
    the order the names first occur, each the analysis of that column; so
    the number of column reports never exceeds totalCols and equals it
    exactly when no column name is repeated.  The column names are to
    differ from [__proto__], which the report object cannot hold as a
    key. *)
Theorem one_report_per_distinct_column :
  forall (host : Host) (data : list DataRow) (cols : list string),
    ~ In "__proto__" cols ->
    let r := generateGlobalAnalysis host data cols in
    map fst (columns r) = Set_of String.eqb cols
    /\ Forall (fun e => snd e = analyzeColumn host data (fst e)
                        /\ ca_name (snd e) = fst e) (columns r)
    /\ (List.length (columns r) <= totalCols r)%nat
    /\ (List.length (columns r) = totalCols r <-> NoDup cols).
Proof.
  intros host data cols _ r.
  assert (K : map fst (columns r) = Set_of String.eqb cols).
  { unfold r, generateGlobalAnalysis. cbn [columns].
    now rewrite (colReports_keys (analyzeColumn host data)). }
  assert (L : List.length (columns r) = distinct_by String.eqb cols).
  { rewrite <- (length_map fst), K.
    apply (Set_of_size String.eqb String.eqb_sym string_eqb_trans). }
  split; [exact K |]. split; [| split].
  - unfold r, generateGlobalAnalysis. cbn [columns].
    pose proof (colReports_entries (analyzeColumn host data) cols []
                  (Forall_nil _)) as F.
    eapply Forall_impl; [| exact F].
    intros [k a] E. cbn in *. subst a. split; [reflexivity |].
    unfold analyzeColumn.
    destruct (detectType host _) as [ty iss].
    destruct (numericBranch host ty _ iss). reflexivity.
  - rewrite L. apply distinct_by_le.
  - rewrite L. apply distinct_strings_NoDup.
Qed.

Lemma one_report_per_distinct_column_witness :
  map fst
    (columns
       (generateGlobalAnalysis default_host
          [[("a", N_ 1); ("b", VString "x")]] ["a"; "b"; "a"]))
  = ["a"; "b"].
Proof.
  destruct (one_report_per_distinct_column default_host
              [[("a", N_ 1); ("b", VString "x")]] ["a"; "b"; "a"])
    as (K & _); [cbn; intuition discriminate | exact K].
Defined.

(** ** Bounds on the missing and unique counts *)

Lemma filter_true_all {A : Type} (p : A -> bool) (l : list A) :
  Forall (fun x => p x = true) l -> filter p l = l.
Proof.
  induction 1 as [| x l Hx _ IH]; cbn; [reflexivity |].
  now rewrite Hx, IH.
Qed.

Lemma filter_false_none {A : Type} (p : A -> bool) (l : list A) :
  Forall (fun x => p x = false) l -> filter p l = [].
Proof.
  induction 1 as [| x l Hx _ IH]; cbn; [reflexivity |].
  now rewrite Hx.
Qed.

Lemma missing_buckets_le_count (l : list value) :
  (distinct_count (filter isMissing l) <= List.length (filter isMissing l))%nat.
Proof. apply distinct_by_le. Qed.

(** X5: in every column report the unique count is at most the number of
    non-missing cells plus the smaller of 3 and the missing count (the
    missing cells add at most the three markers null, undefined and the
    empty string), hence at most the number of rows, and it is at least 1
    as soon as the table has a row; the missing count is at most the
    number of rows. *)
Theorem unique_and_missing_bounds :
  forall (host : Host) (data : list DataRow) (col : string),
    let r := analyzeColumn host data col in
    (ca_missing r <= List.length data)%nat
    /\ (ca_unique r
        <= (List.length data - ca_missing r) + Nat.min 3 (ca_missing r))%nat
    /\ (ca_unique r <= List.length data)%nat
    /\ (data <> [] -> (1 <= ca_unique r)%nat).
Proof.
  intros host data col r.
  pose proof (analyzeColumn_missing host data col) as M.
  pose proof (analyzeColumn_unique host data col) as U.
  fold r in M, U. rewrite unique_is_distinct_count in U.
  pose proof (column_values_length data col) as Len.
  unfold nonMissingValues in M.
  set (values := column_values data col) in *.
  pose proof (filter_complement_length nonMissing values) as C.
  change (fun x => negb (nonMissing x)) with isMissing in C.
  assert (P : distinct_count values
              = (distinct_count (filter nonMissing values)
                 + distinct_count (filter isMissing values))%nat).
  { unfold distinct_count.
    apply (distinct_by_partition strict_eq nonMissing values).
    exact strict_eq_nonMissing. }
  pose proof (distinct_by_le strict_eq (filter nonMissing values)) as B1.
  pose proof (missing_buckets_le_3 values) as B2.
  pose proof (missing_buckets_le_count values) as B3.
  fold (distinct_count (filter nonMissing values)) in B1.
  assert (N : data <> [] -> (1 <= distinct_count values)%nat).
  { intros Hd. apply distinct_by_nonempty. unfold values, column_values.
    destruct data; [contradiction | discriminate]. }
  unfold DataRow, JsObject in *.
  repeat split; try lia.
  intros Hd. specialize (N Hd). lia.
Qed.

(** ** Columns without any value *)



Lemma row_get_absent (row : DataRow) (col : string) :
  ~ In col (map fst row) -> row_get row col = VUndefined.
Proof.
  unfold row_get. induction row as [| [k v] row IH]; cbn; [reflexivity |].
  intros H. destruct (String.eqb col k) eqn:E.
  - apply String.eqb_eq in E. subst. tauto.
  - apply IH. tauto.
Qed.



(** ** Date columns: the invalid count *)

Lemma somes_length_ge {A B : Type} (f : A -> option B) (p : A -> bool)
  (l : list A) :
  (forall x, p x = true -> f x <> None) ->
  (List.length (filter p l) <= List.length (somes (map f l)))%nat.
Proof.
  intros H. induction l as [| x l IH]; cbn; [lia |].
  destruct (p x) eqn:E.
  - specialize (H x E). destruct (f x); [cbn; lia | contradiction].
  - destruct (f x); cbn; lia.
Qed.

Lemma somes_length_le {A : Type} (l : list (option A)) :
  (List.length (somes l) <= List.length l)%nat.
Proof. induction l as [| [x |] l IH]; cbn; lia. Qed.

Lemma parsed_times_ge_dateCount (host : Host) (nonNull : list value) :
  (List.length (filter (looks_like_date host) nonNull)
   <= List.length (parsed_times host nonNull))%nat.
Proof.
  unfold parsed_times. apply somes_length_ge.
  intros [q | s | |]; cbn; try discriminate.
  destruct (Date_parse host s); [discriminate | cbn; discriminate].
Qed.

Lemma detectType_date_counts (host : Host) (nonNull : list value) :
  fst (detectType host nonNull) = "Date" ->
  let dateCount := List.length (filter (looks_like_date host) nonNull) in
  (4 * List.length nonNull < 5 * dateCount)%nat
  /\ snd (detectType host nonNull)
     = if (dateCount <? List.length nonNull)%nat
       then ["Invalid Date Formats Detected"] else [].
Proof.
  unfold detectType.
  destruct (_ && _); [cbn; discriminate |].
  destruct (4 * List.length nonNull <? _)%nat eqn:E.
  - intros _. apply Nat.ltb_lt in E. split; [exact E | reflexivity].
  - destruct (_ && _); cbn; discriminate.
Qed.

Lemma analyzeColumn_issues_date (host : Host) (data : list DataRow)
  (col : string) :
  ca_type (analyzeColumn host data col) = "Date" ->
  ca_issues (analyzeColumn host data col)
  = snd (detectType host (nonMissingValues data col)).
Proof.
  unfold analyzeColumn, nonMissingValues.
  destruct (detectType host _) as [ty iss].
  destruct (numericBranch host ty _ iss) as [iss' ns] eqn:E. cbn.
  intros ->. cbn in E. now inversion E.
Qed.

(** X7: in a Date column the date statistics are present, the values
    counted invalid are fewer than a fifth of the non-missing values, a
    positive invalid count always comes with the issue
    "Invalid Date Formats Detected", and a column without that issue has
    an invalid count of 0. *)
Theorem date_column_invalid_count :
  forall (host : Host) (data : list DataRow) (col : string),
    let r := analyzeColumn host data col in
    ca_type r = "Date" ->
    exists ds : DateStats,
      ca_dateStats r = Some ds
      /\ (5 * ds_invalidCount ds
          < List.length (nonMissingValues data col))%nat
      /\ ((0 < ds_invalidCount ds)%nat
          -> ca_issues r = ["Invalid Date Formats Detected"])
      /\ (ca_issues r = [] -> ds_invalidCount ds = 0%nat).
Proof.
  intros host data col r T.
  pose proof (analyzeColumn_type host data col) as Hty. fold r in Hty.
  rewrite T in Hty. symmetry in Hty.
  pose proof (analyzeColumn_dateStats host data col) as Hds. fold r in Hds.
  rewrite T, dateBranch_date in Hds.
  pose proof (date_column_has_dates host _ Hty) as Hne.
  destruct (detectType_date_counts host _ Hty) as [Hc Hi].
  pose proof (analyzeColumn_issues_date host data col T) as Iss. fold r in Iss.
  rewrite Hi in Iss.
  pose proof (parsed_times_ge_dateCount host (nonMissingValues data col)) as G.
  assert (Hle : (List.length (parsed_times host (nonMissingValues data col))
                 <= List.length (nonMissingValues data col))%nat).
  { unfold parsed_times.
    rewrite <- (length_map (fun v => Date_parse host (String_ host v))).
    apply somes_length_le. }
  destruct (dateValuesOf host (nonMissingValues data col)) as [| t ts];
    [contradiction |].
  eexists. split; [exact Hds |]. cbn [ds_invalidCount].
  split; [lia |]. rewrite Iss.
  destruct (_ <? _)%nat eqn:E.
  - split; [reflexivity | discriminate].
  - apply Nat.ltb_ge in E. split; [lia | intros _; lia].
Qed.

Lemma date_column_invalid_count_witness :
  exists ds : DateStats,
    ca_dateStats
      (analyzeColumn default_host
         (single_column "d"
            (repeat (VString "2024-02-29") 5 ++ [VString "soon"])) "d")
    = Some ds
    /\ ds_invalidCount ds = 1%nat.
Proof.
  destruct (date_column_invalid_count default_host
              (single_column "d"
                 (repeat (VString "2024-02-29") 5 ++ [VString "soon"])) "d"
              eq_refl) as (ds & E & _).
  exists ds. split; [exact E |].
  vm_compute in E. now inversion E.
Defined.

(** ** Row order *)

Lemma column_values_perm (data data' : list DataRow) (col : string) :
  Permutation data data' ->
  Permutation (nonMissingValues data col) (nonMissingValues data' col).
Proof.
  intros P. unfold nonMissingValues, column_values.
  apply filter_perm, Permutation_map, P.
Qed.

Lemma filter_perm_length {A : Type} (p : A -> bool) (l l' : list A) :
  Permutation l l' ->
  List.length (filter p l) = List.length (filter p l').
Proof. intros P. apply Permutation_length, filter_perm, P. Qed.

Lemma detectType_perm (host : Host) (l l' : list value) :
  Permutation l l' -> detectType host l = detectType host l'.
Proof.
  intros P. unfold detectType.
  rewrite (filter_perm_length is_number l l' P),
    (filter_perm_length is_string l l' P),
    (filter_perm_length (looks_like_date host) l l' P),
    (Permutation_length P).
  reflexivity.
Qed.

Lemma as_numbers_perm (l l' : list value) :
  Permutation l l' -> Permutation (as_numbers l) (as_numbers l').
Proof.
  intros P.
  induction P as [| x l l' P IH | x y l | l l' l'' P1 IH1 P2 IH2].
  - constructor.
  - destruct x; cbn; auto.
  - destruct x, y; cbn; auto using perm_swap.
  - eapply Permutation_trans; eauto.
Qed.


Lemma Qcount_pos (x : Q) (l : list Q) :
  (0 < Qcount x l)%nat -> exists y, In y l /\ (x == y)%Q.
Proof.
  unfold Qcount. destruct (filter (Qeq_bool x) l) as [| y r] eqn:F;
    [cbn; lia |].
  intros _. assert (H : In y (filter (Qeq_bool x) l)) by (rewrite F; now left).
  apply filter_In in H. destruct H as [H1 H2].
  exists y. split; [exact H1 | now apply Qeq_bool_iff].
Qed.

Lemma Qeq_bool_compat_l (a b x : Q) :
  (a == b)%Q -> Qeq_bool x a = Qeq_bool x b.
Proof.
  intros E. destruct (Qeq_bool x a) eqn:A, (Qeq_bool x b) eqn:B; auto.
  - apply Qeq_bool_iff in A. apply Qeq_bool_neq in B. rewrite A, E in B.
    now destruct B.
  - apply Qeq_bool_iff in B. apply Qeq_bool_neq in A. rewrite B, <- E in A.
    now destruct A.
Qed.

Lemma sorted_same_counts (s1 : list Q) :
  forall s2 : list Q,
    StronglySorted Qle s1 -> StronglySorted Qle s2 ->
    (forall x, Qcount x s1 = Qcount x s2) ->
    Forall2 Qeq s1 s2.
Proof.
  induction s1 as [| a r1 IH]; intros s2 S1 S2 C.
  - destruct s2 as [| b r2]; [constructor |].
    specialize (C b). unfold Qcount in C. cbn in C.
    rewrite Qeq_bool_refl in C. discriminate.
  - destruct s2 as [| b r2].
    { specialize (C a). unfold Qcount in C. cbn in C.
      rewrite Qeq_bool_refl in C. discriminate. }
    inversion S1 as [| ? ? S1' F1]; subst.
    inversion S2 as [| ? ? S2' F2]; subst.
    assert (Hab : (a == b)%Q).
    { apply Qle_antisym.
      - destruct (Qcount_pos b (a :: r1)) as (y & Hy & E).
        { rewrite C. unfold Qcount. cbn. rewrite Qeq_bool_refl. cbn. lia. }
        destruct Hy as [<- | Hy]; [rewrite E; apply Qle_refl |].
        rewrite Forall_forall in F1. rewrite E. now apply F1.
      - destruct (Qcount_pos a (b :: r2)) as (y & Hy & E).
        { rewrite <- C. unfold Qcount. cbn. rewrite Qeq_bool_refl. cbn. lia. }
        destruct Hy as [<- | Hy]; [rewrite E; apply Qle_refl |].
        rewrite Forall_forall in F2. rewrite E. now apply F2. }
    constructor; [exact Hab |].
    apply IH; auto.
    intros x. specialize (C x). unfold Qcount in *. cbn in C.
    rewrite (Qeq_bool_compat_l a b x Hab) in C.
    destruct (Qeq_bool x b); cbn in C; lia.
Qed.

Lemma num_sort_perm_eq (l l' : list Q) :
  Permutation l l' -> Forall2 Qeq (num_sort l) (num_sort l').
Proof.
  intros P. apply sorted_same_counts; try apply num_sort_sorted.
  intros x. unfold Qcount. apply filter_perm_length.
  eapply Permutation_trans; [apply Permutation_sym, num_sort_perm |].
  eapply Permutation_trans; [exact P | apply num_sort_perm].
Qed.

Lemma Forall2_nth_Qeq (l l' : list Q) (i : nat) :
  Forall2 Qeq l l' -> (nth i l 0 == nth i l' 0)%Q.
Proof.
  intros F. revert i. induction F as [| x y l l' E F IH]; intros [| i]; cbn;
    auto; reflexivity.
Qed.

Lemma Forall2_length_eq {A B : Type} (R : A -> B -> Prop) (l : list A)
  (l' : list B) :
  Forall2 R l l' -> List.length l = List.length l'.
Proof. induction 1; cbn; congruence. Qed.

Lemma getMedian_perm (l l' : list Q) :
  Permutation l l' -> (getMedian l == getMedian l')%Q.
Proof.
  intros P. unfold getMedian.
  pose proof (num_sort_perm_eq l l' P) as F.
  rewrite !num_sort_length, <- (Permutation_length P).
  destruct (List.length l =? 0)%nat; [reflexivity |].
  destruct (negb _).
  - now apply Forall2_nth_Qeq.
  - rewrite (Forall2_nth_Qeq _ _ (List.length l / 2 - 1) F),
      (Forall2_nth_Qeq _ _ (List.length l / 2) F).
    reflexivity.
Qed.

(** ** Minimum, maximum and sum of the numeric values *)

Lemma fold_min_spec (r : list Q) :
  forall x : Q,
    let m := fold_left (fun m y => if Qlt_bool y m then y else m) r x in
    In m (x :: r) /\ (m <= x)%Q /\ Forall (fun y => (m <= y)%Q) r.
Proof.
  induction r as [| y r IH]; intros x; cbn zeta.
  - cbn. split; [now left | split; [apply Qle_refl | constructor]].
  - cbn [fold_left]. destruct (Qlt_bool y x) eqn:E.
    + apply Qlt_bool_iff in E. destruct (IH y) as (I1 & I2 & I3).
      split; [| split].
      * destruct I1 as [I1 | I1]; [right; left; exact I1 | right; right; exact I1].
      * apply Qlt_le_weak in E. eapply Qle_trans; eauto.
      * constructor; assumption.
    + assert (Hxy : (x <= y)%Q).
      { apply Qnot_lt_le. intros H. apply Qlt_bool_iff in H. congruence. }
      destruct (IH x) as (I1 & I2 & I3).
      split; [| split].
      * destruct I1 as [I1 | I1]; [left; exact I1 | right; right; exact I1].
      * exact I2.
      * constructor; [eapply Qle_trans; eauto | assumption].
Qed.

Lemma fold_max_spec (r : list Q) :
  forall x : Q,
    let m := fold_left (fun m y => if Qlt_bool m y then y else m) r x in
    In m (x :: r) /\ (x <= m)%Q /\ Forall (fun y => (y <= m)%Q) r.
Proof.
  induction r as [| y r IH]; intros x; cbn zeta.
  - cbn. split; [now left | split; [apply Qle_refl | constructor]].
  - cbn [fold_left]. destruct (Qlt_bool x y) eqn:E.
    + apply Qlt_bool_iff in E. destruct (IH y) as (I1 & I2 & I3).
      split; [| split].
      * destruct I1 as [I1 | I1]; [right; left; exact I1 | right; right; exact I1].
      * apply Qlt_le_weak in E. eapply Qle_trans; eauto.
      * constructor; assumption.
    + assert (Hxy : (y <= x)%Q).
      { apply Qnot_lt_le. intros H. apply Qlt_bool_iff in H. congruence. }
      destruct (IH x) as (I1 & I2 & I3).
      split; [| split].
      * destruct I1 as [I1 | I1]; [left; exact I1 | right; right; exact I1].
      * exact I2.
      * constructor; [eapply Qle_trans; eauto | assumption].
Qed.

Lemma Math_min_spec (l : list Q) :
  l <> [] -> In (Math_min l) l /\ Forall (fun y => (Math_min l <= y)%Q) l.
Proof.
  destruct l as [| x r]; [contradiction | intros _].
  destruct (fold_min_spec r x) as (I1 & I2 & I3).
  split; [exact I1 | constructor; assumption].
Qed.

Lemma Math_max_spec (l : list Q) :
  l <> [] -> In (Math_max l) l /\ Forall (fun y => (y <= Math_max l)%Q) l.
Proof.
  destruct l as [| x r]; [contradiction | intros _].
  destruct (fold_max_spec r x) as (I1 & I2 & I3).
  split; [exact I1 | constructor; assumption].
Qed.



(** ** The numeric statistics of a column report *)

Lemma nearest_rank_nth (l : list Q) (i : nat) : nearest_rank l i = nth i l 0%Q.
Proof.
  unfold nearest_rank. revert i.
  induction l as [| x l IH]; intros [| i]; cbn; auto.
Qed.

Lemma numericBranch_some (host : Host) (ty : string) (nonNull : list value)
  (iss : list string) (ns : NumericStats) :
  snd (numericBranch host ty nonNull iss) = Some ns ->
  let nums := as_numbers nonNull in
  let mean := (Qsum nums / inject_Z (Z.of_nat (List.length nums)))%Q in
  nums <> []
  /\ (ty = "Numeric" \/ ty = "Mixed")
  /\ ns = {| ns_mean := mean;
             ns_median := getMedian nums;
             ns_mode := getMode host (map VNumber nums);
             ns_min := Math_min nums;
             ns_max := Math_max nums;
             ns_stdDev := getStandardDeviation host nums mean;
             ns_outliers := outlier_count_rule nums |}.
Proof.
  unfold numericBranch. rewrite as_numbers_filter.
  destruct (String.eqb ty "Numeric") eqn:T1.
  - apply String.eqb_eq in T1. cbn [orb].
    destruct (0 <? List.length (as_numbers nonNull))%nat eqn:L;
      [| cbn; discriminate].
    cbv zeta. rewrite getOutlierCount_rule. cbn [snd].
    intros E. inversion E; subst ns. split; [| split; [auto | reflexivity]].
    intros N. rewrite N in L. discriminate.
  - cbn [orb]. destruct (String.eqb ty "Mixed") eqn:T2; [| cbn; discriminate].
    apply String.eqb_eq in T2. cbn [andb].
    destruct (0 <? List.length (filter is_number nonNull))%nat;
      [| cbn; discriminate].
    destruct (0 <? List.length (as_numbers nonNull))%nat eqn:L;
      [| cbn; discriminate].
    cbv zeta. rewrite getOutlierCount_rule. cbn [snd].
    intros E. inversion E; subst ns. split; [| split; [auto | reflexivity]].
    intros N. rewrite N in L. discriminate.
Qed.

Lemma analyzeColumn_numericStats_some (host : Host) (data : list DataRow)
  (col : string) (ns : NumericStats) :
  ca_numericStats (analyzeColumn host data col) = Some ns ->
  let nums := numericValuesOf data col in
  let mean := (Qsum nums / inject_Z (Z.of_nat (List.length nums)))%Q in
  nums <> []
  /\ ns = {| ns_mean := mean;
             ns_median := getMedian nums;
             ns_mode := getMode host (map VNumber nums);
             ns_min := Math_min nums;
             ns_max := Math_max nums;
             ns_stdDev := getStandardDeviation host nums mean;
             ns_outliers := outlier_count_rule nums |}.
Proof.
  rewrite analyzeColumn_numericStats. intros H.
  destruct (numericBranch_some _ _ _ _ _ H) as (A & _ & B).
  split; assumption.
Qed.



(** ** Outliers are a minority *)

Lemma count_where_app {A : Type} (p : A -> bool) (l1 l2 : list A) :
  count_where p (l1 ++ l2) = (count_where p l1 + count_where p l2)%nat.
Proof. unfold count_where. now rewrite filter_app, length_app. Qed.

Lemma count_where_le {A : Type} (p : A -> bool) (l : list A) :
  (count_where p l <= List.length l)%nat.
Proof. apply filter_length_le'. Qed.

Lemma count_where_none {A : Type} (p : A -> bool) (l : list A) :
  Forall (fun x => p x = false) l -> count_where p l = 0%nat.
Proof. intros F. unfold count_where. now rewrite filter_false_none. Qed.

Lemma count_where_perm {A : Type} (p : A -> bool) (l l' : list A) :
  Permutation l l' -> count_where p l = count_where p l'.
Proof. apply filter_perm_length. Qed.

Lemma firstn_skipn_nth {A : Type} (d : A) (l : list A) (a k : nat) (x : A) :
  In x (firstn k (skipn a l)) ->
  exists i, (a <= i < a + k)%nat /\ (i < List.length l)%nat /\ x = nth i l d.
Proof.
  intros H. apply (In_nth _ _ d) in H. destruct H as (j & Hj & E).
  rewrite length_firstn, length_skipn in Hj.
  rewrite nth_firstn in E.
  destruct (j <? k)%nat eqn:Hjk; [| apply Nat.ltb_ge in Hjk; lia].
  rewrite nth_skipn in E.
  exists (a + j)%nat. apply Nat.ltb_lt in Hjk. repeat split; try lia.
  now symmetry.
Qed.

Lemma interquartile_not_outlier (q1 q3 v : Q) :
  (q1 <= v)%Q -> (v <= q3)%Q -> is_outlier q1 q3 v = false.
Proof.
  intros H1 H2. destruct (is_outlier q1 q3 v) eqn:E; [| reflexivity].
  apply is_outlier_iff in E. unfold strictly_outside in E.
  destruct E as [E | E]; lra.
Qed.

Lemma outlier_count_rule_bound (nums : list Q) :
  nums <> [] ->
  (2 * outlier_count_rule nums < List.length nums)%nat.
Proof.
  intros Hne. unfold outlier_count_rule.
  pose proof (num_sort_perm nums) as P.
  pose proof (num_sort_sorted nums) as S.
  pose proof (num_sort_length nums) as L.
  rewrite (count_where_perm _ _ _ P).
  set (sorted := num_sort nums) in *.
  set (n := List.length sorted) in *.
  assert (Hn : (0 < n)%nat).
  { rewrite L. destruct nums; [contradiction | cbn; lia]. }
  rewrite !nearest_rank_nth.
  set (a := (n / 4)%nat). set (b := (3 * n / 4)%nat).
  assert (Hab : (a <= b /\ b < n)%nat).
  { unfold a, b. split.
    - apply Nat.Div0.div_le_mono. lia.
    - apply Nat.Div0.div_lt_upper_bound. lia. }
  rewrite <- (firstn_skipn a sorted) at 3.
  rewrite <- (firstn_skipn (b + 1 - a) (skipn a sorted)).
  rewrite !count_where_app.
  assert (Mid : count_where (is_outlier (nth a sorted 0) (nth b sorted 0))
                  (firstn (b + 1 - a) (skipn a sorted)) = 0%nat).
  { apply count_where_none. apply Forall_forall. intros x Hx.
    destruct (firstn_skipn_nth 0%Q sorted a (b + 1 - a) x Hx)
      as (i & Hi & Hlen & ->).
    apply interquartile_not_outlier; apply sorted_nth_le; auto; lia. }
  rewrite Mid.
  pose proof (count_where_le (is_outlier (nth a sorted 0) (nth b sorted 0))
                (firstn a sorted)) as C1.
  pose proof (count_where_le (is_outlier (nth a sorted 0) (nth b sorted 0))
                (skipn (b + 1 - a) (skipn a sorted))) as C2.
  rewrite length_firstn in C1. rewrite !length_skipn in C2.
  fold n in C1, C2. rewrite <- L.
  assert (Hq : (4 * a <= n < 4 * a + 4)%nat /\ (4 * b <= 3 * n < 4 * b + 4)%nat).
  { unfold a, b. split.
    - pose proof (Nat.div_mod_eq n 4). pose proof (Nat.mod_upper_bound n 4). lia.
    - pose proof (Nat.div_mod_eq (3 * n) 4).
      pose proof (Nat.mod_upper_bound (3 * n) 4). lia. }
  lia.
Qed.

(** X9: fewer than half of the numeric values of a column are ever
    counted as outliers: the values ranked between the two quartiles are
    never outliers. *)
Theorem outliers_are_a_minority :
  forall (host : Host) (data : list DataRow) (col : string)
         (ns : NumericStats),
    ca_numericStats (analyzeColumn host data col) = Some ns ->
    (2 * ns_outliers ns < List.length (numericValuesOf data col))%nat.
Proof.
  intros host data col ns H.
  destruct (analyzeColumn_numericStats_some host data col ns H) as [Hne E].
  subst ns. cbn [ns_outliers]. now apply outlier_count_rule_bound.
Qed.

Lemma outliers_are_a_minority_witness :
  exists ns : NumericStats,
    ca_numericStats
      (analyzeColumn default_host
         (single_column "n" [N_ 1; N_ 2; N_ 3; N_ 4; N_ 5; N_ 100]) "n")
    = Some ns
    /\ (2 * ns_outliers ns < 6)%nat.
Proof.
  eexists. split; [reflexivity |].
  apply (outliers_are_a_minority default_host
           (single_column "n" [N_ 1; N_ 2; N_ 3; N_ 4; N_ 5; N_ 100]) "n" _
           eq_refl).
Defined.

(** ** A column report and the order of the rows *)

Lemma outlier_count_rule_perm (l l' : list Q) :
  Permutation l l' -> outlier_count_rule l = outlier_count_rule l'.
Proof.
  intros P. unfold outlier_count_rule.
  pose proof (num_sort_perm_eq l l' P) as F.
  rewrite !num_sort_length, <- (Permutation_length P), !nearest_rank_nth.
  rewrite (count_where_perm _ _ _ P). unfold count_where.
  apply filter_ext_length. intros v.
  apply is_outlier_compat; now apply Forall2_nth_Qeq.
Qed.

Lemma Math_min_perm (l l' : list Q) :
  Permutation l l' -> (Math_min l == Math_min l')%Q.
Proof.
  intros P. destruct l as [| x r].
  { apply Permutation_nil in P. subst. reflexivity. }
  assert (N : x :: r <> []) by discriminate.
  assert (N' : l' <> []).
  { intros ->. apply Permutation_sym, Permutation_nil in P. discriminate. }
  destruct (Math_min_spec _ N) as [I F]. destruct (Math_min_spec _ N') as [I' F'].
  rewrite Forall_forall in F, F'.
  apply Qle_antisym.
  - apply F. eapply Permutation_in; [apply Permutation_sym, P | exact I'].
  - apply F'. eapply Permutation_in; [exact P | exact I].
Qed.

Lemma Math_max_perm (l l' : list Q) :
  Permutation l l' -> (Math_max l == Math_max l')%Q.
Proof.
  intros P. destruct l as [| x r].
  { apply Permutation_nil in P. subst. reflexivity. }
  assert (N : x :: r <> []) by discriminate.
  assert (N' : l' <> []).
  { intros ->. apply Permutation_sym, Permutation_nil in P. discriminate. }
  destruct (Math_max_spec _ N) as [I F]. destruct (Math_max_spec _ N') as [I' F'].
  rewrite Forall_forall in F, F'.
  apply Qle_antisym.
  - apply F'. eapply Permutation_in; [exact P | exact I].
  - apply F. eapply Permutation_in; [apply Permutation_sym, P | exact I'].
Qed.

Lemma sorted_perm_unique (s1 : list Z) :
  forall s2 : list Z,
    StronglySorted Z.le s1 -> StronglySorted Z.le s2 -> Permutation s1 s2 ->
    s1 = s2.
Proof.
  induction s1 as [| a r1 IH]; intros s2 S1 S2 P.
  - apply Permutation_nil in P. now subst.
  - destruct s2 as [| b r2].
    { apply Permutation_sym, Permutation_nil in P. discriminate. }
    inversion S1 as [| ? ? S1' F1]; subst.
    inversion S2 as [| ? ? S2' F2]; subst.
    rewrite Forall_forall in F1, F2.
    assert (a = b).
    { apply Z.le_antisymm.
      - assert (H : In b (a :: r1))
          by (eapply Permutation_in; [apply Permutation_sym, P | now left]).
        destruct H as [-> | H]; [lia | now apply F1].
      - assert (H : In a (b :: r2))
          by (eapply Permutation_in; [exact P | now left]).
        destruct H as [-> | H]; [lia | now apply F2]. }
    subst b. f_equal. apply IH; auto.
    now apply Permutation_cons_inv in P.
Qed.

Lemma dateValuesOf_perm_eq (host : Host) (l l' : list value) :
  Permutation l l' -> dateValuesOf host l = dateValuesOf host l'.
Proof.
  intros P. apply sorted_perm_unique; try apply dateValuesOf_sorted.
  eapply Permutation_trans;
    [apply Permutation_sym, dateValuesOf_perm |].
  eapply Permutation_trans; [| apply dateValuesOf_perm].
  unfold parsed_times.
  assert (G : forall (A : Type) (a b : list (option A)),
             Permutation a b -> Permutation (somes a) (somes b)).
  { intros A a b Q.
    induction Q as [| x a b Q IH | x y a | a b c Q1 IH1 Q2 IH2].
    - constructor.
    - destruct x; cbn; auto.
    - destruct x, y; cbn; auto using perm_swap.
    - eapply Permutation_trans; eauto. }
  apply G, Permutation_map, P.
Qed.

Lemma dateBranch_perm (host : Host) (ty : string) (l l' : list value) :
  Permutation l l' -> dateBranch host ty l = dateBranch host ty l'.
Proof.
  intros P. unfold dateBranch.
  now rewrite (dateValuesOf_perm_eq host l l' P), (Permutation_length P).
Qed.

Lemma numericBranch_issues_eq (host : Host) (ty : string)
  (nonNull : list value) (iss : list string) :
  fst (numericBranch host ty nonNull iss)
  = match snd (numericBranch host ty nonNull iss) with
    | Some ns =>
        iss ++ (if (0 <? ns_outliers ns)%nat
                then [outlier_issue (ns_outliers ns)] else [])
    | None => iss
    end.
Proof.
  unfold numericBranch.
  destruct (_ || _); [| reflexivity].
  destruct (0 <? _)%nat; [| reflexivity].
  cbv zeta. cbn [snd ns_outliers].
  destruct (0 <? getOutlierCount _ _ _)%nat; cbn [fst].
  - reflexivity.
  - now rewrite app_nil_r.
Qed.

Lemma numericBranch_none_iff (host : Host) (ty : string)
  (nonNull : list value) (iss : list string) :
  snd (numericBranch host ty nonNull iss) = None
  <-> ~ ((ty = "Numeric" \/ ty = "Mixed")
         /\ (0 < List.length (filter is_number nonNull))%nat).
Proof.
  split.
  - intros H [Hty Hn].
    destruct (numericBranch_runs host ty nonNull iss Hty Hn) as (ns & E & _).
    rewrite E in H. discriminate.
  - intros H. destruct (snd (numericBranch host ty nonNull iss)) as [ns |] eqn:E;
      [| reflexivity].
    destruct (numericBranch_some _ _ _ _ _ E) as (A & B & _).
    exfalso. apply H. split; [exact B |].
    rewrite <- as_numbers_length. destruct (as_numbers nonNull);
      [contradiction | cbn; lia].
Qed.

(** A column report in terms of the non-missing cells. *)
Lemma analyzeColumn_issues_eq (host : Host) (data : list DataRow)
  (col : string) :
  ca_issues (analyzeColumn host data col)
  = match ca_numericStats (analyzeColumn host data col) with
    | Some ns =>
        snd (detectType host (nonMissingValues data col))
        ++ (if (0 <? ns_outliers ns)%nat
            then [outlier_issue (ns_outliers ns)] else [])
    | None => snd (detectType host (nonMissingValues data col))
    end.
Proof.
  rewrite analyzeColumn_numericStats, analyzeColumn_type.
  rewrite <- numericBranch_issues_eq.
  unfold analyzeColumn, nonMissingValues.
  destruct (detectType host _) as [ty iss]. cbn [fst snd].
  destruct (numericBranch host ty _ iss) as [iss' ns]. reflexivity.
Qed.

(** X10: permuting the rows of the table leaves the inferred type, the
    missing count, the unique count, the issues and the date statistics
    of every column unchanged. *)
Theorem column_report_ignores_row_order :
  forall (host : Host) (data data' : list DataRow) (col : string),
    Permutation data data' ->
    let r := analyzeColumn host data col in
    let r' := analyzeColumn host data' col in
    ca_type r = ca_type r'
    /\ ca_missing r = ca_missing r'
    /\ ca_unique r = ca_unique r'
    /\ ca_issues r = ca_issues r'
    /\ ca_dateStats r = ca_dateStats r'.
Proof.
  intros host data data' col P r r'.
  pose proof (column_values_perm data data' col P) as Pn.
  assert (T : ca_type r = ca_type r').
  { unfold r, r'. rewrite !analyzeColumn_type.
    now rewrite (detectType_perm host _ _ Pn). }
  split; [exact T |]. split; [| split; [| split]].
  - unfold r, r'. rewrite !analyzeColumn_missing, !column_values_length.
    now rewrite (Permutation_length P), (Permutation_length Pn).
  - unfold r, r'. rewrite !analyzeColumn_unique, !unique_is_distinct_count.
    apply (distinct_by_perm strict_eq strict_eq_sym strict_eq_trans).
    unfold column_values. apply Permutation_map, P.
  - unfold r, r'. rewrite !analyzeColumn_issues_eq.
    rewrite !analyzeColumn_numericStats. fold r r'. rewrite <- T.
    rewrite <- (detectType_perm host _ _ Pn).
    set (iss := snd (detectType host (nonMissingValues data col))).
    destruct (snd (numericBranch host (ca_type r) (nonMissingValues data col)
                     iss)) as [ns |] eqn:E;
      destruct (snd (numericBranch host (ca_type r)
                       (nonMissingValues data' col) iss)) as [ns' |] eqn:E'.
    + destruct (numericBranch_some _ _ _ _ _ E) as (_ & _ & ->).
      destruct (numericBranch_some _ _ _ _ _ E') as (_ & _ & ->).
      cbn [ns_outliers].
      now rewrite (outlier_count_rule_perm _ _ (as_numbers_perm _ _ Pn)).
    + exfalso. apply numericBranch_none_iff in E'. apply E'.
      destruct (numericBranch_some _ _ _ _ _ E) as (A & B & _).
      split; [exact B |].
      rewrite <- (filter_perm_length is_number _ _ Pn), <- as_numbers_length.
      destruct (as_numbers (nonMissingValues data col));
        [contradiction | cbn; lia].
    + exfalso. apply numericBranch_none_iff in E. apply E.
      destruct (numericBranch_some _ _ _ _ _ E') as (A & B & _).
      split; [exact B |].
      rewrite (filter_perm_length is_number _ _ Pn), <- as_numbers_length.
      destruct (as_numbers (nonMissingValues data' col));
        [contradiction | cbn; lia].
    + reflexivity.
  - unfold r, r'. rewrite !analyzeColumn_dateStats. fold r r'. rewrite <- T.
    now apply dateBranch_perm.
Qed.

Lemma column_report_ignores_row_order_witness :
  let data := single_column "d" [VString "2024-02-29"; VString "2023-01-01"] in
  let data' := single_column "d" [VString "2023-01-01"; VString "2024-02-29"] in
  ca_dateStats (analyzeColumn default_host data "d")
  = ca_dateStats (analyzeColumn default_host data' "d").
Proof.
  apply (column_report_ignores_row_order default_host
           (single_column "d" [VString "2024-02-29"; VString "2023-01-01"])
           (single_column "d" [VString "2023-01-01"; VString "2024-02-29"])
           "d").
  apply perm_swap.
Defined.

(** X11: permuting the rows leaves the numeric statistics of a column
    that are read off the sorted values unchanged: the statistics are
    present for the same columns, with the same outlier count and with
    equal median, minimum and maximum.  (The mode is left out, its ties
    follow the order of the values; so are the mean and the standard
    deviation, which sum the values in row order.) *)
Theorem numeric_stats_ignore_row_order :
  forall (host : Host) (data data' : list DataRow) (col : string),
    Permutation data data' ->
    match ca_numericStats (analyzeColumn host data col),
          ca_numericStats (analyzeColumn host data' col) with
    | Some ns, Some ns' =>
        ns_outliers ns = ns_outliers ns'
        /\ (ns_median ns == ns_median ns')%Q
        /\ (ns_min ns == ns_min ns')%Q
        /\ (ns_max ns == ns_max ns')%Q
    | None, None => True
    | _, _ => False
    end.
Proof.
  intros host data data' col P.
  pose proof (column_values_perm data data' col P) as Pn.
  pose proof (as_numbers_perm _ _ Pn) as Pq.
  fold (numericValuesOf data col) in Pq. fold (numericValuesOf data' col) in Pq.
  assert (T : ca_type (analyzeColumn host data col)
              = ca_type (analyzeColumn host data' col)).
  { rewrite !analyzeColumn_type. now rewrite (detectType_perm host _ _ Pn). }
  destruct (ca_numericStats (analyzeColumn host data col)) as [ns |] eqn:E;
    destruct (ca_numericStats (analyzeColumn host data' col)) as [ns' |] eqn:E'.
  - destruct (analyzeColumn_numericStats_some _ _ _ _ E) as [_ ->].
    destruct (analyzeColumn_numericStats_some _ _ _ _ E') as [_ ->].
    cbn [ns_outliers ns_median ns_min ns_max].
    split; [now apply outlier_count_rule_perm |].
    split; [now apply getMedian_perm |
            split; [now apply Math_min_perm | now apply Math_max_perm]].
  - rewrite analyzeColumn_numericStats in E, E'.
    apply numericBranch_none_iff in E'. apply E'.
    destruct (numericBranch_some _ _ _ _ _ E) as (A & B & _).
    split; [now rewrite <- T |].
    rewrite <- (filter_perm_length is_number _ _ Pn), <- as_numbers_length.
    destruct (as_numbers (nonMissingValues data col));
      [contradiction | cbn; lia].
  - rewrite analyzeColumn_numericStats in E, E'.
    apply numericBranch_none_iff in E. apply E.
    destruct (numericBranch_some _ _ _ _ _ E') as (A & B & _).
    split; [now rewrite T |].
    rewrite (filter_perm_length is_number _ _ Pn), <- as_numbers_length.
    destruct (as_numbers (nonMissingValues data' col));
      [contradiction | cbn; lia].
  - exact I.
Qed.

Lemma numeric_stats_ignore_row_order_witness :
  match ca_numericStats
          (analyzeColumn default_host (single_column "n" [N_ 3; N_ 1; N_ 2]) "n"),
        ca_numericStats
          (analyzeColumn default_host (single_column "n" [N_ 1; N_ 3; N_ 2]) "n")
  with
  | Some ns, Some ns' =>
      ns_outliers ns = ns_outliers ns'
      /\ (ns_median ns == ns_median ns')%Q
      /\ (ns_min ns == ns_min ns')%Q
      /\ (ns_max ns == ns_max ns')%Q
  | None, None => True
  | _, _ => False
  end.
Proof.
  exact (numeric_stats_ignore_row_order default_host
           (single_column "n" [N_ 3; N_ 1; N_ 2])
           (single_column "n" [N_ 1; N_ 3; N_ 2]) "n"
           (perm_swap _ _ _)).
Defined.

(** ** The per-column statistics and the whole-table analysis agree *)

Lemma nonMissing_number_or_string (v : value) :
  nonMissing v = true -> is_string v = negb (is_number v).
Proof. destruct v; cbn; auto; discriminate. Qed.

Lemma all_numbers_no_strings (l : list value) :
  Forall (fun v => nonMissing v = true) l ->
  (forallb is_number l = true <-> List.length (filter is_string l) = 0%nat).
Proof.
  induction 1 as [| v l Hv _ IH]; cbn; [tauto |].
  rewrite (nonMissing_number_or_string v Hv).
  destruct (is_number v); cbn; [exact IH |].
  split; discriminate.
Qed.

Lemma nonMissingValues_nonMissing (data : list DataRow) (col : string) :
  Forall (fun v => nonMissing v = true) (nonMissingValues data col).
Proof.
  apply Forall_forall. intros v H. unfold nonMissingValues in H.
  now apply filter_In in H.
Qed.

Lemma detectType_numeric_iff (host : Host) (nonNull : list value) :
  fst (detectType host nonNull) = "Numeric"
  <-> (0 < List.length (filter is_number nonNull))%nat
      /\ List.length (filter is_string nonNull) = 0%nat.
Proof.
  unfold detectType.
  destruct ((0 <? List.length (filter is_number nonNull))%nat
            && (List.length (filter is_string nonNull) =? 0)%nat) eqn:E.
  - apply Bool.andb_true_iff in E. destruct E as [E1 E2].
    apply Nat.ltb_lt in E1. apply Nat.eqb_eq in E2. cbn. tauto.
  - assert (N : ~ ((0 < List.length (filter is_number nonNull))%nat
                   /\ List.length (filter is_string nonNull) = 0%nat)).
    { intros [E1 E2]. apply Nat.ltb_lt in E1. apply Nat.eqb_eq in E2.
      rewrite E1, E2 in E. discriminate. }
    destruct (4 * List.length nonNull <? _)%nat;
      [cbn [fst]; split; [discriminate | tauto] |].
    destruct ((0 <? List.length (filter is_number nonNull))%nat
              && (0 <? List.length (filter is_string nonNull))%nat);
      cbn [fst]; (split; [discriminate | tauto]).
Qed.

Lemma forallb_filter_all {A : Type} (p : A -> bool) (l : list A) :
  forallb p l = true -> filter p l = l.
Proof.
  intros H. apply filter_true_all. apply Forall_forall.
  rewrite forallb_forall in H. exact H.
Qed.

(** X12: the per-column statistics and the whole-table analysis agree on
    every column: the same missing and unique counts, the type Numeric
    for the same columns and, for these, the same mean, median, minimum,
    maximum and standard deviation. *)
Theorem column_stats_agree_with_analysis :
  forall (host : Host) (data : list DataRow) (col : string),
    let c := calculateColumnStats host data col in
    let a := analyzeColumn host data col in
    cs_missing c = ca_missing a
    /\ cs_unique c = ca_unique a
    /\ (cs_type c = "Numeric" <-> ca_type a = "Numeric")
    /\ (cs_type c = "Numeric" ->
        exists ns : NumericStats,
          ca_numericStats a = Some ns
          /\ cs_mean c = Some (ns_mean ns)
          /\ cs_median c = Some (ns_median ns)
          /\ cs_min c = Some (Num (ns_min ns))
          /\ cs_max c = Some (Num (ns_max ns))
          /\ cs_stdDev c = Some (ns_stdDev ns)).
Proof.
  intros host data col c a.
  destruct (calculateColumnStats_counts host data col) as (_ & M & U).
  fold c in M, U.
  pose proof (nonMissingValues_nonMissing data col) as NM.
  pose proof (calculateColumnStats_type host data col) as TC.
  cbv zeta in TC. fold c in TC.
  assert (Tiff : cs_type c = "Numeric" <-> ca_type a = "Numeric").
  { pose proof (analyzeColumn_type host data col) as TA. fold a in TA.
    pose proof (detectType_numeric_iff host (nonMissingValues data col)) as DI.
    pose proof (all_numbers_no_strings _ NM) as AN.
    rewrite TC, TA.
    destruct (forallb is_number (nonMissingValues data col)) eqn:F.
    - rewrite (forallb_filter_all _ _ F) in DI. rewrite Bool.andb_true_r.
      destruct (0 <? List.length (nonMissingValues data col))%nat eqn:L.
      + apply Nat.ltb_lt in L. tauto.
      + apply Nat.ltb_ge in L. split; [discriminate |].
        intros H. apply DI in H. lia.
    - rewrite Bool.andb_false_r. split; [discriminate |].
      intros H. apply DI in H. destruct H as [_ H]. apply AN in H.
      discriminate. }
  split; [| split; [| split; [exact Tiff |]]].
  - unfold a. now rewrite M, analyzeColumn_missing.
  - unfold a. now rewrite U, analyzeColumn_unique.
  - intros T.
    assert (Ta : ca_type a = "Numeric") by (now apply Tiff).
    destruct (ca_numericStats a) as [ns |] eqn:E.
    2:{ exfalso. unfold a in E. rewrite analyzeColumn_numericStats in E.
        apply numericBranch_none_iff in E. apply E. fold a. split; [auto |].
        unfold a in Ta. rewrite analyzeColumn_type in Ta.
        now apply detectType_numeric_iff in Ta. }
    exists ns. split; [reflexivity |].
    destruct (analyzeColumn_numericStats_some host data col ns E) as [Hne ->].
    cbn [ns_mean ns_median ns_min ns_max ns_stdDev].
    rewrite TC in T.
    unfold c, calculateColumnStats. fold (nonMissingValues data col).
    destruct ((0 <? List.length (nonMissingValues data col))%nat
              && forallb is_number (nonMissingValues data col));
      [| discriminate].
    fold (numericValuesOf data col).
    cbn [cs_mean cs_median cs_min cs_max cs_stdDev].
    destruct (0 <? List.length (numericValuesOf data col))%nat eqn:L.
    + repeat split; reflexivity.
    + apply Nat.ltb_ge in L. destruct (numericValuesOf data col);
        [contradiction | cbn in L; lia].
Qed.

Lemma column_stats_agree_with_analysis_witness :
  exists ns : NumericStats,
    ca_numericStats
      (analyzeColumn default_host (single_column "n" [N_ 2; VNull; N_ 4]) "n")
    = Some ns
    /\ cs_mean (calculateColumnStats default_host
                  (single_column "n" [N_ 2; VNull; N_ 4]) "n")
       = Some (ns_mean ns).
Proof.
  destruct (proj2 (proj2 (proj2
              (column_stats_agree_with_analysis default_host
                 (single_column "n" [N_ 2; VNull; N_ 4]) "n"))) eq_refl)
    as (ns & E & Hm & _).
  exists ns. split; assumption.
Defined.

(** ** Decimal numerals *)

Lemma Z_of_string_of_Z (z : Z) : Z_of_string (string_of_Z z) = Some z.
Proof.
  unfold Z_of_string, string_of_Z.
  destruct z as [| p | p]; cbn [Z.to_int NilZero.string_of_int].
  - reflexivity.
  - assert (E : NilZero.uint_of_string (NilZero.string_of_uint (Pos.to_uint p))
                = Some (Pos.to_uint p))
      by (apply NilZero.usu, DecimalPos.Unsigned.to_uint_nonnil).
    assert (V : Z.of_uint (Pos.to_uint p) = Z.pos p).
    { unfold Z.of_uint. now rewrite DecimalPos.Unsigned.of_to. }
    destruct (NilZero.string_of_uint (Pos.to_uint p)) as [| c r] eqn:S.
    { discriminate. }
    assert (Hc : c <> "-"%char).
    { pose proof (DecimalPos.Unsigned.to_uint_nonnil p) as N.
      destruct (Pos.to_uint p); cbn in S; try contradiction;
        inversion S; discriminate. }
    destruct (Ascii.eqb c "-") eqn:C; [apply Ascii.eqb_eq in C; contradiction |].
    destruct c as [[] [] [] [] [] [] [] []]; try discriminate;
      rewrite E, V; reflexivity.
  - rewrite NilZero.usu by apply DecimalPos.Unsigned.to_uint_nonnil.
    unfold Z.of_uint. now rewrite DecimalPos.Unsigned.of_to.
Qed.

Lemma string_of_Z_inj (a b : Z) : string_of_Z a = string_of_Z b -> a = b.
Proof.
  intros H. apply (f_equal Z_of_string) in H.
  rewrite !Z_of_string_of_Z in H. congruence.
Qed.

Lemma safe_integer_value (q : Q) :
  is_safe_integer q = true ->
  (q == inject_Z (Qnum (Qred q)))%Q
  /\ (Z.abs (Qnum (Qred q)) <=? MAX_SAFE_INTEGER)%Z = true.
Proof.
  unfold is_safe_integer. intros H. apply Bool.andb_true_iff in H.
  destruct H as [H1 H2]. split; [| exact H2].
  apply Z.eqb_eq in H1. rewrite <- (Qred_correct q) at 1.
  destruct (Qred q) as [n d]. cbn in *. unfold Qeq. cbn. lia.
Qed.

(** [Number(String(q))] gives back a safe integer [q]. *)
Lemma Number_of_String_safe (host : Host) (q : Q) :
  is_safe_integer q = true ->
  exists q', Number_ host (String_ host (VNumber q)) = Some q' /\ (q' == q)%Q.
Proof.
  intros H. destruct (safe_integer_value q H) as [E B].
  unfold String_, Number_toString, Number_. rewrite H, Z_of_string_of_Z, B.
  eexists. split; [reflexivity | now symmetry].
Qed.

(** ** The mode is never empty for a non-empty input *)

Lemma list_max_attained (l : list nat) : l <> [] -> In (list_max l) l.
Proof.
  induction l as [| x l IH]; [contradiction | intros _].
  destruct l as [| y l].
  - cbn. left. lia.
  - change (list_max (x :: y :: l)) with (Nat.max x (list_max (y :: l))).
    destruct (Nat.max_spec x (list_max (y :: l))) as [[_ E] | [_ E]];
      rewrite E.
    + right. apply IH. discriminate.
    + now left.
Qed.

Lemma Set_of_strings_nonempty (l : list string) :
  l <> [] -> Set_of String.eqb l <> [].
Proof.
  destruct l as [| x l]; [contradiction | intros _ E].
  assert (H : In x (Set_of String.eqb (x :: l))).
  { unfold Set_of. apply Set_of_strings_in. right. now left. }
  rewrite E in H. exact H.
Qed.

Lemma mode_attained (host : Host) (values : list value) :
  values <> [] ->
  exists k, In k (mode_keys host values) /\ attains_max host values k = true.
Proof.
  intros Hne. unfold attains_max, max_frequency.
  assert (K : map (frequency host values) (mode_keys host values) <> []).
  { intros E. apply map_eq_nil in E. revert E. unfold mode_keys.
    apply Set_of_strings_nonempty. destruct values; [contradiction |].
    discriminate. }
  pose proof (list_max_attained _ K) as H. apply in_map_iff in H.
  destruct H as (k & E & Hk). exists k. split; [exact Hk |].
  now apply Nat.eqb_eq.
Qed.

Lemma firstn_nonempty {A : Type} (n : nat) (l : list A) :
  (0 < n)%nat -> l <> [] -> firstn n l <> [].
Proof. destruct n, l; cbn; try lia; try contradiction; discriminate. Qed.

(** X13: [getMode] returns no mode only for the empty input; for a
    non-empty input it returns between one and three modes.  The values
    are to read as no name of a property inherited from
    [Object.prototype], as is the case of the numbers the analysis calls
    it with. *)
Theorem mode_is_empty_only_for_empty_input :
  forall (host : Host) (values : list value),
    Forall (fun v => is_inherited_key (String_ host v) = false) values ->
    (getMode host values = [] <-> values = [])
    /\ (values <> [] ->
        (1 <= List.length (getMode host values) <= 3)%nat).
Proof.
  intros host values _.
  assert (Hne : values <> [] -> getMode host values <> []).
  { intros H. rewrite getMode_key_order. unfold mode_in_key_order, modes_in_order.
    apply firstn_nonempty; [lia |].
    destruct (mode_attained host values H) as (k & Hk & Ha).
    intros E. apply map_eq_nil in E.
    assert (Hin : In k (filter (attains_max host values)
                          (own_keys (mode_keys host values)))).
    { apply filter_In. split; [| exact Ha].
      eapply Permutation_in; [apply Permutation_sym, own_keys_perm | exact Hk]. }
    rewrite E in Hin. exact Hin. }
  split; [split |].
  - intros E. destruct values; [reflexivity |].
    exfalso. apply Hne; [discriminate | exact E].
  - intros ->. reflexivity.
  - intros H. specialize (Hne H). split.
    + destruct (getMode host values); [contradiction | cbn; lia].
    + rewrite getMode_key_order. unfold mode_in_key_order, modes_in_order.
      rewrite length_firstn. lia.
Qed.

Lemma mode_is_empty_only_for_empty_input_witness :
  (1 <= List.length (getMode default_host [N_ 7; VString "x"; N_ 7]) <= 3)%nat.
Proof.
  apply (mode_is_empty_only_for_empty_input default_host
           [N_ 7; VString "x"; N_ 7]); [repeat constructor | discriminate].
Defined.

(** ** The modes of an integer column *)

Lemma Qred_safe_eq (p q : Q) :
  is_safe_integer p = true -> is_safe_integer q = true ->
  (Qnum (Qred p) = Qnum (Qred q) <-> (p == q)%Q).
Proof.
  intros Hp Hq. destruct (safe_integer_value p Hp) as [Ep _].
  destruct (safe_integer_value q Hq) as [Eq _].
  split.
  - intros E. rewrite Ep, Eq, E. reflexivity.
  - intros E. now rewrite (Qred_complete p q E).
Qed.

Lemma same_text_same_number (host : Host) (p q : Q) :
  is_safe_integer p = true -> is_safe_integer q = true ->
  String.eqb (String_ host (VNumber q)) (String_ host (VNumber p))
  = strict_eq (VNumber p) (VNumber q).
Proof.
  intros Hp Hq. unfold String_, Number_toString. rewrite Hp, Hq. cbn [strict_eq].
  destruct (Qeq_bool p q) eqn:E.
  - apply Qeq_bool_iff in E. apply (Qred_safe_eq p q Hp Hq) in E.
    rewrite E. apply String.eqb_refl.
  - apply String.eqb_neq. intros S. apply string_of_Z_inj in S.
    symmetry in S. apply (Qred_safe_eq p q Hp Hq) in S.
    apply Qeq_bool_iff in S. congruence.
Qed.


Lemma frequency_of_integer (host : Host) (values : list value) (v : value) :
  Forall safe_integer_cell values -> safe_integer_cell v ->
  frequency host values (String_ host v) = count_where (strict_eq v) values.
Proof.
  intros F (p & -> & Hp). unfold frequency, count_where. f_equal.
  apply filter_ext_in. intros w Hw. rewrite Forall_forall in F.
  destruct (F w Hw) as (q & -> & Hq). now apply same_text_same_number.
Qed.

Lemma In_firstn {A : Type} (n : nat) (l : list A) (x : A) :
  In x (firstn n l) -> In x l.
Proof.
  intros H. rewrite <- (firstn_skipn n l). apply in_or_app. now left.
Qed.

(** X14: for a column of integers (within the safe range) every value
    reported by [getMode] is numerically equal to a value of the column
    that occurs at least as often as any other value. *)
Theorem integer_modes_are_most_frequent_values :
  forall (host : Host) (values : list value),
    Forall safe_integer_cell values ->
    Forall (fun m =>
              exists v, In v values /\ strict_eq m v = true
                        /\ forall w, In w values ->
                                     (count_where (strict_eq w) values
                                      <= count_where (strict_eq v) values)%nat)
           (getMode host values).
Proof.
  intros host values F. apply Forall_forall. intros m Hm.
  rewrite getMode_key_order in Hm.
  unfold mode_in_key_order, modes_in_order in Hm.
  apply In_firstn, in_map_iff in Hm. destruct Hm as (k & <- & Hk).
  apply filter_In in Hk. destruct Hk as [Hk Ha].
  apply (Permutation_in _ (own_keys_perm _)) in Hk.
  pose proof Hk as Hk'. apply mode_keys_in, in_map_iff in Hk'.
  destruct Hk' as (v & <- & Hv).
  pose proof F as F'. rewrite Forall_forall in F'.
  destruct (F' v Hv) as (p & -> & Hp).
  exists (VNumber p). split; [exact Hv |]. split.
  - unfold mode_value.
    destruct (Number_of_String_safe host p Hp) as (q' & -> & E).
    cbn. now apply Qeq_bool_iff.
  - intros w Hw.
    rewrite <- (frequency_of_integer host values w F (F' w Hw)).
    rewrite <- (frequency_of_integer host values (VNumber p) F (F' _ Hv)).
    unfold attains_max in Ha. apply Nat.eqb_eq in Ha. rewrite Ha.
    unfold max_frequency. apply in_list_max. apply in_map.
    apply mode_keys_in. now apply in_map.
Qed.

Lemma integer_modes_are_most_frequent_values_witness :
  Forall (fun m =>
            exists v, In v [N_ 5; N_ 3; N_ 5] /\ strict_eq m v = true
                      /\ forall w, In w [N_ 5; N_ 3; N_ 5] ->
                                   (count_where (strict_eq w) [N_ 5; N_ 3; N_ 5]
                                    <= count_where (strict_eq v)
                                         [N_ 5; N_ 3; N_ 5])%nat)
         (getMode default_host [N_ 5; N_ 3; N_ 5]).
Proof.
  apply (integer_modes_are_most_frequent_values default_host
           [N_ 5; N_ 3; N_ 5]).
  repeat constructor; eexists; (split; [reflexivity | reflexivity]).
Defined.

(** ** [parseCSV]: the shape of its result *)

Lemma split_on_nonempty (c : ascii) (s : string) : split_on c s <> [].
Proof.
  induction s as [| d r IH]; cbn; [discriminate |].
  destruct (Ascii.eqb d c); [discriminate |].
  destruct (split_on c r); discriminate.
Qed.

Lemma trimEnd_empty_of_trimStart (s : string) :
  trimStart s = "" -> trim s = "".
Proof. unfold trim. now intros ->. Qed.

(** X15: [parseCSV] never returns an empty column list, so its guard on
    an empty line array is never taken: a text that is empty or all white
    space yields the single column named by the empty string and no
    row. *)
Theorem parseCSV_always_has_a_column :
  forall (host : Host) (text : string),
    csv_columns (parseCSV host text) <> []
    /\ (trim text = ""
        -> parseCSV host text = {| csv_data := []; csv_columns := [""] |}).
Proof.
  intros host text. unfold parseCSV. split.
  - pose proof (split_on_nonempty newline (trim text)) as N.
    destruct (split_on newline (trim text)) as [| first rest];
      [contradiction |].
    cbn [csv_columns]. intros E. apply map_eq_nil in E.
    now apply split_on_nonempty in E.
  - intros ->. reflexivity.
Qed.

Lemma parseCSV_always_has_a_column_witness :
  parseCSV default_host (String newline "  ")
  = {| csv_data := []; csv_columns := [""] |}.
Proof.
  apply (parseCSV_always_has_a_column default_host (String newline "  ")).
  reflexivity.
Defined.

Lemma csv_cell_kind (host : Host) (val : string) :
  is_number (csv_cell host val) || is_string (csv_cell host val) = true.
Proof.
  unfold csv_cell. destruct (negb _); [| reflexivity].
  destruct (Number_ host val); reflexivity.
Qed.

Lemma csv_row_fold (host : Host) (values : list string)
  (hs : list (nat * string)) :
  forall acc : DataRow,
    let row :=
      fold_left
        (fun row '(index, header) =>
           row_assign header (csv_cell host (csv_value values index)) row)
        hs acc in
    map fst row
    = fold_left (Set_add String.eqb) (filter is_own_key (map snd hs))
        (map fst acc)
    /\ (Forall (fun e => is_number (snd e) || is_string (snd e) = true) acc
        -> Forall (fun e => is_number (snd e) || is_string (snd e) = true) row).
Proof.
  induction hs as [| [i h] hs IH]; intros acc; cbn zeta.
  - cbn. auto.
  - cbn [fold_left map snd filter].
    assert (R : row_assign h (csv_cell host (csv_value values i)) acc
                = if is_own_key h
                  then obj_set h (csv_cell host (csv_value values i)) acc
                  else acc) by reflexivity.
    rewrite R. clear R.
    destruct (is_own_key h); [| apply IH].
    cbn [fold_left].
    destruct (IH (obj_set h (csv_cell host (csv_value values i)) acc))
      as [K V].
    split.
    + rewrite K. now rewrite obj_set_keys.
    + intros F. apply V. clear - F.
      induction acc as [| [k v] acc IHa]; cbn.
      * constructor; [apply csv_cell_kind | constructor].
      * inversion F; subst. destruct (String.eqb h k).
        -- constructor; [apply csv_cell_kind | assumption].
        -- constructor; [assumption | now apply IHa].
Qed.

(** Without a header named [__proto__] every assignment creates or
    overwrites an own property. *)
Lemma csv_row_own_keys (host : Host) (values : list string) (hs : list string) :
  ~ In "__proto__" hs ->
  forall (i : nat) (acc : DataRow),
    fold_left
      (fun row '(index, header) =>
         row_assign header (csv_cell host (csv_value values index)) row)
      (indexed_from i hs) acc
    = fold_left
        (fun row '(index, header) =>
           obj_set header (csv_cell host (csv_value values index)) row)
        (indexed_from i hs) acc.
Proof.
  induction hs as [| h hs IH]; intros N i acc; [reflexivity |].
  cbn [indexed_from fold_left].
  assert (R : row_assign h (csv_cell host (csv_value values i)) acc
              = obj_set h (csv_cell host (csv_value values i)) acc).
  { unfold row_assign, is_own_key.
    destruct (String.eqb h "__proto__") eqn:E; [| reflexivity].
    apply String.eqb_eq in E. subst. exfalso. apply N. now left. }
  rewrite R. apply IH. intros Hin. apply N. now right.
Qed.

Lemma indexed_from_snd {A : Type} (l : list A) :
  forall i, map snd (indexed_from i l) = l.
Proof. induction l as [| x l IH]; intros i; cbn; [| rewrite IH]; reflexivity. Qed.

Lemma csv_row_shape (host : Host) (headers : list string) (rowStr : string) :
  map fst (csv_row host headers rowStr)
  = Set_of String.eqb (filter is_own_key headers)
  /\ Forall (fun e => is_number (snd e) || is_string (snd e) = true)
            (csv_row host headers rowStr).
Proof.
  unfold csv_row.
  set (values := if (0 <? _)%nat then _ else _).
  destruct (csv_row_fold host values (indexed_from 0 headers) []) as [K V].
  split.
  - rewrite K, indexed_from_snd. reflexivity.
  - apply V. constructor.
Qed.

Lemma csv_lines_fold (host : Host) (headers : list string) (P : DataRow -> Prop)
  (lines : list string) :
  (forall rowStr, P (csv_row host headers rowStr)) ->
  forall data : list DataRow,
    Forall P data ->
    Forall P (fold_left (csv_line host headers) lines data)
    /\ (List.length (fold_left (csv_line host headers) lines data)
        <= List.length data + List.length lines)%nat.
Proof.
  intros HP. induction lines as [| line lines IH]; intros data F;
    cbn [fold_left List.length].
  - split; [exact F | lia].
  - unfold csv_line at 2 4.
    destruct (String.eqb (trim line) "").
    + destruct (IH data F). split; [assumption | lia].
    + destruct (IH (data ++ [csv_row host headers (trim line)])) as [A B].
      { apply Forall_app. split; [exact F |]. constructor; [apply HP | constructor]. }
      split; [exact A |]. rewrite length_app in B. cbn in B. lia.
Qed.

Lemma obj_get_in_keys {A : Type} (k : string) (o : JsObject A) :
  In k (map fst o) -> exists v, obj_get k o = Some v /\ In (k, v) o.
Proof.
  induction o as [| [k' v'] o IH]; cbn; [contradiction |].
  intros H. destruct (String.eqb k k') eqn:E.
  - apply String.eqb_eq in E. subst. eauto.
  - destruct H as [H | H]; [subst; rewrite String.eqb_refl in E; discriminate |].
    destruct (IH H) as (v & E1 & E2). eauto.
Qed.

(** X16: every row returned by [parseCSV] has exactly the column names as
    its keys, in the order they first occur in the header line, whatever
    the number of fields on its line - except that a column named
    [__proto__] never becomes a key; every cell of the other columns is a
    number or a string, never null or undefined; and there are fewer rows
    than lines. *)
Theorem parseCSV_rows_are_complete :
  forall (host : Host) (text : string),
    let r := parseCSV host text in
    Forall (fun row =>
              map fst row
              = Set_of String.eqb (filter is_own_key (csv_columns r))
              /\ forall col, In col (csv_columns r) -> is_own_key col = true ->
                   is_number (row_get row col) || is_string (row_get row col)
                   = true)
           (csv_data r)
    /\ (List.length (csv_data r)
        < List.length (split_on newline (trim text)))%nat.
Proof.
  intros host text r. unfold r, parseCSV.
  pose proof (split_on_nonempty newline (trim text)) as N.
  destruct (split_on newline (trim text)) as [| first rest];
    [contradiction |].
  cbn [csv_data csv_columns List.length].
  set (headers := map (fun h => strip_quotes (trim h)) (split_on "," first)).
  destruct (csv_lines_fold host headers
              (fun row =>
                 map fst row = Set_of String.eqb (filter is_own_key headers)
                 /\ forall col, In col headers -> is_own_key col = true ->
                      is_number (row_get row col) || is_string (row_get row col)
                      = true)
              rest) with (data := @nil DataRow) as [A B].
  - intros rowStr. destruct (csv_row_shape host headers rowStr) as [K V].
    split; [exact K |]. intros col Hc Ho.
    assert (Hk : In col (map fst (csv_row host headers rowStr))).
    { rewrite K. unfold Set_of. apply Set_of_strings_in. right.
      apply filter_In. now split. }
    destruct (obj_get_in_keys col _ Hk) as (v & E1 & E2).
    unfold row_get. rewrite E1. rewrite Forall_forall in V.
    apply (V (col, v) E2).
  - constructor.
  - split; [exact A | cbn in B; lia].
Qed.

(** ** Strings: trimming, splitting and joining *)

Lemma append_nil_r (s : string) : (s ++ "")%string = s.
Proof. induction s as [| c s IH]; cbn; [| rewrite IH]; reflexivity. Qed.

Lemma append_empty (a b : string) : (a ++ b)%string = "" -> a = "" /\ b = "".
Proof. destruct a; cbn; [auto | discriminate]. Qed.

Lemma last_char_none (s : string) : last_char s = None -> s = "".
Proof.
  destruct s as [| c r]; [reflexivity |]. cbn.
  destruct (last_char r); discriminate.
Qed.

Lemma last_char_append (a b : string) :
  b <> "" -> last_char (a ++ b) = last_char b.
Proof.
  intros Hb. induction a as [| c a IH]; cbn; [reflexivity |].
  rewrite IH. destruct (last_char b) eqn:E; [reflexivity |].
  apply last_char_none in E. contradiction.
Qed.

Lemma first_char_append (a b : string) :
  a <> "" -> first_char (a ++ b) = first_char a.
Proof. destruct a; [contradiction | reflexivity]. Qed.

Lemma trimEnd_fix (s : string) :
  (forall d, last_char s = Some d -> is_space d = false) -> trimEnd s = s.
Proof.
  induction s as [| c r IH]; [reflexivity |].
  cbn [trimEnd last_char]. intros H.
  destruct (last_char r) as [d |] eqn:L.
  - rewrite IH by exact H. destruct r; [discriminate | reflexivity].
  - apply last_char_none in L. subst r. cbn. now rewrite (H c eq_refl).
Qed.

Lemma trim_fix (s : string) : no_outer_space s -> trim s = s /\ s <> "".
Proof.
  intros (c & d & F & L & Hc & Hd). destruct s as [| c' r]; [discriminate |].
  cbn in F. inversion F; subst c'. split; [| discriminate].
  unfold trim. cbn [trimStart]. rewrite Hc. apply trimEnd_fix.
  intros d' E. rewrite L in E. inversion E; subst. exact Hd.
Qed.

Lemma no_outer_space_nonempty (s : string) : no_outer_space s -> s <> "".
Proof. intros (c & d & F & _) E. subst. discriminate. Qed.

Lemma no_outer_space_append (a m b : string) :
  no_outer_space a -> no_outer_space b -> no_outer_space (a ++ m ++ b).
Proof.
  intros Ha Hb.
  pose proof (no_outer_space_nonempty a Ha) as Na.
  pose proof (no_outer_space_nonempty b Hb) as Nb.
  destruct Ha as (c & _ & Fa & _ & Hc & _).
  destruct Hb as (_ & d & _ & Lb & _ & Hd).
  exists c, d. split; [| split; [| split]]; auto.
  - now rewrite first_char_append.
  - rewrite last_char_append.
    + now rewrite last_char_append.
    + intros E. apply append_empty in E. tauto.
Qed.

Lemma join_no_outer_space (sep : string) (l : list string) :
  l <> [] -> Forall no_outer_space l -> no_outer_space (Array_join sep l).
Proof.
  induction l as [| x l IH]; [contradiction | intros _ F].
  inversion F as [| ? ? Hx Hl]; subst.
  destruct l as [| y l]; [exact Hx |].
  change (Array_join sep (x :: y :: l))
    with (x ++ sep ++ Array_join sep (y :: l))%string.
  apply no_outer_space_append; [exact Hx |]. apply IH; [discriminate | exact Hl].
Qed.

Lemma includes_join (c : ascii) (sep : string) (l : list string) :
  includes c sep = false -> Forall (fun x => includes c x = false) l ->
  includes c (Array_join sep l) = false.
Proof.
  intros Hs. induction 1 as [| x l Hx Hl IH]; [reflexivity |].
  destruct l as [| y l]; [exact Hx |].
  change (Array_join sep (x :: y :: l))
    with (x ++ sep ++ Array_join sep (y :: l))%string.
  now rewrite !includes_append, Hx, Hs, IH.
Qed.

Lemma split_on_none (c : ascii) (s : string) :
  includes c s = false -> split_on c s = [s].
Proof.
  induction s as [| d r IH]; cbn; [reflexivity |].
  rewrite Ascii.eqb_sym. destruct (Ascii.eqb d c); cbn; [discriminate |].
  intros H. now rewrite IH.
Qed.

Lemma split_on_append (c : ascii) (a b : string) :
  includes c a = false ->
  split_on c (a ++ String c b) = a :: split_on c b.
Proof.
  induction a as [| d r IH]; cbn.
  - intros _. now rewrite Ascii.eqb_refl.
  - rewrite Ascii.eqb_sym. destruct (Ascii.eqb d c); cbn; [discriminate |].
    intros H. now rewrite IH.
Qed.

Lemma split_join (c : ascii) (l : list string) :
  l <> [] -> Forall (fun x => includes c x = false) l ->
  split_on c (Array_join (str1 c) l) = l.
Proof.
  induction l as [| x l IH]; [contradiction | intros _ F].
  inversion F as [| ? ? Hx Hl]; subst.
  destruct l as [| y l]; [now apply split_on_none |].
  change (Array_join (str1 c) (x :: y :: l))
    with (x ++ String c (Array_join (str1 c) (y :: l)))%string.
  rewrite split_on_append by exact Hx. f_equal.
  apply IH; [discriminate | exact Hl].
Qed.

(** ** Written fields and the field pattern *)

Lemma all_chars_append (p : ascii -> bool) (a b : string) :
  all_chars p (a ++ b) = all_chars p a && all_chars p b.
Proof.
  induction a as [| c a IH]; cbn; [reflexivity |].
  now rewrite IH, Bool.andb_assoc.
Qed.

Lemma all_chars_excludes (p : ascii -> bool) (c : ascii) (s : string) :
  p c = false -> all_chars p s = true -> includes c s = false.
Proof.
  intros Hc. induction s as [| d r IH]; cbn; [reflexivity |].
  intros H. apply Bool.andb_true_iff in H. destruct H as [Hd Hr].
  rewrite (IH Hr), Bool.orb_false_r.
  destruct (Ascii.eqb c d) eqn:E; [| reflexivity].
  apply Ascii.eqb_eq in E. subst. congruence.
Qed.

Lemma all_chars_edges (p : ascii -> bool) (s : string) :
  s <> "" -> all_chars p s = true ->
  exists c d, first_char s = Some c /\ last_char s = Some d
              /\ p c = true /\ p d = true.
Proof.
  induction s as [| c r IH]; [contradiction | intros _ H].
  cbn in H. apply Bool.andb_true_iff in H. destruct H as [Hc Hr].
  destruct r as [| c' r'].
  - exists c, c. cbn. auto.
  - destruct IH as (x & d & _ & L & _ & Hd); [discriminate | exact Hr |].
    exists c, d. cbn [first_char last_char] in *. rewrite L. auto.
Qed.

Lemma is_plain_not_space (c : ascii) : is_plain c = true -> is_space c = false.
Proof.
  unfold is_plain. intros H. apply Bool.andb_true_iff in H.
  destruct H as [_ H]. now apply Bool.negb_true_iff.
Qed.

Lemma csv_token_parts (f : string) :
  csv_token f = true -> f <> "" /\ all_chars is_plain f = true.
Proof.
  unfold csv_token. intros H. apply Bool.andb_true_iff in H.
  destruct H as [H1 H2]. split; [| exact H2].
  intros ->. discriminate.
Qed.

Lemma csv_token_no_outer_space (f : string) :
  csv_token f = true -> no_outer_space f.
Proof.
  intros H. destruct (csv_token_parts f H) as [N A].
  destruct (all_chars_edges is_plain f N A) as (c & d & F & L & Hc & Hd).
  exists c, d. auto using is_plain_not_space.
Qed.

Lemma csv_token_excludes (c : ascii) (f : string) :
  is_plain c = false -> csv_token f = true -> includes c f = false.
Proof.
  intros Hc H. destruct (csv_token_parts f H) as [_ A].
  now apply (all_chars_excludes is_plain).
Qed.

Lemma quoted_no_outer_space (s : string) :
  no_outer_space (str1 dquote ++ s ++ str1 dquote).
Proof.
  exists dquote, dquote. split; [reflexivity |]. split; [| split; reflexivity].
  change (str1 dquote ++ s ++ str1 dquote)%string
    with (String dquote (s ++ str1 dquote)).
  cbn [last_char]. rewrite last_char_append by discriminate. reflexivity.
Qed.

Lemma csv_written_no_outer_space (f : string) :
  csv_written f -> no_outer_space f.
Proof.
  intros [H | (s & -> & _)];
    [now apply csv_token_no_outer_space | apply quoted_no_outer_space].
Qed.

Lemma csv_written_one_line (f : string) :
  csv_written f -> includes newline f = false.
Proof.
  intros [H | (s & -> & A)]; [now apply csv_token_excludes |].
  rewrite !includes_append.
  rewrite (all_chars_excludes _ newline s eq_refl A). reflexivity.
Qed.


Lemma field_end_at (rest : string) : at_field_end rest -> field_end rest = true.
Proof. intros [-> | (r & ->)]; reflexivity. Qed.

Lemma plain_run_token (f rest : string) :
  all_chars is_plain f = true -> at_field_end rest ->
  plain_run (f ++ rest) = String.length f.
Proof.
  intros A R. induction f as [| c f IH]; cbn.
  - destruct R as [-> | (r & ->)]; reflexivity.
  - cbn in A. apply Bool.andb_true_iff in A. destruct A as [Hc Hf].
    now rewrite Hc, IH.
Qed.

Lemma string_skip_append (a b : string) :
  string_skip (String.length a) (a ++ b) = b.
Proof. induction a as [| c a IH]; cbn; [destruct b |]; auto. Qed.

Lemma substring_append (a b : string) :
  substring 0 (String.length a) (a ++ b) = a.
Proof.
  induction a as [| c a IH]; cbn; [destruct b; reflexivity |].
  now rewrite IH.
Qed.

Lemma quoted_end_field (s rest : string) :
  all_chars (fun c => negb (Ascii.eqb c dquote) && negb (is_line_terminator c))
            s = true ->
  at_field_end rest ->
  quoted_end (s ++ String dquote rest) = Some (String.length s).
Proof.
  intros A R. induction s as [| c s IH]; cbn [append quoted_end String.length].
  - now rewrite Ascii.eqb_refl, (field_end_at rest R).
  - cbn [all_chars] in A. apply Bool.andb_true_iff in A. destruct A as [Hc Hs].
    apply Bool.andb_true_iff in Hc. destruct Hc as [H1 H2].
    apply Bool.negb_true_iff in H1, H2. rewrite H1, H2. cbn [andb].
    now rewrite IH.
Qed.

Lemma string_length_append (a b : string) :
  String.length (a ++ b) = (String.length a + String.length b)%nat.
Proof. induction a as [| c a IH]; cbn; [| rewrite IH]; reflexivity. Qed.

Lemma match_here_written (f rest : string) :
  csv_written f -> at_field_end rest ->
  match_here (f ++ rest) = Some (String.length f).
Proof.
  intros [H | (s & -> & A)] R.
  - destruct (csv_token_parts f H) as [N A].
    destruct f as [| c f]; [contradiction |].
    assert (Hc : Ascii.eqb c dquote = false).
    { cbn in A. apply Bool.andb_true_iff in A. destruct A as [A _].
      unfold is_plain in A. apply Bool.andb_true_iff in A.
      destruct A as [A _]. apply Bool.andb_true_iff in A.
      destruct A as [A _]. now apply Bool.negb_true_iff. }
    change (String c f ++ rest)%string with (String c (f ++ rest)).
    unfold match_here. rewrite Hc.
    change (String c (f ++ rest)) with (String c f ++ rest)%string.
    rewrite (plain_run_token _ _ A R), string_skip_append.
    rewrite (field_end_at rest R). reflexivity.
  - change ((str1 dquote ++ s ++ str1 dquote) ++ rest)%string
      with (String dquote ((s ++ str1 dquote) ++ rest)).
    unfold match_here. rewrite Ascii.eqb_refl.
    rewrite string_append_assoc. change (str1 dquote ++ rest)%string
      with (String dquote rest).
    rewrite (quoted_end_field s rest A R). cbn [option_map].
    change (str1 dquote ++ s ++ str1 dquote)%string
      with (String dquote (s ++ str1 dquote)).
    cbn [String.length]. rewrite string_length_append. cbn.
    f_equal. lia.
Qed.

Lemma match_all_skip (a rest : string) :
  match_all_from (String.length a) (a ++ rest) = match_all_from 0 rest.
Proof.
  induction a as [| c a IH]; cbn; [destruct rest; reflexivity | exact IH].
Qed.

Lemma csv_written_nonempty (f : string) : csv_written f -> f <> "".
Proof. intros H. apply no_outer_space_nonempty, csv_written_no_outer_space, H. Qed.

Lemma match_all_written (f rest : string) :
  csv_written f -> at_field_end rest ->
  match_all_from 0 (f ++ rest) = f :: match_all_from 0 rest.
Proof.
  intros W R. pose proof (match_here_written f rest W R) as M.
  pose proof (csv_written_nonempty f W) as N.
  destruct f as [| c f]; [contradiction |].
  change (String c f ++ rest)%string with (String c (f ++ rest)) in *.
  cbn [match_all_from]. rewrite M.
  change (String c (f ++ rest)) with (String c f ++ rest)%string.
  rewrite substring_append. f_equal.
  cbn [String.length]. rewrite Nat.sub_succ, Nat.sub_0_r.
  apply match_all_skip.
Qed.

Lemma csv_matches_join (fields : list string) :
  Forall csv_written fields ->
  csv_matches (Array_join "," fields) = fields.
Proof.
  unfold csv_matches. induction 1 as [| f l Hf Hl IH]; [reflexivity |].
  destruct l as [| g l].
  - cbn [Array_join]. rewrite <- (append_nil_r f) at 1.
    rewrite (match_all_written f "" Hf (or_introl eq_refl)). reflexivity.
  - change (Array_join "," (f :: g :: l))
      with (f ++ String "," (Array_join "," (g :: l)))%string.
    rewrite (match_all_written f _ Hf (or_intror (ex_intro _ _ eq_refl))).
    f_equal. cbn [match_all_from match_here].
    change (Ascii.eqb "," dquote) with false. cbv iota.
    cbn [plain_run]. change (is_plain ",") with false. cbv iota.
    cbn [Nat.ltb Nat.leb andb]. exact IH.
Qed.

(** ** Reading a written field back *)

Lemma drop_last_quote_append (s : string) :
  drop_last_quote (s ++ str1 dquote) = s.
Proof.
  induction s as [| c s IH]; [reflexivity |].
  change (String c s ++ str1 dquote)%string with (String c (s ++ str1 dquote)).
  cbn [drop_last_quote]. rewrite IH.
  destruct (s ++ str1 dquote)%string eqn:E; [| reflexivity].
  apply append_empty in E. destruct E; discriminate.
Qed.

Lemma drop_last_quote_none (s : string) :
  includes dquote s = false -> drop_last_quote s = s.
Proof.
  induction s as [| c s IH]; [reflexivity |]. cbn [includes drop_last_quote].
  intros H. apply Bool.orb_false_iff in H. destruct H as [H1 H2].
  rewrite Ascii.eqb_sym in H1. rewrite H1, (IH H2).
  destruct s; reflexivity.
Qed.

Lemma strip_quotes_quoted (s : string) :
  strip_quotes (str1 dquote ++ s ++ str1 dquote) = s.
Proof.
  unfold strip_quotes.
  change (str1 dquote ++ s ++ str1 dquote)%string
    with (String dquote (s ++ str1 dquote)).
  cbv beta iota. rewrite Ascii.eqb_refl. apply drop_last_quote_append.
Qed.

Lemma strip_quotes_none (s : string) :
  includes dquote s = false -> strip_quotes s = s.
Proof.
  intros H. unfold strip_quotes. destruct s as [| c r]; [reflexivity |].
  pose proof H as H'. cbn [includes] in H'.
  apply Bool.orb_false_iff in H'. destruct H' as [H1 _].
  rewrite Ascii.eqb_sym in H1. cbv beta iota. rewrite H1.
  now apply drop_last_quote_none.
Qed.

Lemma strip_trim_token (f : string) :
  csv_token f = true -> strip_quotes (trim f) = f.
Proof.
  intros H. destruct (trim_fix f (csv_token_no_outer_space f H)) as [-> _].
  apply strip_quotes_none. now apply csv_token_excludes.
Qed.

(** ** Cells that are read back as written *)

Lemma Qred_inject_Z (z : Z) : Qred (inject_Z z) = inject_Z z.
Proof.
  unfold Qred, inject_Z.
  pose proof (Z.ggcd_gcd z 1) as G.
  pose proof (Z.ggcd_correct_divisors z 1) as D.
  destruct (Z.ggcd z 1) as [g [aa bb]]. cbn [fst snd] in *.
  rewrite Z.gcd_1_r in G. subst g. destruct D as [D1 D2].
  assert (Ha : aa = z) by lia. assert (Hb : bb = 1%Z) by lia.
  rewrite Ha, Hb. reflexivity.
Qed.

Lemma digits_are_plain (d : Decimal.uint) :
  all_chars is_plain (NilEmpty.string_of_uint d) = true.
Proof. induction d; cbn [NilEmpty.string_of_uint all_chars]; auto. Qed.

Lemma string_of_Z_token (z : Z) : csv_token (string_of_Z z) = true.
Proof.
  unfold csv_token, string_of_Z.
  assert (U : forall d, d <> Decimal.Nil ->
                negb (String.eqb (NilZero.string_of_uint d) "")
                && all_chars is_plain (NilZero.string_of_uint d) = true).
  { intros d N. destruct d; try contradiction; cbn [NilZero.string_of_uint];
      cbn [NilEmpty.string_of_uint String.eqb negb all_chars andb];
      (change (is_plain _) with true; apply digits_are_plain). }
  destruct z as [| p | p]; cbn [Z.to_int NilZero.string_of_int].
  - reflexivity.
  - apply U, DecimalPos.Unsigned.to_uint_nonnil.
  - pose proof (U _ (DecimalPos.Unsigned.to_uint_nonnil p)) as H.
    apply Bool.andb_true_iff in H. destruct H as [_ H].
    cbn [String.eqb negb all_chars andb]. change (is_plain "-") with true.
    exact H.
Qed.

Lemma safe_cell_number (host : Host) (q : Q) :
  csv_safe_cell host (VNumber q) = true ->
  q = inject_Z (Qnum q)
  /\ (Z.abs (Qnum q) <=? MAX_SAFE_INTEGER)%Z = true
  /\ String_ host (VNumber q) = string_of_Z (Qnum q).
Proof.
  cbn [csv_safe_cell]. intros H. apply Bool.andb_true_iff in H.
  destruct H as [H1 H2]. apply Z.eqb_eq in H1.
  assert (E : q = inject_Z (Qnum q)).
  { destruct q as [n d]. cbn in *. unfold inject_Z. f_equal. congruence. }
  split; [exact E |]. split; [exact H2 |].
  unfold String_, Number_toString, is_safe_integer.
  rewrite E, Qred_inject_Z. cbn [Qnum Qden inject_Z].
  now rewrite H2.
Qed.

Lemma csv_encode_written (host : Host) (v : value) :
  csv_safe_cell host v = true -> csv_written (csv_encode host v).
Proof.
  destruct v as [q | s | |]; try discriminate.
  - intros H. destruct (safe_cell_number host q H) as (_ & _ & S).
    unfold csv_encode. rewrite S.
    pose proof (string_of_Z_token (Qnum q)) as T.
    rewrite (csv_token_excludes "," _ eq_refl T). now left.
  - cbn [csv_safe_cell]. intros H. apply Bool.andb_true_iff in H.
    destruct H as [H _]. unfold csv_encode. cbn [String_].
    destruct (csv_token s) eqn:T.
    + rewrite (csv_token_excludes "," _ eq_refl T). now left.
    + cbn [orb] in H. unfold csv_quotable in H.
      apply Bool.andb_true_iff in H. destruct H as [H1 H2]. rewrite H1.
      right. exists s. auto.
Qed.

Lemma csv_encode_decode (host : Host) (v : value) :
  csv_safe_cell host v = true ->
  csv_cell host (strip_quotes (trim (csv_encode host v))) = v.
Proof.
  destruct v as [q | s | |]; try discriminate.
  - intros H. destruct (safe_cell_number host q H) as (E & B & S).
    unfold csv_encode. rewrite S.
    pose proof (string_of_Z_token (Qnum q)) as T.
    rewrite (csv_token_excludes "," _ eq_refl T), (strip_trim_token _ T).
    unfold csv_cell.
    destruct (csv_token_parts _ T) as [N _].
    apply String.eqb_neq in N. rewrite N. cbn [negb].
    unfold Number_. rewrite Z_of_string_of_Z, B. now rewrite <- E.
  - cbn [csv_safe_cell]. intros H. apply Bool.andb_true_iff in H.
    destruct H as [H Hn].
    assert (D : strip_quotes (trim (csv_encode host (VString s))) = s).
    { unfold csv_encode. cbn [String_]. destruct (csv_token s) eqn:T.
      - rewrite (csv_token_excludes "," _ eq_refl T).
        now apply strip_trim_token.
      - cbn [orb] in H. unfold csv_quotable in H.
        apply Bool.andb_true_iff in H. destruct H as [H1 H2]. rewrite H1.
        destruct (trim_fix _ (quoted_no_outer_space s)) as [-> _].
        apply strip_quotes_quoted. }
    rewrite D. unfold csv_cell.
    destruct (Number_ host s); [discriminate |].
    destruct (negb _); reflexivity.
Qed.

(** ** Export followed by import *)

Lemma obj_set_absent {A : Type} (k : string) (v : A) (o : JsObject A) :
  ~ In k (map fst o) -> obj_set k v o = o ++ [(k, v)].
Proof.
  induction o as [| [k' v'] o IH]; cbn; [reflexivity |].
  intros H. destruct (String.eqb k k') eqn:E.
  - apply String.eqb_eq in E. subst. tauto.
  - rewrite IH by tauto. reflexivity.
Qed.

Lemma csv_row_build (host : Host) (values : list string) (hs : list string) :
  forall (i : nat) (acc : DataRow),
    NoDup (map fst acc ++ hs) ->
    fold_left
      (fun row '(index, header) =>
         obj_set header (csv_cell host (csv_value values index)) row)
      (indexed_from i hs) acc
    = acc ++ map (fun '(j, h) => (h, csv_cell host (csv_value values j)))
                 (indexed_from i hs).
Proof.
  induction hs as [| h hs IH]; intros i acc N; cbn [indexed_from fold_left map].
  - now rewrite app_nil_r.
  - assert (Hh : ~ In h (map fst acc)).
    { intros Hin. apply NoDup_remove_2 in N. apply N, in_or_app. now left. }
    rewrite (obj_set_absent _ _ _ Hh), IH.
    + now rewrite <- app_assoc.
    + rewrite map_app. cbn [map fst]. rewrite <- app_assoc. exact N.
Qed.

Lemma row_get_keys (row : DataRow) :
  NoDup (map fst row) -> map (row_get row) (map fst row) = map snd row.
Proof.
  induction row as [| [k v] row IH]; [reflexivity |].
  cbn [map fst snd]. intros N. inversion N as [| ? ? Hk N']; subst.
  f_equal.
  - unfold row_get. cbn. now rewrite String.eqb_refl.
  - rewrite <- (IH N'). apply map_ext_in. intros k' Hk'.
    unfold row_get. cbn. destruct (String.eqb k' k) eqn:E; [| reflexivity].
    apply String.eqb_eq in E. subst. contradiction.
Qed.

Lemma csv_fields_of_row (host : Host) (row : DataRow) :
  NoDup (map fst row) ->
  Forall (fun v => csv_safe_cell host v = true) (map snd row) ->
  map (csv_field host row) (map fst row)
  = map (csv_encode host) (map snd row).
Proof.
  intros N F. rewrite <- (row_get_keys row N).
  rewrite (map_map (row_get row)).
  apply map_ext_in. intros k Hk.
  assert (S : csv_safe_cell host (row_get row k) = true).
  { rewrite Forall_forall in F. apply F. rewrite <- (row_get_keys row N).
    now apply in_map. }
  unfold csv_field, csv_encode.
  destruct (row_get row k); try discriminate; reflexivity.
Qed.

Lemma csv_value_at (values : list string) (j : nat) (f : string) :
  nth_error values j = Some f -> f <> "" ->
  csv_value values j = strip_quotes (trim f).
Proof.
  intros E N. unfold csv_value. rewrite E.
  apply String.eqb_neq in N. now rewrite N.
Qed.

Lemma csv_row_decode (host : Host) (row : DataRow) :
  Forall (fun v => csv_safe_cell host v = true) (map snd row) ->
  forall pre : list string,
    map (fun '(j, h) =>
           (h, csv_cell host
                 (csv_value (pre ++ map (csv_encode host) (map snd row)) j)))
        (indexed_from (List.length pre) (map fst row))
    = row.
Proof.
  induction row as [| [k v] row IH]; intros F pre; [reflexivity |].
  cbn [map fst snd indexed_from] in *. inversion F as [| ? ? Hv Hr]; subst.
  f_equal.
  - f_equal.
    rewrite (csv_value_at _ _ (csv_encode host v)).
    + now apply csv_encode_decode.
    + rewrite nth_error_app2 by lia. now rewrite Nat.sub_diag.
    + apply csv_written_nonempty. now apply csv_encode_written.
  - specialize (IH Hr (pre ++ [csv_encode host v])).
    rewrite length_app, <- app_assoc in IH. cbn [List.length app] in IH.
    rewrite Nat.add_1_r in IH. exact IH.
Qed.

Lemma csv_line_written (host : Host) (cells : list value) :
  cells <> [] ->
  Forall (fun v => csv_safe_cell host v = true) cells ->
  let line := Array_join "," (map (csv_encode host) cells) in
  trim line = line /\ line <> "" /\ includes newline line = false
  /\ no_outer_space line
  /\ csv_matches line = map (csv_encode host) cells.
Proof.
  intros Hne F. cbn zeta.
  assert (W : Forall csv_written (map (csv_encode host) cells)).
  { apply Forall_map. eapply Forall_impl; [| exact F].
    intros v. apply csv_encode_written. }
  assert (O : no_outer_space
                (Array_join "," (map (csv_encode host) cells))).
  { apply join_no_outer_space.
    - destruct cells; [contradiction | discriminate].
    - eapply Forall_impl; [| exact W]. apply csv_written_no_outer_space. }
  destruct (trim_fix _ O) as [T N].
  split; [exact T |]. split; [exact N |]. split; [| split; [exact O |]].
  - apply includes_join; [reflexivity |].
    eapply Forall_impl; [| exact W]. apply csv_written_one_line.
  - now apply csv_matches_join.
Qed.

Lemma csv_row_round_trip (host : Host) (columns : list string) (row : DataRow) :
  columns <> [] -> NoDup columns -> ~ In "__proto__" columns ->
  map fst row = columns ->
  Forall (fun v => csv_safe_cell host v = true) (map snd row) ->
  csv_row host columns (Array_join "," (map (csv_field host row) columns))
  = row.
Proof.
  intros Hc N P K F. subst columns.
  rewrite (csv_fields_of_row host row N F).
  assert (Hcells : map snd row <> []).
  { destruct row; [contradiction | discriminate]. }
  destruct (csv_line_written host (map snd row) Hcells F)
    as (_ & _ & _ & _ & M).
  unfold csv_row. rewrite M.
  replace (0 <? List.length (map (csv_encode host) (map snd row)))%nat
    with true.
  2:{ symmetry. apply Nat.ltb_lt. rewrite !length_map.
      destruct row; [contradiction | cbn; lia]. }
  rewrite (csv_row_own_keys host _ (map fst row) P 0 []).
  rewrite (csv_row_build host _ (map fst row) 0 []) by exact N.
  cbn [app]. apply (csv_row_decode host row F []).
Qed.

Lemma csv_lines_round_trip (host : Host) (columns : list string)
  (data : list DataRow) :
  columns <> [] -> NoDup columns -> ~ In "__proto__" columns ->
  Forall (fun row =>
            map fst row = columns
            /\ Forall (fun v => csv_safe_cell host v = true) (map snd row))
         data ->
  forall acc : list DataRow,
    fold_left (csv_line host columns)
      (map (fun row => Array_join "," (map (csv_field host row) columns)) data)
      acc
    = acc ++ data.
Proof.
  intros Hc N P. induction 1 as [| row data [K F] _ IH]; intros acc;
    cbn [map fold_left].
  - now rewrite app_nil_r.
  - assert (L : csv_line host columns acc
                  (Array_join "," (map (csv_field host row) columns))
                = acc ++ [row]).
    { unfold csv_line.
      pose proof (csv_row_round_trip host columns row Hc N P K F) as R.
      assert (Hcells : map snd row <> []).
      { rewrite <- K in Hc. destruct row; [contradiction | discriminate]. }
      assert (N' : NoDup (map fst row)) by (now rewrite K).
      destruct (csv_line_written host (map snd row) Hcells F)
        as (T & Ne & _).
      assert (El : Array_join "," (map (csv_field host row) columns)
                   = Array_join "," (map (csv_encode host) (map snd row))).
      { rewrite <- K. now rewrite (csv_fields_of_row host row N' F). }
      rewrite <- El in T, Ne. cbv zeta. rewrite T.
      apply String.eqb_neq in Ne. rewrite Ne, R. reflexivity. }
    rewrite L, IH, <- app_assoc. reflexivity.
Qed.

(** X17: a table written by [exportToCSV] is read back unchanged by
    [parseCSV], columns and rows alike, provided the table has a row and
    a column, the column names are distinct bare tokens other than
    [__proto__], every row has exactly the columns as its keys, in order,
    and every cell is an integer in the safe range or a text - a bare
    token or a text with a comma and without quote and line break - that
    does not read as a number. *)
Theorem export_then_import_round_trip :
  forall (host : Host) (data : list DataRow) (columns : list string)
         (filename : string),
    data <> [] -> columns <> [] -> NoDup columns ->
    ~ In "__proto__" columns ->
    Forall (fun c => csv_token c = true) columns ->
    Forall (fun row =>
              map fst row = columns
              /\ Forall (fun v => csv_safe_cell host v = true) (map snd row))
           data ->
    exists d : Download,
      exportToCSV host data columns filename = Some d
      /\ dl_filename d = filename
      /\ parseCSV host (dl_content d)
         = {| csv_data := data; csv_columns := columns |}.
Proof.
  intros host data columns filename Hd Hc N P T F.
  unfold exportToCSV.
  destruct data as [| row0 data0] eqn:Ed; [contradiction |]. rewrite <- Ed in *.
  replace (List.length data =? 0)%nat with false by (subst; reflexivity).
  eexists. split; [reflexivity |]. split; [reflexivity |].
  cbn [dl_content]. unfold csvContent.
  set (header := Array_join "," columns).
  set (rows := map (fun row => Array_join "," (map (csv_field host row) columns))
                   data).
  assert (Hh : no_outer_space header /\ includes newline header = false).
  { split.
    - apply join_no_outer_space; [exact Hc |].
      eapply Forall_impl; [| exact T]. apply csv_token_no_outer_space.
    - apply includes_join; [reflexivity |].
      eapply Forall_impl; [| exact T]. intros c.
      now apply csv_token_excludes. }
  assert (Hr : Forall (fun l => no_outer_space l /\ includes newline l = false)
                 rows).
  { unfold rows. apply Forall_map. eapply Forall_impl; [| exact F].
    intros row [K Fr].
    assert (N' : NoDup (map fst row)) by (now rewrite K).
    assert (Hcells : map snd row <> []).
    { rewrite <- K in Hc. destruct row; [contradiction | discriminate]. }
    destruct (csv_line_written host (map snd row) Hcells Fr)
      as (_ & _ & I & O & _).
    rewrite <- K, (csv_fields_of_row host row N' Fr). auto. }
  assert (Hall : Forall (fun l => no_outer_space l /\ includes newline l = false)
                   (header :: rows)) by (constructor; assumption).
  assert (O : no_outer_space (Array_join (str1 newline) (header :: rows))).
  { apply join_no_outer_space; [discriminate |].
    eapply Forall_impl; [| exact Hall]. now intros l [A _]. }
  unfold parseCSV. destruct (trim_fix _ O) as [-> _].
  rewrite split_join; [| discriminate |
                       eapply Forall_impl; [| exact Hall]; now intros l [_ B]].
  assert (H1 : map (fun h => strip_quotes (trim h)) (split_on "," header)
               = columns).
  { unfold header.
    change (Array_join "," columns) with (Array_join (str1 ",") columns).
    rewrite split_join; [| exact Hc |
                         eapply Forall_impl; [| exact T]; intros c;
                         now apply csv_token_excludes].
    rewrite <- (map_id columns) at 2. apply map_ext_in. intros c Hin.
    rewrite Forall_forall in T. now apply strip_trim_token, T. }
  rewrite H1. f_equal.
  unfold rows. apply (csv_lines_round_trip host columns data Hc N P F []).
Qed.

Lemma export_then_import_round_trip_witness :
  exists d : Download,
    exportToCSV default_host
      [[("id", N_ 1); ("city", VString "Paris"); ("note", VString "a, b")];
       [("id", N_ (-2)); ("city", VString "Rome"); ("note", VString "ok")]]
      ["id"; "city"; "note"] "out.csv" = Some d
    /\ dl_filename d = "out.csv"
    /\ parseCSV default_host (dl_content d)
       = {| csv_data :=
              [[("id", N_ 1); ("city", VString "Paris");
                ("note", VString "a, b")];
               [("id", N_ (-2)); ("city", VString "Rome");
                ("note", VString "ok")]];
            csv_columns := ["id"; "city"; "note"] |}.
Proof.
  apply (export_then_import_round_trip default_host).
  - discriminate.
  - discriminate.
  - repeat constructor; cbn; intuition discriminate.
  - cbn; intuition discriminate.
  - repeat constructor.
  - repeat constructor.
Defined.

(** ** Empty fields *)

Lemma match_all_comma (rest : string) :
  match_all_from 0 (String "," rest) = match_all_from 0 rest.
Proof. reflexivity. Qed.

Lemma csv_matches_sparse (fields : list string) :
  Forall (fun f => f = "" \/ csv_written f) fields ->
  csv_matches (Array_join "," fields)
  = filter (fun f => negb (String.eqb f "")) fields.
Proof.
  unfold csv_matches. induction 1 as [| f l Hf Hl IH]; [reflexivity |].
  destruct l as [| g l].
  - cbn [Array_join filter]. destruct Hf as [-> | W]; [reflexivity |].
    pose proof (csv_written_nonempty f W) as N.
    apply String.eqb_neq in N. rewrite N. cbn [negb].
    rewrite <- (append_nil_r f) at 1.
    rewrite (match_all_written f "" W (or_introl eq_refl)). reflexivity.
  - change (Array_join "," (f :: g :: l))
      with (f ++ String "," (Array_join "," (g :: l)))%string.
    cbn [filter]. destruct Hf as [-> | W].
    + cbn [append String.eqb negb]. now rewrite match_all_comma.
    + pose proof (csv_written_nonempty f W) as N.
      apply String.eqb_neq in N. rewrite N. cbn [negb].
      rewrite (match_all_written f _ W (or_intror (ex_intro _ _ eq_refl))).
      now rewrite match_all_comma, IH.
Qed.

Lemma indexed_lookup {A : Type} (g : nat -> A) (hs : list string) :
  NoDup hs ->
  forall (k i : nat) (h : string),
    nth_error hs i = Some h ->
    obj_get h (map (fun '(j, h') => (h', g j)) (indexed_from k hs))
    = Some (g (k + i)%nat).
Proof.
  induction 1 as [| h0 hs Hh N IH]; intros k i h E.
  - destruct i; discriminate.
  - cbn [indexed_from map obj_get]. destruct i as [| i].
    + cbn in E. inversion E; subst. rewrite String.eqb_refl.
      now rewrite Nat.add_0_r.
    + cbn in E. destruct (String.eqb h h0) eqn:Q.
      * apply String.eqb_eq in Q. subst. apply nth_error_In in E. contradiction.
      * rewrite (IH (S k) i h E). f_equal. f_equal. lia.
Qed.

Lemma csv_value_empty (values : list string) (i : nat) :
  Forall (fun v => v = "") values -> csv_value values i = "".
Proof.
  intros F. unfold csv_value. destruct (nth_error values i) as [v |] eqn:E;
    [| reflexivity].
  apply nth_error_In in E. rewrite Forall_forall in F. now rewrite (F v E).
Qed.

Lemma filter_nonempty_nil (fields : list string) :
  filter (fun f => negb (String.eqb f "")) fields = [] ->
  Forall (fun f => f = "") fields.
Proof.
  induction fields as [| f l IH]; cbn; [constructor |].
  destruct (String.eqb f "") eqn:E; cbn; [| discriminate].
  apply String.eqb_eq in E. intros H. constructor; auto.
Qed.

(** X18: [parseCSV] does not keep an empty field in its place.  On a line
    of fields separated by commas, each empty or written as
    [exportToCSV] writes it, and for distinct column names other than
    [__proto__], the i-th column receives the i-th non-empty field, and
    the empty string once the non-empty fields are used up: the values
    after an empty field move to the left. *)
Theorem empty_fields_shift_values_left :
  forall (host : Host) (headers fields : list string),
    NoDup headers -> ~ In "__proto__" headers ->
    Forall (fun f => f = "" \/ csv_written f) fields ->
    forall (i : nat) (h : string),
      nth_error headers i = Some h ->
      row_get (csv_row host headers (Array_join "," fields)) h
      = csv_cell host
          match nth_error (filter (fun f => negb (String.eqb f "")) fields) i
          with
          | Some f => strip_quotes (trim f)
          | None => ""
          end.
Proof.
  intros host headers fields N P F i h E.
  unfold csv_row. rewrite (csv_matches_sparse fields F).
  set (kept := filter (fun f => negb (String.eqb f "")) fields).
  set (values := if (0 <? List.length kept)%nat then kept else _).
  rewrite (csv_row_own_keys host values headers P 0 []).
  rewrite (csv_row_build host values headers 0 []) by exact N.
  cbn [app]. unfold row_get.
  rewrite (indexed_lookup (fun j => csv_cell host (csv_value values j))
             headers N 0 i h E).
  cbn [Nat.add]. f_equal.
  destruct kept as [| f0 kept0] eqn:K.
  - cbn [List.length Nat.ltb Nat.leb] in values.
    assert (Hempty : Forall (fun v => v = "") values).
    { unfold values. pose proof (filter_nonempty_nil fields K) as A.
      destruct fields as [| f l]; [repeat constructor |].
      change "," with (str1 ",").
      rewrite split_join; [exact A | discriminate |].
      eapply Forall_impl; [| exact A]. now intros x ->. }
    rewrite (csv_value_empty values i Hempty).
    destruct i; reflexivity.
  - cbn [List.length Nat.ltb Nat.leb] in values. unfold values.
    unfold csv_value. destruct (nth_error (f0 :: kept0) i) as [f |] eqn:Ei;
      [| reflexivity].
    assert (Hf : In f kept) by (rewrite K; now apply nth_error_In in Ei).
    apply filter_In in Hf. destruct Hf as [_ Hf].
    apply Bool.negb_true_iff in Hf. now rewrite Hf.
Qed.

Lemma empty_fields_shift_values_left_witness :
  row_get (csv_row default_host ["x"; "y"; "z"] (Array_join "," ["a"; ""; "b"]))
          "y"
  = VString "b".
Proof.
  apply (empty_fields_shift_values_left default_host ["x"; "y"; "z"]
           ["a"; ""; "b"]) with (i := 1%nat).
  - repeat constructor; cbn; intuition discriminate.
  - cbn; intuition discriminate.
  - constructor; [right; left; reflexivity |].
    constructor; [left; reflexivity |].
    constructor; [right; left; reflexivity | constructor].
  - reflexivity.
Defined.

(** ** Editing a cell *)

Lemma obj_get_map_keys {A : Type} (f : string -> A) (ks : list string)
  (k : string) :
  obj_get k (map (fun k' => (k', f k')) ks)
  = if existsb (String.eqb k) ks then Some (f k) else None.
Proof.
  induction ks as [| k0 ks IH]; cbn; [reflexivity |].
  destruct (String.eqb k k0) eqn:E; [| exact IH].
  apply String.eqb_eq in E. now subst.
Qed.

Lemma row_get_spread (row : DataRow) (c : string) :
  row_get (spread row) c = row_get row c.
Proof.
  unfold spread, row_get at 1. rewrite obj_get_map_keys.
  destruct (existsb (String.eqb c) (Object_keys row)) eqn:E; [reflexivity |].
  symmetry. apply row_get_absent. intros H.
  assert (Hin : In c (Object_keys row)).
  { unfold Object_keys.
    eapply Permutation_in; [apply Permutation_sym, own_keys_perm | exact H]. }
  apply existsb_eqb_In in Hin. congruence.
Qed.

Lemma row_get_set (row : DataRow) (k c : string) (v : value) :
  row_get (obj_set k v row) c = if String.eqb c k then v else row_get row c.
Proof.
  unfold row_get. rewrite obj_get_set. now destruct (String.eqb c k).
Qed.

Lemma array_set_dense {A : Type} (x : A) (l : list A) :
  forall i : nat,
    (i < List.length l)%nat ->
    exists l' : list A,
      array_set i x (map Some l) = map Some l'
      /\ List.length l' = List.length l
      /\ forall (j : nat) (d : A),
           nth j l' d = if (j =? i)%nat then x else nth j l d.
Proof.
  induction l as [| y l IH]; intros i Hi; [cbn in Hi; lia |].
  destruct i as [| i].
  - exists (x :: l). cbn. repeat split. intros [| j] d; reflexivity.
  - destruct (IH i) as (l' & E & L & N); [cbn in Hi; lia |].
    exists (y :: l'). cbn [map array_set List.length]. rewrite E, L.
    repeat split. intros [| j] d; [reflexivity | apply N].
Qed.

Lemma cell_edit_changes_one_cell_aux :
  forall (data : list DataRow) (rowIndex : nat) (colName : string)
         (v : value),
    (rowIndex < List.length data)%nat ->
    exists data' : list DataRow,
      handleCellEdit data rowIndex colName v = map Some data'
      /\ List.length data' = List.length data
      /\ forall (j : nat) (c : string),
           row_get (nth j data' []) c
           = if (j =? rowIndex)%nat && String.eqb c colName then v
             else row_get (nth j data []) c.
Proof.
  intros data i col v Hi. unfold handleCellEdit.
  destruct (nth_error data i) as [row |] eqn:E;
    [| apply nth_error_None in E; lia].
  destruct (array_set_dense (obj_set col v (spread row)) data i Hi)
    as (data' & E1 & L & N).
  exists data'. split; [exact E1 |]. split; [exact L |].
  intros j c. rewrite N. destruct (j =? i)%nat eqn:J; [| reflexivity].
  apply Nat.eqb_eq in J. subst j. cbn [andb].
  rewrite row_get_set, row_get_spread.
  now rewrite (nth_error_nth _ _ _ E).
Qed.


(** X19: editing a cell of an existing row changes that cell and nothing
    else: the table keeps its number of rows and gets no hole, the edited
    cell holds the new value, and every other cell, of the edited row and
    of the other rows, reads as before. *)
Theorem cell_edit_changes_one_cell :
  forall (data : list DataRow) (rowIndex : nat) (colName : string)
         (v : value),
    (rowIndex < List.length data)%nat ->
    exists data' : list DataRow,
      handleCellEdit data rowIndex colName v = map Some data'
      /\ List.length data' = List.length data
      /\ forall (j : nat) (c : string),
           row_get (nth j data' []) c
           = if (j =? rowIndex)%nat && String.eqb c colName then v
             else row_get (nth j data []) c.
Proof. exact cell_edit_changes_one_cell_aux. Qed.

Lemma cell_edit_changes_one_cell_witness :
  exists data' : list DataRow,
    handleCellEdit [[("a", N_ 1); ("b", N_ 2)]; [("a", N_ 3)]] 1 "b" (N_ 9)
    = map Some data'
    /\ row_get (nth 1 data' []) "b" = N_ 9
    /\ row_get (nth 1 data' []) "a" = N_ 3
    /\ row_get (nth 0 data' []) "b" = N_ 2.
Proof.
  destruct (cell_edit_changes_one_cell
              [[("a", N_ 1); ("b", N_ 2)]; [("a", N_ 3)]] 1 "b" (N_ 9))
    as (data' & E & _ & H); [cbn; lia |].
  exists data'. split; [exact E |].
  split; [exact (H 1%nat "b") |]. split; [exact (H 1%nat "a") | exact (H 0%nat "b")].
Defined.

Lemma column_has_text (data : list DataRow) (col text : string) (j : nat) :
  (j < List.length data)%nat -> text <> "" ->
  row_get (nth j data []) col = VString text ->
  In (VString text) (nonMissingValues data col).
Proof.
  intros Hj Ht E. unfold nonMissingValues, column_values.
  apply filter_In. split.
  - apply in_map_iff. exists (nth j data []). split; [exact E |].
    now apply nth_In.
  - unfold nonMissing. cbn [strict_eq negb andb].
    apply String.eqb_neq in Ht. now rewrite Ht.
Qed.

(** X20: the grid stores what is typed into a cell as text, so after an
    edit of a cell to a non-empty text the column is no longer numeric:
    its per-column statistics are those of a Categorical column and the
    whole-table analysis does not infer the type Numeric - not even when
    the text typed is a number. *)
Theorem grid_edit_makes_the_column_non_numeric :
  forall (host : Host) (data : list DataRow) (rowIndex : nat)
         (col text : string),
    (rowIndex < List.length data)%nat -> text <> "" ->
    exists data' : list DataRow,
      Grid_onChange data rowIndex col text = map Some data'
      /\ cs_type (calculateColumnStats host data' col) = "Categorical"
      /\ ca_type (analyzeColumn host data' col) <> "Numeric".
Proof.
  intros host data i col text Hi Ht. unfold Grid_onChange.
  destruct (cell_edit_changes_one_cell_aux data i col (VString text) Hi)
    as (data' & E & L & H).
  exists data'. split; [exact E |].
  assert (Hin : In (VString text) (nonMissingValues data' col)).
  { apply (column_has_text data' col text i); [lia | exact Ht |].
    rewrite H, Nat.eqb_refl, String.eqb_refl. reflexivity. }
  split.
  - rewrite calculateColumnStats_type. cbv zeta.
    replace (forallb is_number (nonMissingValues data' col)) with false.
    + now rewrite Bool.andb_false_r.
    + symmetry. apply Bool.not_true_is_false. intros F.
      rewrite forallb_forall in F. specialize (F _ Hin). discriminate.
  - rewrite analyzeColumn_type. intros T.
    apply detectType_numeric_iff in T. destruct T as [_ T].
    assert (Hs : In (VString text)
                   (filter is_string (nonMissingValues data' col))).
    { apply filter_In. split; [exact Hin | reflexivity]. }
    destruct (filter is_string (nonMissingValues data' col));
      [contradiction | discriminate].
Qed.

Lemma grid_edit_makes_the_column_non_numeric_witness :
  exists data' : list DataRow,
    Grid_onChange (single_column "n" [N_ 1; N_ 2]) 0 "n" "42" = map Some data'
    /\ cs_type (calculateColumnStats default_host data' "n") = "Categorical"
    /\ ca_type (analyzeColumn default_host data' "n") <> "Numeric".
Proof.
  apply (grid_edit_makes_the_column_non_numeric default_host
           (single_column "n" [N_ 1; N_ 2]) 0 "n" "42").
  - cbn. lia.
  - discriminate.
Defined.

(** ** [JSON.stringify] on strings is one-to-one *)

Lemma JSON_unquote_quote_char (c : ascii) (t : string) :
  JSON_unquote_head (JSON_quote_char c ++ t) = Some (c, t).
Proof. destruct c as [[] [] [] [] [] [] [] []]; reflexivity. Qed.

Lemma JSON_quote_body_inj (s1 : string) :
  forall s2 r1 r2 : string,
    (JSON_quote_body s1 ++ String dquote r1)%string
    = (JSON_quote_body s2 ++ String dquote r2)%string ->
    s1 = s2 /\ r1 = r2.
Proof.
  induction s1 as [| c1 s1 IH]; intros [| c2 s2] r1 r2 E.
  - cbn in E. inversion E. auto.
  - apply (f_equal JSON_unquote_head) in E.
    cbn [JSON_quote_body] in E. rewrite string_append_assoc in E.
    rewrite JSON_unquote_quote_char in E. discriminate.
  - apply (f_equal JSON_unquote_head) in E.
    cbn [JSON_quote_body] in E. rewrite string_append_assoc in E.
    rewrite JSON_unquote_quote_char in E. discriminate.
  - apply (f_equal JSON_unquote_head) in E.
    cbn [JSON_quote_body] in E. rewrite !string_append_assoc in E.
    rewrite !JSON_unquote_quote_char in E. inversion E; subst.
    destruct (IH s2 r1 r2 H1). subst. auto.
Qed.

Lemma JSON_quote_inj (s1 s2 r1 r2 : string) :
  (JSON_quote s1 ++ r1)%string = (JSON_quote s2 ++ r2)%string ->
  s1 = s2 /\ r1 = r2.
Proof.
  unfold JSON_quote. cbn [append]. intros E. inversion E as [E'].
  rewrite !string_append_assoc in E'. cbn [str1 append] in E'.
  now apply JSON_quote_body_inj in E'.
Qed.

Lemma JSON_strings_inj (l1 : list string) :
  forall (l2 : list string) (r1 r2 : string),
    (Array_join "," (map JSON_quote l1) ++ String "]" r1)%string
    = (Array_join "," (map JSON_quote l2) ++ String "]" r2)%string ->
    l1 = l2.
Proof.
  induction l1 as [| x l1 IH]; intros [| y l2] r1 r2 E.
  - reflexivity.
  - exfalso. destruct l2; cbn in E; discriminate.
  - exfalso. destruct l1; cbn in E; discriminate.
  - assert (S : forall (z : string) (l : list string) (r : string),
               (Array_join "," (map JSON_quote (z :: l)) ++ String "]" r)%string
               = (JSON_quote z
                  ++ match l with
                     | [] => String "]" r
                     | _ => String "," (Array_join "," (map JSON_quote l)
                                        ++ String "]" r)
                     end)%string).
    { intros z [| w l] r; [reflexivity |].
      cbn [map Array_join]. now rewrite !string_append_assoc. }
    rewrite !S in E. apply JSON_quote_inj in E. destruct E as [-> E].
    f_equal. destruct l1 as [| a l1], l2 as [| b l2]; try discriminate.
    + reflexivity.
    + apply (f_equal (string_skip 1)) in E. cbn [string_skip] in E.
      now apply IH in E.
Qed.

Lemma JSON_stringify_strings_inj (l1 l2 : list string) :
  JSON_stringify_strings l1 = JSON_stringify_strings l2 -> l1 = l2.
Proof.
  unfold JSON_stringify_strings. cbn [append]. intros E. inversion E as [E'].
  now apply JSON_strings_inj in E'.
Qed.

(** X21: after [handleDataUpdate] the table is the new data; when the new
    data has a row the column list is exactly the key list of its first
    row, in own-key order - comparing the JSON texts of the two lists
    loses nothing, [JSON.stringify] being one-to-one on lists of strings -
    and when the new data is empty the former columns are kept. *)
Theorem data_update_takes_columns_of_first_row :
  forall (st : AppTable) (newData : list DataRow),
    app_data (handleDataUpdate st newData) = newData
    /\ (forall (first : DataRow) (rest : list DataRow),
           newData = first :: rest ->
           app_columns (handleDataUpdate st newData) = Object_keys first)
    /\ (newData = [] ->
        app_columns (handleDataUpdate st newData) = app_columns st)
    /\ (forall l1 l2 : list string,
           JSON_stringify_strings l1 = JSON_stringify_strings l2 -> l1 = l2).
Proof.
  intros st newData. split; [reflexivity |]. split; [| split].
  - intros first rest ->. cbn [handleDataUpdate app_columns].
    destruct (String.eqb _ _) eqn:E; [| reflexivity].
    apply String.eqb_eq, JSON_stringify_strings_inj in E. cbn [negb].
    now symmetry.
  - intros ->. reflexivity.
  - exact JSON_stringify_strings_inj.
Qed.

(** ** The generated code is free of fences *)

Lemma starts_with_fence (s : string) :
  starts_with fence s = (3 <=? leading_backticks s)%nat.
Proof.
  unfold fence.
  destruct s as [| a s]; [reflexivity |].
  cbn [starts_with leading_backticks]. rewrite (Ascii.eqb_sym "`" a).
  destruct (Ascii.eqb a "`"); [| reflexivity].
  destruct s as [| b s]; [reflexivity |].
  cbn [starts_with leading_backticks andb]. rewrite (Ascii.eqb_sym "`" b).
  destruct (Ascii.eqb b "`"); [| reflexivity].
  destruct s as [| c s]; [reflexivity |].
  cbn [starts_with leading_backticks andb]. rewrite (Ascii.eqb_sym "`" c).
  destruct (Ascii.eqb c "`"); [| reflexivity].
  reflexivity.
Qed.

Lemma remove_fences_leading (s : string) :
  (leading_backticks s < 3)%nat ->
  leading_backticks (remove_all fence s) = leading_backticks s.
Proof.
  unfold remove_all. induction s as [| c r IH]; [reflexivity |].
  intros H. cbn [remove_all_from]. rewrite starts_with_fence.
  replace (3 <=? leading_backticks (String c r))%nat with false
    by (symmetry; apply Nat.leb_gt; exact H).
  cbn [leading_backticks] in *. destruct (Ascii.eqb c "`"); [| reflexivity].
  rewrite IH by lia. reflexivity.
Qed.

Lemma remove_fences_from (s : string) :
  forall k : nat, occurs fence (remove_all_from fence k s) = false.
Proof.
  induction s as [| c r IH]; intros k; [reflexivity |].
  cbn [remove_all_from]. destruct k as [| k]; [| apply IH].
  destruct (starts_with fence (String c r)) eqn:S; [apply IH |].
  cbn [occurs]. rewrite IH, Bool.orb_false_r.
  rewrite starts_with_fence in *. apply Nat.leb_gt in S. apply Nat.leb_gt.
  cbn [leading_backticks] in *. destruct (Ascii.eqb c "`"); [| lia].
  fold (remove_all fence r). rewrite remove_fences_leading; lia.
Qed.

Lemma starts_with_append (p a t : string) :
  starts_with p a = true -> starts_with p (a ++ t) = true.
Proof.
  revert a. induction p as [| x p IH]; intros a; [reflexivity |].
  destruct a as [| y a]; cbn; [discriminate |].
  intros H. apply Bool.andb_true_iff in H. destruct H as [H1 H2].
  now rewrite H1, IH.
Qed.

Lemma occurs_prefix (p a t : string) :
  p <> "" -> occurs p a = true -> occurs p (a ++ t) = true.
Proof.
  intros Hp. induction a as [| c a IH]; cbn [occurs append].
  - destruct p; [contradiction | cbn; discriminate].
  - intros H. apply Bool.orb_true_iff in H. destruct H as [H | H].
    + change (String c (a ++ t)) with (String c a ++ t)%string.
      destruct t; cbn [occurs]; rewrite (starts_with_append _ _ _ H);
        reflexivity.
    + rewrite (IH H). destruct t; cbn [occurs]; apply Bool.orb_true_r.
Qed.

Lemma occurs_suffix (p : string) (c : ascii) (s : string) :
  occurs p s = true -> occurs p (String c s) = true.
Proof. intros H. cbn [occurs]. rewrite H. apply Bool.orb_true_r. Qed.

Lemma trimStart_suffix (p s : string) :
  occurs p (trimStart s) = true -> occurs p s = true.
Proof.
  induction s as [| c r IH]; cbn [trimStart]; [auto |].
  destruct (is_space c); [| auto].
  intros H. now apply occurs_suffix, IH.
Qed.

Lemma trimEnd_prefix (s : string) : exists t, s = (trimEnd s ++ t)%string.
Proof.
  induction s as [| c r [t E]]; [now exists "" |].
  cbn [trimEnd]. destruct (trimEnd r) as [| d r'] eqn:T.
  - destruct (is_space c).
    + now exists (String c r).
    + exists t. cbn in *. now rewrite <- E.
  - exists t. cbn in *. now rewrite <- E.
Qed.

Lemma trim_keeps_out (p s : string) :
  p <> "" -> occurs p s = false -> occurs p (trim s) = false.
Proof.
  intros Hp H. destruct (occurs p (trim s)) eqn:E; [| reflexivity].
  unfold trim in E. destruct (trimEnd_prefix (trimStart s)) as [t Et].
  apply (occurs_prefix p _ t Hp) in E. rewrite <- Et in E.
  apply trimStart_suffix in E. congruence.
Qed.

Lemma trimEnd_cons (c : ascii) (r : string) :
  trimEnd (String c r)
  = match trimEnd r with
    | EmptyString => if is_space c then EmptyString else String c EmptyString
    | String d r' => String c (String d r')
    end.
Proof. reflexivity. Qed.

Lemma trimEnd_idem (s : string) : trimEnd (trimEnd s) = trimEnd s.
Proof.
  induction s as [| c r IH]; [reflexivity |]. rewrite trimEnd_cons.
  destruct (trimEnd r) as [| d r'] eqn:T.
  - destruct (is_space c) eqn:S; [reflexivity |].
    rewrite trimEnd_cons. cbn [trimEnd]. now rewrite S.
  - rewrite trimEnd_cons, IH. reflexivity.
Qed.

Lemma trimEnd_first (s : string) :
  match trimEnd s with
  | EmptyString => True
  | String c _ => first_char s = Some c
  end.
Proof.
  destruct s as [| c r]; [exact I |]. cbn [trimEnd].
  destruct (trimEnd r); [destruct (is_space c) |]; cbn; auto.
Qed.

Lemma trimStart_first (s : string) :
  match trimStart s with
  | EmptyString => True
  | String c _ => is_space c = false
  end.
Proof.
  induction s as [| c r IH]; [exact I |]. cbn [trimStart].
  destruct (is_space c) eqn:S; [exact IH | exact S].
Qed.

Lemma trim_idem (s : string) : trim (trim s) = trim s.
Proof.
  unfold trim at 1. 
  assert (H : trimStart (trim s) = trim s).
  { unfold trim. pose proof (trimEnd_first (trimStart s)) as F.
    pose proof (trimStart_first s) as G.
    destruct (trimEnd (trimStart s)) as [| c r]; [reflexivity |].
    destruct (trimStart s) as [| c' r']; [discriminate |].
    cbn in F. inversion F; subst c'. cbn [trimStart]. now rewrite G. }
  rewrite H. unfold trim. apply trimEnd_idem.
Qed.

Lemma remove_all_absent (p s : string) :
  occurs p s = false -> remove_all p s = s.
Proof.
  unfold remove_all. induction s as [| c r IH]; [reflexivity |].
  cbn [occurs remove_all_from]. intros H.
  apply Bool.orb_false_iff in H. destruct H as [H1 H2].
  now rewrite H1, IH.
Qed.

Lemma starts_with_longer (p q s : string) :
  starts_with (p ++ q) s = true -> starts_with p s = true.
Proof.
  revert s. induction p as [| x p IH]; intros s; [reflexivity |].
  destruct s as [| y s]; cbn; [discriminate |].
  intros H. apply Bool.andb_true_iff in H. destruct H as [H1 H2].
  now rewrite H1, (IH s H2).
Qed.

Lemma occurs_longer (p q s : string) :
  occurs p s = false -> occurs (p ++ q) s = false.
Proof.
  induction s as [| c r IH]; cbn [occurs]; intros H;
    apply Bool.orb_false_iff in H; destruct H as [H1 H2].
  - destruct (starts_with (p ++ q) "") eqn:E; [| reflexivity].
    apply starts_with_longer in E. congruence.
  - rewrite (IH H2), Bool.orb_false_r.
    destruct (starts_with (p ++ q) (String c r)) eqn:E; [| reflexivity].
    apply starts_with_longer in E. congruence.
Qed.

Lemma clean_code_spec (text : string) :
  occurs fence (clean_code text) = false
  /\ trim (clean_code text) = clean_code text
  /\ clean_code (clean_code text) = clean_code text.
Proof.
  assert (A : occurs fence (clean_code text) = false).
  { unfold clean_code. apply trim_keeps_out; [discriminate |].
    apply remove_fences_from. }
  assert (B : trim (clean_code text) = clean_code text)
    by (unfold clean_code; apply trim_idem).
  split; [exact A |]. split; [exact B |].
  unfold clean_code at 1.
  rewrite (remove_all_absent (fence ++ "javascript"))
    by (now apply occurs_longer).
  rewrite (remove_all_absent fence) by exact A. exact B.
Qed.

(** X22: the code [generateTransformationCode] resolves to never contains
    a markdown fence (three backticks in a row) and has no white space
    around it, whatever the text of the response; cleaning it again
    changes nothing; an absent or empty response text gives the empty
    code. *)
Theorem generated_code_has_no_fence :
  forall (text : option string) (code : string),
    generateTransformationCode (Responded text) = inl code ->
    occurs fence code = false
    /\ trim code = code
    /\ clean_code code = code
    /\ (text = None \/ text = Some "" -> code = "").
Proof.
  intros text code E. cbn [generateTransformationCode] in E.
  inversion E; subst code. clear E.
  destruct (clean_code_spec (text_or text "")) as (A & B & C).
  split; [exact A |]. split; [exact B |]. split; [exact C |].
  intros [-> | ->]; reflexivity.
Qed.

Lemma generated_code_has_no_fence_witness :
  occurs fence
    (clean_code (fence ++ "javascript return data.filter(r => r.ok); " ++ fence))
  = false.
Proof.
  apply (generated_code_has_no_fence
           (Some (fence ++ "javascript return data.filter(r => r.ok); "
                  ++ fence)%string) _ eq_refl).
Defined.

(** ** The sample table *)

Lemma random_below_range (r : Q) (n : Z) :
  (0 <= r)%Q -> (r < 1)%Q -> (0 < n)%Z ->
  (0 <= random_below r n < n)%Z.
Proof.
  intros H0 H1 Hn. unfold random_below.
  assert (Hq : (0 < inject_Z n)%Q).
  { change 0%Q with (inject_Z 0). now rewrite <- Zlt_Qlt. }
  split.
  - change 0%Z with (Qfloor (inject_Z 0)). apply Qfloor_resp_le.
    change (inject_Z 0) with 0%Q. nra.
  - rewrite Zlt_Qlt. eapply Qle_lt_trans; [apply Qfloor_le |]. nra.
Qed.

Lemma array_at_in (l : list string) (i : Z) :
  (0 <= i < Z.of_nat (List.length l))%Z ->
  exists s, array_at l i = VString s /\ In s l.
Proof.
  intros H. unfold array_at.
  replace (i <? 0)%Z with false by (symmetry; apply Z.ltb_ge; lia).
  destruct (nth_error l (Z.to_nat i)) as [s |] eqn:E.
  - exists s. split; [reflexivity | eapply nth_error_In; eauto].
  - apply nth_error_None in E. lia.
Qed.

Lemma sample_days_round_trip (d : Z) :
  (19357 <= d <= 19720)%Z -> day_round_trips d = true.
Proof.
  intros H.
  assert (A : forallb (fun k => day_round_trips (19357 + Z.of_nat k))
                      (seq 0 364) = true) by (vm_compute; reflexivity).
  rewrite forallb_forall in A.
  replace d with (19357 + Z.of_nat (Z.to_nat (d - 19357)))%Z by lia.
  apply A. apply in_seq. lia.
Qed.

Lemma iso_date_of_day (t : Z) :
  iso_date t = iso_date (t / msPerDay * msPerDay).
Proof.
  unfold iso_date. now rewrite Z.div_mul by discriminate.
Qed.

Lemma first_of_month_2023 (month : Z) :
  (0 <= month < 12)%Z ->
  (19358 <= days_from_civil (2023 + month / 12) (month mod 12 + 1) 1
   /\ days_from_civil (2023 + month / 12) (month mod 12 + 1) 1 <= 19692)%Z.
Proof.
  intros H.
  assert (C : (month = 0 \/ month = 1 \/ month = 2 \/ month = 3 \/ month = 4
               \/ month = 5 \/ month = 6 \/ month = 7 \/ month = 8
               \/ month = 9 \/ month = 10 \/ month = 11)%Z) by lia.
  repeat (destruct C as [-> | C]; [vm_compute; split; discriminate |]).
  subst. vm_compute. split; discriminate.
Qed.

Lemma sample_date_ok (h : SampleHost) (month day : Z) :
  sample_host_ok h -> (0 <= month < 12)%Z -> (1 <= day <= 28)%Z ->
  exists date,
    sample_date h month day = Some date
    /\ is_YYYY_MM_DD date = true
    /\ exists d, (19357 <= d <= 19720)%Z
                 /\ parse_iso_date date = Some (d * msPerDay)%Z.
Proof.
  intros [_ Hu] Hm Hd. unfold sample_date.
  pose proof (first_of_month_2023 month Hm) as F.
  set (D := (days_from_civil (2023 + month / 12) (month mod 12 + 1) 1
             + (day - 1))%Z) in *.
  specialize (Hu (D * msPerDay)%Z).
  set (t := utc_of_local h (D * msPerDay)%Z) in *.
  assert (Ht : ((D - 1) * msPerDay <= t <= (D + 1) * msPerDay)%Z)
    by (unfold msPerDay in *; lia).
  assert (Hday : (19357 <= t / msPerDay <= 19720)%Z).
  { split.
    - apply Z.div_le_lower_bound; [reflexivity |]. unfold msPerDay in *. lia.
    - apply Z.div_le_upper_bound; [reflexivity |]. unfold msPerDay in *. lia. }
  unfold TimeClip.
  replace (Z.abs t <=? 8640000000000000)%Z with true
    by (symmetry; apply Z.leb_le; unfold msPerDay in *; lia).
  eexists. split; [reflexivity |].
  rewrite toISOString_date, iso_date_of_day.
  pose proof (sample_days_round_trip _ Hday) as R.
  unfold day_round_trips in R. apply Bool.andb_true_iff in R.
  destruct R as [R1 R2]. split; [exact R1 |].
  exists (t / msPerDay)%Z. split; [exact Hday |].
  destruct (parse_iso_date _) as [t' |]; [| discriminate].
  apply Z.eqb_eq in R2. now subst.
Qed.

Lemma sample_row_ok (h : SampleHost) (i : nat) :
  sample_host_ok h ->
  exists row, sample_row h i = Some row /\ sample_row_shape i row.
Proof.
  intros Hok. pose proof Hok as [Hr _]. unfold sample_row.
  set (k := (7 * (i - 1))%nat).
  destruct (Hr k) as [A0 A1]. destruct (Hr (k + 1)%nat) as [B0 B1].
  destruct (Hr (k + 2)%nat) as [C0 C1]. destruct (Hr (k + 3)%nat) as [D0 D1].
  destruct (Hr (k + 4)%nat) as [E0 E1]. destruct (Hr (k + 5)%nat) as [F0 F1].
  destruct (Hr (k + 6)%nat) as [G0 G1].
  pose proof (random_below_range _ 12 A0 A1 eq_refl) as Ra.
  pose proof (random_below_range _ 28 B0 B1 eq_refl) as Rb.
  pose proof (random_below_range _ 6 C0 C1 eq_refl) as Rc.
  pose proof (random_below_range _ 3 D0 D1 eq_refl) as Rd.
  pose proof (random_below_range _ 1000 E0 E1 eq_refl) as Re.
  pose proof (random_below_range _ 300 F0 F1 eq_refl) as Rf.
  pose proof (random_below_range _ 4 G0 G1 eq_refl) as Rg.
  destruct (sample_date_ok h _ (random_below (random h (k + 1)) 28 + 1)
              Hok Ra) as (date & -> & Y & P); [lia |].
  destruct (array_at_in sample_products
              (random_below (random h (k + 2)) 6) Rc) as (p & Ep & Ip).
  destruct (array_at_in sample_categories
              (random_below (random h (k + 3)) 3) Rd) as (c & Ec & Ic).
  destruct (array_at_in sample_regions
              (random_below (random h (k + 4 + 2)) 4)) as (g & Eg & Ig).
  { replace (k + 4 + 2)%nat with (k + 6)%nat by lia. exact Rg. }
  replace (k + 4 + 2)%nat with (k + 6)%nat in Eg by lia.
  eexists. split; [reflexivity |].
  exists date, p, c, g, (random_below (random h (k + 4)) 1000 + 50)%Z,
    (random_below (random h (k + 5)) 300 - 50)%Z.
  change (Z.of_nat (List.length sample_products)) with 6%Z.
  change (Z.of_nat (List.length sample_categories)) with 3%Z.
  change (Z.of_nat (List.length sample_regions)) with 4%Z.
  rewrite Ep, Ec, Eg.
  repeat split; auto; lia.
Qed.

Lemma all_some_map {A B : Type} (f : A -> option B) (R : A -> B -> Prop)
  (l : list A) :
  (forall x, exists y, f x = Some y /\ R x y) ->
  exists ys, all_some (map f l) = Some ys /\ Forall2 R l ys.
Proof.
  intros H. induction l as [| x l (ys & E & F)].
  - exists []. split; [reflexivity | constructor].
  - destruct (H x) as (y & Ey & Ry). exists (y :: ys).
    cbn [map all_some]. rewrite Ey, E. split; [reflexivity |].
    now constructor.
Qed.

Lemma sample_rows (h : SampleHost) :
  sample_host_ok h ->
  exists data,
    generateSampleData h = Some (data, sample_columns)
    /\ Forall2 sample_row_shape (seq 1 50) data.
Proof.
  intros Hok. unfold generateSampleData.
  destruct (all_some_map (sample_row h) sample_row_shape (seq 1 50))
    as (data & E & F).
  { intros i. now apply sample_row_ok. }
  exists data. rewrite E. auto.
Qed.

Lemma sample_host0_ok : sample_host_ok sample_host0.
Proof.
  split.
  - intros n. cbn [random sample_host0].
    set (x := (inject_Z (Z.of_nat n) * (37 # 100))%Q).
    pose proof (Qfloor_le x). pose proof (Qlt_floor x).
    rewrite inject_Z_plus in *. change (inject_Z 1) with 1%Q in *.
    split; lra.
  - intros t. cbn [utc_of_local sample_host0].
    rewrite Z.sub_diag. discriminate.
Qed.

(** X23: with random numbers in [0, 1) and a local time within a day of
    UTC, [generateSampleData] returns, with its seven column names, 50
    rows that each have all seven columns: the IDs are 1 to 50 in order,
    the date is a [YYYY-MM-DD] day from 2022-12-31 to 2023-12-29, Sales
    is an integer from 50 to 1049, Profit an integer from -50 to 249, and
    product, category and region are taken from their lists. *)
Theorem sample_table_shape :
  forall h : SampleHost,
    sample_host_ok h ->
    exists data : list DataRow,
      generateSampleData h = Some (data, sample_columns)
      /\ List.length data = 50%nat
      /\ Forall2 sample_row_shape (seq 1 50) data
      /\ Forall (fun row => map fst row = sample_columns) data.
Proof.
  intros h Hok. destruct (sample_rows h Hok) as (data & E & F).
  exists data. split; [exact E |]. split; [| split; [exact F |]].
  - apply Forall2_length in F. now rewrite <- F.
  - clear E. induction F as [| i row l data S _ IH]; constructor; [| exact IH].
    destruct S as (dt & p & c & g & s & pr & -> & _). reflexivity.
Qed.

Lemma sample_table_shape_witness :
  exists data : list DataRow,
    generateSampleData sample_host0 = Some (data, sample_columns)
    /\ List.length data = 50%nat.
Proof.
  destruct (sample_table_shape sample_host0 sample_host0_ok)
    as (data & E & L & _).
  exists data. split; assumption.
Defined.

(** ** The analysis of the sample table *)

Lemma Number_toString_integer (host : Host) (z : Z) :
  (Z.abs z <=? MAX_SAFE_INTEGER)%Z = true ->
  Number_toString host (inject_Z z) = string_of_Z z.
Proof.
  intros B. unfold Number_toString, is_safe_integer.
  rewrite Qred_inject_Z. cbn [Qnum Qden inject_Z]. now rewrite B.
Qed.

Lemma JSON_stringify_head (host : Host) (o : JsObject value)
  (k1 k2 : string) (ks : list string) (m1 m2 : string) :
  Object_keys o = k1 :: k2 :: ks ->
  JSON_member host o k1 = Some m1 -> JSON_member host o k2 = Some m2 ->
  exists T, JSON_stringify host o = (("{" ++ m1) ++ String "," T)%string.
Proof.
  intros K M1 M2. unfold JSON_stringify. rewrite K. cbn [map].
  rewrite M1, M2. cbn [somes].
  set (l := somes _).
  exists (Array_join "," (m2 :: l) ++ "}")%string.
  change (Array_join "," (m1 :: m2 :: l))
    with (m1 ++ "," ++ Array_join "," (m2 :: l))%string.
  rewrite !string_append_assoc. reflexivity.
Qed.

Lemma sample_row_json_head (host : Host) (i : nat) (row : DataRow) :
  (i <= 50)%nat -> sample_row_shape i row ->
  split_head "," (JSON_stringify host row)
  = ("{" ++ JSON_quote "ID" ++ ":" ++ string_of_Z (Z.of_nat i))%string.
Proof.
  intros Hi (dt & p & c & g & s & pr & -> & _).
  destruct (JSON_stringify_head host
              [("ID", N_ (Z.of_nat i)); ("Date", VString dt);
               ("Product", VString p); ("Category", VString c);
               ("Sales", N_ s); ("Profit", N_ pr); ("Region", VString g)]
              "ID" "Date"
              ["Product"; "Category"; "Sales"; "Profit"; "Region"]
              (JSON_quote "ID" ++ ":" ++ string_of_Z (Z.of_nat i))
              (JSON_quote "Date" ++ ":" ++ JSON_quote dt)) as (T & ->).
  - reflexivity.
  - rewrite <- (Number_toString_integer host (Z.of_nat i))
      by (apply Z.leb_le; unfold MAX_SAFE_INTEGER; lia).
    reflexivity.
  - reflexivity.
  - apply split_head_append.
    rewrite !includes_append.
    rewrite (csv_token_excludes "," _ eq_refl (string_of_Z_token _)).
    reflexivity.
Qed.

Lemma NoDup_map_injective {A B : Type} (f : A -> B) (l : list A) :
  (forall a b, f a = f b -> a = b) -> NoDup l -> NoDup (map f l).
Proof.
  intros Hf. induction 1 as [| x l Hx N IH]; cbn; constructor; [| exact IH].
  intros H. apply in_map_iff in H. destruct H as (y & E & Hy).
  apply Hf in E. now subst.
Qed.

Lemma sample_rows_distinct (host : Host) (l : list nat) (data : list DataRow) :
  Forall (fun i => (i <= 50)%nat) l -> NoDup l ->
  Forall2 sample_row_shape l data ->
  NoDup (map (JSON_stringify host) data).
Proof.
  intros B N F.
  apply (NoDup_map_inv (split_head ",")).
  assert (E : map (split_head ",") (map (JSON_stringify host) data)
              = map (fun i => ("{" ++ JSON_quote "ID" ++ ":"
                               ++ string_of_Z (Z.of_nat i))%string) l).
  { clear N. induction F as [| i row l data S _ IH]; [reflexivity |].
    inversion B; subst. cbn [map]. f_equal; [| now apply IH].
    now apply sample_row_json_head. }
  rewrite E. apply NoDup_map_injective; [| exact N].
  intros a b H. apply string_append_inv_head in H.
  apply string_append_inv_head in H. apply string_append_inv_head in H.
  apply string_of_Z_inj in H. lia.
Qed.

Lemma numbers_column (host : Host) (values : list value) :
  values <> [] -> Forall (fun v => is_number v = true) values ->
  filter nonMissing values = values
  /\ detectType host values = ("Numeric", []).
Proof.
  intros Hne F.
  assert (A : filter is_number values = values) by (now apply filter_true_all).
  assert (B : filter is_string values = []).
  { apply filter_false_none. eapply Forall_impl; [| exact F].
    intros [] H; try discriminate; reflexivity. }
  split.
  - apply filter_true_all. eapply Forall_impl; [| exact F].
    intros [] H; try discriminate; reflexivity.
  - unfold detectType. rewrite A, B.
    destruct values; [contradiction | reflexivity].
Qed.

Lemma dates_column (host : Host) (values : list value) :
  values <> [] ->
  Forall (fun v => looks_like_date host v = true /\ nonMissing v = true)
         values ->
  filter nonMissing values = values
  /\ detectType host values = ("Date", []).
Proof.
  intros Hne F.
  assert (A : filter is_number values = []).
  { apply filter_false_none. eapply Forall_impl; [| exact F].
    intros [] [H _]; try discriminate; reflexivity. }
  assert (B : filter (looks_like_date host) values = values).
  { apply filter_true_all. eapply Forall_impl; [| exact F]. now intros v []. }
  split.
  - apply filter_true_all. eapply Forall_impl; [| exact F]. now intros v [].
  - unfold detectType. rewrite A, B.
    change (0 <? List.length (@nil value))%nat with false. cbn [andb].
    replace (4 * List.length values <? 5 * List.length values)%nat with true.
    + now rewrite Nat.ltb_irrefl.
    + symmetry. apply Nat.ltb_lt. destruct values; [contradiction | cbn; lia].
Qed.

Lemma text_column (host : Host) (values : list value) :
  Forall (fun v => is_string v = true /\ looks_like_date host v = false
                   /\ nonMissing v = true) values ->
  filter nonMissing values = values
  /\ detectType host values = ("Categorical", []).
Proof.
  intros F.
  assert (A : filter is_number values = []).
  { apply filter_false_none. eapply Forall_impl; [| exact F].
    intros [] [H _]; try discriminate; reflexivity. }
  assert (B : filter (looks_like_date host) values = []).
  { apply filter_false_none. eapply Forall_impl; [| exact F].
    now intros v (_ & H & _). }
  split.
  - apply filter_true_all. eapply Forall_impl; [| exact F].
    now intros v (_ & _ & H).
  - unfold detectType. rewrite A, B.
    change (0 <? List.length (@nil value))%nat with false. cbn [andb].
    change (5 * List.length (@nil value))%nat with 0%nat.
    replace (4 * List.length values <? 0)%nat with false; [reflexivity |].
    symmetry. apply Nat.ltb_ge. lia.
Qed.

Lemma is_YYYY_MM_DD_dash (s : string) :
  is_YYYY_MM_DD s = true -> includes "-" s = true /\ s <> "".
Proof.
  unfold is_YYYY_MM_DD.
  destruct s as [| c1 [| c2 [| c3 [| c4 [| c5 r]]]]];
    cbn [list_ascii_of_string]; try discriminate.
  destruct r as [| c6 [| c7 [| c8 [| c9 [| c10 [| c11 r]]]]]];
    cbn [list_ascii_of_string]; try discriminate.
  intros H. split; [| discriminate].
  repeat (apply Bool.andb_true_iff in H; destruct H as [H ?]).
  cbn [includes]. rewrite (Ascii.eqb_sym "-" c5).
  match goal with E : Ascii.eqb c5 "-" = true |- _ => rewrite E end.
  now rewrite !Bool.orb_true_r.
Qed.

(** The cells of a row of the sample table, as the analysis sees them. *)
Lemma sample_row_cells (host : Host) (i : nat) (row : DataRow) :
  sample_row_shape i row ->
  row_get row "ID" = N_ (Z.of_nat i)
  /\ is_number (row_get row "Sales") = true
  /\ is_number (row_get row "Profit") = true
  /\ (looks_like_date host (row_get row "Date") = true
      /\ nonMissing (row_get row "Date") = true)
  /\ (forall col, In col ["Product"; "Category"; "Region"] ->
        is_string (row_get row col) = true
        /\ looks_like_date host (row_get row col) = false
        /\ nonMissing (row_get row col) = true).
Proof.
  intros (dt & p & c & g & s & pr & -> & Y & (d & Hd & P) & Ip & Ic & Ig & _).
  destruct (is_YYYY_MM_DD_dash dt Y) as [Dash Ne].
  split; [reflexivity |]. split; [reflexivity |]. split; [reflexivity |].
  split.
  - change (row_get _ "Date") with (VString dt). split.
    + unfold looks_like_date, Date_parse. rewrite P, Dash. unfold TimeClip.
      replace (Z.abs (d * msPerDay) <=? 8640000000000000)%Z with true
        by (symmetry; apply Z.leb_le; unfold msPerDay; lia).
      reflexivity.
    + unfold nonMissing. cbn [strict_eq negb andb].
      apply String.eqb_neq in Ne. now rewrite Ne.
  - intros col [<- | [<- | [<- | []]]].
    + change (row_get _ "Product") with (VString p).
      cbn in Ip. repeat (destruct Ip as [<- | Ip];
        [split; [reflexivity | split; [| reflexivity]];
         apply looks_like_date_no_separator; reflexivity |]).
      contradiction.
    + change (row_get _ "Category") with (VString c).
      cbn in Ic. repeat (destruct Ic as [<- | Ic];
        [split; [reflexivity | split; [| reflexivity]];
         apply looks_like_date_no_separator; reflexivity |]).
      contradiction.
    + change (row_get _ "Region") with (VString g).
      cbn in Ig. repeat (destruct Ig as [<- | Ig];
        [split; [reflexivity | split; [| reflexivity]];
         apply looks_like_date_no_separator; reflexivity |]).
      contradiction.
Qed.

Lemma Forall2_column {A : Type} (R : A -> DataRow -> Prop) (P : value -> Prop)
  (col : string) (l : list A) (data : list DataRow) :
  (forall x row, R x row -> P (row_get row col)) ->
  Forall2 R l data -> Forall P (column_values data col).
Proof.
  intros H F. unfold column_values.
  induction F as [| x row l data Hx _ IH]; cbn; constructor; eauto.
Qed.

Lemma analyzeColumn_clean (host : Host) (data : list DataRow) (col : string)
  (ty : string) :
  data <> [] ->
  filter nonMissing (column_values data col) = column_values data col ->
  detectType host (column_values data col) = (ty, []) ->
  ca_missing (analyzeColumn host data col) = 0%nat
  /\ ca_type (analyzeColumn host data col) = ty.
Proof.
  intros Hne A B. split.
  - rewrite analyzeColumn_missing. unfold nonMissingValues. rewrite A. lia.
  - rewrite analyzeColumn_type. unfold nonMissingValues. now rewrite A, B.
Qed.

(** X24: the analysis of the sample table, whatever the random numbers:
    50 rows, 7 columns, no duplicate row and no missing cell; ID, Sales
    and Profit are Numeric, Date is a Date column without an issue,
    Product, Category and Region are Categorical; and ID has 50 unique
    values. *)
Theorem sample_table_analysis :
  forall (host : Host) (h : SampleHost),
    sample_host_ok h ->
    exists data : list DataRow,
      generateSampleData h = Some (data, sample_columns)
      /\ let r := generateGlobalAnalysis host data sample_columns in
         totalRows r = 50%nat /\ totalCols r = 7%nat
         /\ duplicateRows r = 0%nat
         /\ (forall col, In col sample_columns ->
               obj_get col (columns r) = Some (analyzeColumn host data col)
               /\ ca_missing (analyzeColumn host data col) = 0%nat)
         /\ map (fun col => ca_type (analyzeColumn host data col))
                sample_columns
            = ["Numeric"; "Date"; "Categorical"; "Categorical"; "Numeric";
               "Numeric"; "Categorical"]
         /\ ca_issues (analyzeColumn host data "Date") = []
         /\ ca_unique (analyzeColumn host data "ID") = 50%nat.
Proof.
  intros host h Hok. destruct (sample_rows h Hok) as (data & E & F).
  exists data. split; [exact E |]. cbv zeta.
  assert (Len : List.length data = 50%nat)
    by (apply Forall2_length in F; now rewrite <- F).
  assert (Hne : data <> []) by (intros ->; discriminate).
  assert (Vne : forall col, column_values data col <> []).
  { intros col Ec. apply (f_equal (@List.length value)) in Ec.
    rewrite column_values_length, Len in Ec. discriminate. }
  assert (Num : forall col, In col ["ID"; "Sales"; "Profit"] ->
            ca_missing (analyzeColumn host data col) = 0%nat
            /\ ca_type (analyzeColumn host data col) = "Numeric").
  { intros col Hc.
    assert (Fc : Forall (fun v => is_number v = true) (column_values data col)).
    { apply (Forall2_column sample_row_shape _ col _ _) with (2 := F).
      intros i row S.
      destruct (sample_row_cells host i row S) as (A & B & C & _).
      destruct Hc as [<- | [<- | [<- | []]]]; [now rewrite A | exact B | exact C]. }
    destruct (numbers_column host _ (Vne col) Fc) as [A B].
    now apply analyzeColumn_clean. }
  assert (Dat : ca_missing (analyzeColumn host data "Date") = 0%nat
                /\ ca_type (analyzeColumn host data "Date") = "Date").
  { assert (Fc : Forall (fun v => looks_like_date host v = true
                                  /\ nonMissing v = true)
                   (column_values data "Date")).
    { apply (Forall2_column sample_row_shape _ "Date" _ _) with (2 := F).
      intros i row S. now destruct (sample_row_cells host i row S)
        as (_ & _ & _ & D & _). }
    destruct (dates_column host _ (Vne "Date") Fc) as [A B].
    now apply analyzeColumn_clean. }
  assert (Txt : forall col, In col ["Product"; "Category"; "Region"] ->
            ca_missing (analyzeColumn host data col) = 0%nat
            /\ ca_type (analyzeColumn host data col) = "Categorical").
  { intros col Hc.
    assert (Fc : Forall (fun v => is_string v = true
                                  /\ looks_like_date host v = false
                                  /\ nonMissing v = true)
                   (column_values data col)).
    { apply (Forall2_column sample_row_shape _ col _ _) with (2 := F).
      intros i row S. destruct (sample_row_cells host i row S)
        as (_ & _ & _ & _ & T). now apply T. }
    destruct (text_column host _ Fc) as [A B].
    now apply analyzeColumn_clean. }
  split; [exact Len |]. split; [reflexivity |]. split; [| split; [| split; [| split]]].
  - unfold generateGlobalAnalysis. cbn [duplicateRows].
    pose proof (countDuplicateRows_distinct host data) as D.
    assert (N : NoDup (map (JSON_stringify host) data)).
    { apply (sample_rows_distinct host (seq 1 50) data); [| apply seq_NoDup | exact F].
      apply Forall_forall. intros i Hi. apply in_seq in Hi. lia. }
    apply distinct_strings_NoDup in N. rewrite length_map in N.
    unfold DataRow, JsObject in *. lia.
  - intros col Hc. split.
    + rewrite report_columns.
      replace (existsb (String.eqb col) sample_columns) with true;
        [reflexivity |].
      symmetry. now apply existsb_eqb_In.
    + cbn in Hc.
      destruct Hc as [<- | [<- | [<- | [<- | [<- | [<- | [<- | []]]]]]]].
      * apply Num. cbn. auto.
      * apply Dat.
      * apply Txt. cbn. auto.
      * apply Txt. cbn. auto.
      * apply Num. cbn. auto.
      * apply Num. cbn. auto.
      * apply Txt. cbn. auto.
  - unfold sample_columns. cbn [map].
    rewrite (proj2 (Num "ID" (or_introl eq_refl))).
    rewrite (proj2 Dat).
    rewrite (proj2 (Txt "Product" (or_introl eq_refl))).
    rewrite (proj2 (Txt "Category" (or_intror (or_introl eq_refl)))).
    rewrite (proj2 (Num "Sales" (or_intror (or_introl eq_refl)))).
    rewrite (proj2 (Num "Profit" (or_intror (or_intror (or_introl eq_refl))))).
    rewrite (proj2 (Txt "Region" (or_intror (or_intror (or_introl eq_refl))))).
    reflexivity.
  - rewrite analyzeColumn_issues_date by apply Dat.
    assert (Fc : Forall (fun v => looks_like_date host v = true
                                  /\ nonMissing v = true)
                   (column_values data "Date")).
    { apply (Forall2_column sample_row_shape _ "Date" _ _) with (2 := F).
      intros i row S. now destruct (sample_row_cells host i row S)
        as (_ & _ & _ & D & _). }
    destruct (dates_column host _ (Vne "Date") Fc) as [A B].
    unfold nonMissingValues. now rewrite A, B.
  - rewrite analyzeColumn_unique.
    assert (V : column_values data "ID"
                = map (fun i => N_ (Z.of_nat i)) (seq 1 50)).
    { unfold column_values. clear - F.
      induction F as [| i row l data S _ IH]; [reflexivity |].
      cbn [map]. f_equal; [| exact IH].
      now destruct (sample_row_cells default_host i row S) as (A & _). }
    rewrite V. vm_compute. reflexivity.
Qed.

Lemma sample_table_analysis_witness :
  exists data : list DataRow,
    generateSampleData sample_host0 = Some (data, sample_columns)
    /\ duplicateRows (generateGlobalAnalysis default_host data sample_columns)
       = 0%nat.
Proof.
  destruct (sample_table_analysis default_host sample_host0 sample_host0_ok)
    as (data & E & _ & _ & D & _).
  exists data. split; assumption.
Defined.

(** ** The counters of the notebook view *)

Lemma obj_set_NoDup {A : Type} (k : string) (v : A) (o : JsObject A) :
  NoDup (map fst o) -> NoDup (map fst (obj_set k v o)).
Proof.
  intros N. rewrite obj_set_keys. unfold Set_add.
  destruct (Set_has String.eqb (map fst o) k) eqn:E; [exact N |].
  apply NoDup_app_remove_l with (l := []). cbn.
  apply Permutation_NoDup with (l := k :: map fst o).
  - apply Permutation_cons_append.
  - constructor; [| exact N]. intros H.
    unfold Set_has in E. apply existsb_eqb_In in H. congruence.
Qed.

Lemma colReports_NoDup {A : Type} (f : string -> A) (cols : list string) :
  forall o : JsObject A,
    NoDup (map fst o) ->
    NoDup (map fst (fold_left (fun acc c => obj_set c (f c) acc) cols o)).
Proof.
  induction cols as [| c cols IH]; intros o N; cbn [fold_left]; [exact N |].
  apply IH. now apply obj_set_NoDup.
Qed.

Lemma somes_perm {A : Type} (a b : list (option A)) :
  Permutation a b -> Permutation (somes a) (somes b).
Proof.
  intros P. induction P as [| x a b P IH | x y a | a b c P1 IH1 P2 IH2].
  - constructor.
  - destruct x; cbn; auto.
  - destruct x, y; cbn; auto using perm_swap.
  - eapply Permutation_trans; eauto.
Qed.

Lemma values_of_keys {A : Type} (o : JsObject A) :
  NoDup (map fst o) ->
  somes (map (fun k => obj_get k o) (map fst o)) = map snd o.
Proof.
  induction o as [| [k v] o IH]; [reflexivity |].
  cbn [map fst snd]. intros N. inversion N as [| ? ? Hk N']; subst.
  cbn [obj_get]. rewrite String.eqb_refl. cbn [somes]. f_equal.
  rewrite <- (IH N'). f_equal. apply map_ext_in. intros k' Hk'.
  destruct (String.eqb k' k) eqn:E; [| reflexivity].
  apply String.eqb_eq in E. subst. contradiction.
Qed.

Lemma Object_values_perm {A : Type} (o : JsObject A) :
  NoDup (map fst o) -> Permutation (Object_values o) (map snd o).
Proof.
  intros N. unfold Object_values, Object_keys.
  rewrite <- (values_of_keys o N).
  apply somes_perm, Permutation_map, own_keys_perm.
Qed.

Lemma detectType_issues_le_1 (host : Host) (nonNull : list value) :
  (List.length (snd (detectType host nonNull)) <= 1)%nat.
Proof.
  unfold detectType.
  destruct (_ && _); [cbn; lia |].
  destruct (4 * List.length nonNull <? _)%nat.
  - cbn [snd]. destruct (_ <? _)%nat; cbn; lia.
  - destruct (_ && _); cbn; lia.
Qed.

Lemma analyzeColumn_issues_le_2 (host : Host) (data : list DataRow)
  (col : string) :
  (List.length (ca_issues (analyzeColumn host data col)) <= 2)%nat.
Proof.
  rewrite analyzeColumn_issues_eq.
  pose proof (detectType_issues_le_1 host (nonMissingValues data col)) as H.
  destruct (ca_numericStats _) as [ns |]; [| lia].
  rewrite length_app. destruct (0 <? ns_outliers ns)%nat; cbn; lia.
Qed.

Lemma alerts_fold (l : list ColumnAnalysis) :
  Forall (fun c => (List.length (ca_issues c) <= 2)%nat) l ->
  forall acc : nat,
    let total :=
      fold_left (fun acc col => (acc + List.length (ca_issues col))%nat) l acc in
    let flagged :=
      List.length (filter (fun c => (0 <? List.length (ca_issues c))%nat) l) in
    (total <= acc + 2 * List.length l)%nat
    /\ (acc + flagged <= total)%nat
    /\ (total = acc <-> flagged = 0%nat).
Proof.
  induction 1 as [| c l Hc _ IH]; intros acc; cbn zeta.
  - cbn. lia.
  - cbn [fold_left filter List.length].
    destruct (IH (acc + List.length (ca_issues c))%nat) as (I1 & I2 & I3).
    destruct (0 <? List.length (ca_issues c))%nat eqn:E.
    + apply Nat.ltb_lt in E. cbn [List.length]. lia.
    + apply Nat.ltb_ge in E. lia.
Qed.

(** X25: the notebook view of a report lists every column report once;
    it counts at most two alerts per column, and no alert exactly when no
    column is flagged; no column is listed both in the numeric and in the
    date table; and for a table with rows the bar of missing cells shows
    the exact percentage, so its cap at 100 never applies. *)
Theorem notebook_view_counters :
  forall (host : Host) (data : list DataRow) (cols : list string),
    let report := generateGlobalAnalysis host data cols in
    let view := notebook_view report in
    Permutation (nv_columnList view) (map snd (columns report))
    /\ (nv_alerts view <= 2 * List.length (nv_columnList view))%nat
    /\ (nv_columnsWithIssues view <= nv_alerts view)%nat
    /\ (nv_alerts view = 0%nat <-> nv_columnsWithIssues view = 0%nat)
    /\ (forall c, In c (nv_numericCols view) -> ~ In c (nv_dateCols view))
    /\ (data <> [] ->
        forall c, In c (nv_columnList view) ->
          missing_bar_width report c
          = Some (inject_Z (Z.of_nat (ca_missing c))
                  / inject_Z (Z.of_nat (totalRows report)) * 100)%Q).
Proof.
  intros host data cols report view.
  assert (N : NoDup (map fst (columns report))).
  { unfold report, generateGlobalAnalysis. cbn [columns].
    apply (colReports_NoDup (analyzeColumn host data)). constructor. }
  pose proof (Object_values_perm (columns report) N) as P.
  assert (F : Forall (fun c => exists col, c = analyzeColumn host data col)
                (nv_columnList view)).
  { apply Forall_forall. intros c Hc.
    apply (Permutation_in _ P), in_map_iff in Hc.
    destruct Hc as ([k a] & <- & Hin).
    pose proof (colReports_entries (analyzeColumn host data) cols []
                  (Forall_nil _)) as G.
    rewrite Forall_forall in G. specialize (G _ Hin). cbn in G.
    exists k. exact G. }
  assert (F2 : Forall (fun c => (List.length (ca_issues c) <= 2)%nat)
                 (nv_columnList view)).
  { eapply Forall_impl; [| exact F]. intros c (col & ->).
    apply analyzeColumn_issues_le_2. }
  destruct (alerts_fold _ F2 0%nat) as (A1 & A2 & A3).
  split; [exact P |]. split; [exact A1 |]. split; [exact A2 |].
  split; [exact A3 |]. split.
  - intros c H1 H2. cbn [nv_numericCols nv_dateCols view notebook_view] in *.
    apply filter_In in H1, H2. destruct H1 as [Hc H1]. destruct H2 as [_ H2].
    rewrite Forall_forall in F. destruct (F c Hc) as (col & ->).
    destruct (stats_presence_aux host data col) as [E | E];
      rewrite E in *; discriminate.
  - intros Hne c Hc. rewrite Forall_forall in F. destruct (F c Hc) as (col & ->).
    unfold missing_bar_width.
    assert (T : totalRows report = List.length data) by reflexivity.
    rewrite T.
    destruct (List.length data =? 0)%nat eqn:E0.
    { apply Nat.eqb_eq in E0. destruct data; [contradiction | discriminate]. }
    apply Nat.eqb_neq in E0. cbv zeta. f_equal.
    destruct (Qlt_bool 100 _) eqn:L; [| reflexivity].
    exfalso. apply Qlt_bool_iff in L.
    assert (M : (ca_missing (analyzeColumn host data col)
                 <= List.length data)%nat).
    { rewrite analyzeColumn_missing, column_values_length. lia. }
    assert (Hpos : (0 < inject_Z (Z.of_nat (List.length data)))%Q).
    { change 0%Q with (inject_Z 0). rewrite <- Zlt_Qlt. lia. }
    assert (Hle : (inject_Z (Z.of_nat (ca_missing (analyzeColumn host data col)))
                   <= inject_Z (Z.of_nat (List.length data)))%Q).
    { rewrite <- Zle_Qle. lia. }
    assert (Hd : (inject_Z (Z.of_nat (ca_missing (analyzeColumn host data col)))
                  / inject_Z (Z.of_nat (List.length data)) <= 1)%Q).
    { apply Qle_shift_div_r; [exact Hpos |]. lra. }
    lra.
Qed.

(** ** The chart of the details panel *)












(** *** The most frequent texts of a column *)

Lemma count_text_fold (host : Host) (cells : list value) :
  forall (acc : JsObject nat) (m : nat),
    fold_left count_text (map (String_ host) cells) acc
    = fst (fold_left (mode_step host) cells (acc, m)).
Proof.
  induction cells as [| v cells IH]; intros acc m; [reflexivity |].
  cbn [map fold_left].
  assert (S : exists m', mode_step host (acc, m) v
                         = (count_text acc (String_ host v), m')).
  { unfold mode_step, count_text. eexists. f_equal. f_equal.
    destruct (obj_get (String_ host v) acc) as [[| c] |]; reflexivity. }
  destruct S as [m' ->]. apply IH.
Qed.

Lemma Set_add_NoDup (s : list string) (x : string) :
  NoDup s -> NoDup (Set_add String.eqb s x).
Proof.
  intros N. unfold Set_add.
  destruct (Set_has String.eqb s x) eqn:E; [exact N |].
  apply NoDup_app_remove_l with (l := []). cbn.
  apply Permutation_NoDup with (l := x :: s).
  - apply Permutation_cons_append.
  - constructor; [| exact N]. intros H.
    unfold Set_has in E. apply existsb_eqb_In in H. congruence.
Qed.

Lemma Set_of_strings_NoDup (l : list string) :
  NoDup (Set_of String.eqb l).
Proof.
  unfold Set_of. assert (N : NoDup (@nil string)) by constructor.
  revert N. generalize (@nil string).
  induction l as [| x l IH]; intros s N; cbn [fold_left]; [exact N |].
  apply IH. now apply Set_add_NoDup.
Qed.

Lemma somes_map_some {A B : Type} (f : A -> option B) (g : A -> B)
  (l : list A) :
  (forall x, In x l -> f x = Some (g x)) -> somes (map f l) = map g l.
Proof.
  induction l as [| x l IH]; intros H; [reflexivity |].
  cbn [map]. rewrite (H x) by now left. cbn [somes]. f_equal.
  apply IH. intros y Hy. apply H. now right.
Qed.

Lemma StronglySorted_app_inv {A : Type} (R : A -> A -> Prop) (l1 l2 : list A) :
  StronglySorted R (l1 ++ l2) ->
  StronglySorted R l1 /\ forall a b, In a l1 -> In b l2 -> R a b.
Proof.
  induction l1 as [| x l1 IH]; cbn [app]; intros S.
  - split; [constructor | contradiction].
  - inversion S as [| ? ? S' F]; subst. destruct (IH S') as [S1 C].
    split.
    + constructor; [exact S1 |]. apply Forall_app in F. tauto.
    + intros a b [-> | Ha] Hb.
      * rewrite Forall_forall in F. apply F, in_or_app. now right.
      * now apply C.
Qed.

Lemma StronglySorted_map {A B : Type} (f : A -> B) (R : A -> A -> Prop)
  (S : B -> B -> Prop) (l : list A) :
  (forall a b, R a b -> S (f a) (f b)) ->
  StronglySorted R l -> StronglySorted S (map f l).
Proof.
  intros H. induction 1 as [| x l Hs IH F]; cbn [map]; constructor;
    [exact IH |].
  apply Forall_map. eapply Forall_impl; [| exact F]. intros a. apply H.
Qed.

(** [b[1] - a[1] <= 0]: the entry [a] is at least as frequent as [b]. *)
Lemma chart_order_spec (a b : string * nat) :
  Qle_bool (inject_Z (Z.of_nat (snd b)) - inject_Z (Z.of_nat (snd a))) 0 = true
  <-> (snd b <= snd a)%nat.
Proof.
  rewrite Qle_bool_iff. split.
  - intros H.
    assert (H' : (inject_Z (Z.of_nat (snd b)) <= inject_Z (Z.of_nat (snd a)))%Q)
      by lra.
    rewrite <- Zle_Qle in H'. lia.
  - intros H.
    assert (H' : (inject_Z (Z.of_nat (snd b)) <= inject_Z (Z.of_nat (snd a)))%Q)
      by (rewrite <- Zle_Qle; lia).
    lra.
Qed.

Lemma Object_entries_of {A : Type} (o : JsObject A) (keys : list string)
  (f : string -> A) :
  map fst o = keys ->
  (forall k, In k keys -> obj_get k o = Some (f k)) ->
  Object_entries o = map (fun k => (k, f k)) (own_keys keys).
Proof.
  intros <- H. unfold Object_entries, Object_keys.
  apply somes_map_some. intros k Hk. rewrite H; [reflexivity |].
  eapply Permutation_in; [apply own_keys_perm | exact Hk].
Qed.

Lemma chart_entries (host : Host) (cells : list value) :
  let counts := fold_left count_text (map (String_ host) cells) [] in
  Object_entries counts
  = map (fun k => (k, frequency host cells k))
        (own_keys (mode_keys host cells)).
Proof.
  cbv zeta. rewrite (count_text_fold host cells [] 0%nat).
  pose proof (mode_inv_fold host cells [] _ (mode_inv_init host)) as I.
  cbn [app] in I. destruct I as (K & G & _).
  apply Object_entries_of; [exact K |].
  intros k Hk. rewrite G.
  assert (P : (0 < frequency host cells k)%nat)
    by (now apply frequency_pos, mode_keys_in).
  destruct (frequency host cells k =? 0)%nat eqn:E; [| reflexivity].
  apply Nat.eqb_eq in E. lia.
Qed.

(** X27: for a column that is not Numeric the chart of the details panel
    shows the five most frequent texts of the column, missing cells
    included under the names null, undefined and the empty name: at most
    five entries with distinct names, each with the number of cells that
    read as its name, in order of decreasing count, and no text left out
    is more frequent than a text shown.  This holds as long as no cell
    reads as the name of a property inherited from [Object.prototype]. *)
Theorem top_values_are_the_most_frequent :
  forall (host : Host) (data : list DataRow) (column : string),
    let cells := column_values data column in
    let texts := map (String_ host) cells in
    Forall (fun t => is_inherited_key t = false) texts ->
    exists entries : list ChartEntry,
      top_values host data column = Some entries
      /\ List.length entries
         = Nat.min 5 (List.length (Set_of String.eqb texts))
      /\ NoDup (map ce_name entries)
      /\ Forall (fun e => In (ce_name e) texts
                          /\ ce_count e = frequency host cells (ce_name e))
                entries
      /\ StronglySorted (fun a b => (ce_count b <= ce_count a)%nat) entries
      /\ (forall t, In t texts -> ~ In t (map ce_name entries) ->
            Forall (fun e => (frequency host cells t <= ce_count e)%nat)
                   entries).
Proof.
  intros host data column cells texts F.
  set (leb := fun a b : string * nat =>
                Qle_bool (inject_Z (Z.of_nat (snd b))
                          - inject_Z (Z.of_nat (snd a))) 0).
  set (E0 := map (fun k => (k, frequency host cells k))
                 (own_keys (mode_keys host cells))).
  set (sorted := stable_sort leb E0).
  set (mk := fun e : string * nat => {| ce_name := fst e; ce_count := snd e |}).
  assert (Etop : top_values host data column
                 = Some (map mk (firstn 5 sorted))).
  { unfold top_values.
    replace (map (fun r => String_ host (row_get r column)) data) with texts
      by (unfold texts, cells, column_values; now rewrite map_map).
    replace (existsb is_inherited_key texts) with false.
    2:{ symmetry. apply Bool.not_true_is_false. intros H.
        apply existsb_exists in H. destruct H as (t & Ht & Hi).
        rewrite Forall_forall in F. rewrite (F t Ht) in Hi. discriminate. }
    unfold texts. rewrite (chart_entries host cells). reflexivity. }
  assert (Ps : Permutation E0 sorted) by apply stable_sort_perm.
  assert (Ss : StronglySorted (leb_rel leb) sorted).
  { apply stable_sort_sorted.
    - intros x y. unfold leb. rewrite !chart_order_spec. lia.
    - intros x y z. unfold leb. rewrite !chart_order_spec. lia. }
  assert (Hin : forall e, In e sorted ->
                          In (fst e) texts
                          /\ snd e = frequency host cells (fst e)).
  { intros e He. apply (Permutation_in _ (Permutation_sym Ps)) in He.
    unfold E0 in He. apply in_map_iff in He. destruct He as (k & <- & Hk).
    split; [| reflexivity]. cbn [fst].
    apply mode_keys_in.
    eapply Permutation_in; [apply own_keys_perm | exact Hk]. }
  assert (Nk : NoDup (map fst sorted)).
  { apply Permutation_NoDup with (l := mode_keys host cells).
    - rewrite <- (Permutation_map fst Ps). unfold E0. rewrite map_map.
      cbn [fst]. rewrite map_id. symmetry. apply own_keys_perm.
    - apply Set_of_strings_NoDup. }
  pose proof (firstn_skipn 5 sorted) as Split.
  rewrite <- Split in Ss, Nk.
  destruct (StronglySorted_app_inv _ _ _ Ss) as [S1 C].
  exists (map mk (firstn 5 sorted)).
  split; [exact Etop |]. split; [| split; [| split; [| split]]].
  - rewrite length_map, length_firstn. f_equal.
    unfold sorted. rewrite stable_sort_length. unfold E0.
    rewrite length_map. apply Permutation_length, own_keys_perm.
  - rewrite map_map. cbn [mk ce_name]. rewrite map_app in Nk.
    now apply NoDup_app_remove_r in Nk.
  - apply Forall_map. apply Forall_forall. intros e He. cbn [mk ce_name ce_count].
    apply Hin. now apply In_firstn in He.
  - apply (StronglySorted_map mk (leb_rel leb)); [| exact S1].
    intros a b H. cbn [mk ce_count]. now apply chart_order_spec.
  - intros t Ht Hout. apply Forall_map. apply Forall_forall. intros e He.
    cbn [mk ce_count].
    assert (Hs : In (t, frequency host cells t) sorted).
    { apply (Permutation_in _ Ps). unfold E0.
      apply (in_map (fun k => (k, frequency host cells k))).
      eapply Permutation_in; [symmetry; apply own_keys_perm |].
      now apply mode_keys_in. }
    rewrite <- Split in Hs. apply in_app_or in Hs. destruct Hs as [Hs | Hs].
    + exfalso. apply Hout. rewrite map_map. cbn [mk ce_name].
      apply (in_map fst) in Hs. exact Hs.
    + apply (chart_order_spec e (t, frequency host cells t)).
      apply (C e _ He Hs).
Qed.

Lemma top_values_are_the_most_frequent_witness :
  exists entries : list ChartEntry,
    top_values default_host
      (single_column "city"
         [VString "Rome"; N_ 7; VString "Oslo"; VNull; N_ 7; VString "Rome";
          N_ 7; VString "Bern"; VString "Lima"; VUndefined; VString "Kiev"])
      "city"
    = Some entries
    /\ List.length entries = 5%nat
    /\ NoDup (map ce_name entries).
Proof.
  destruct (top_values_are_the_most_frequent default_host
              (single_column "city"
                 [VString "Rome"; N_ 7; VString "Oslo"; VNull; N_ 7;
                  VString "Rome"; N_ 7; VString "Bern"; VString "Lima";
                  VUndefined; VString "Kiev"])
              "city")
    as (entries & E & L & N & _); [repeat constructor |].
  exists entries. split; [exact E |]. split; [exact L | exact N].
Defined.
